(** * Wormhole Rhythm: the simulation core of [GameEngine]

    A shallow embedding of the game-loop core of the TypeScript class
    [GameEngine] (entity lifecycle, collision resolution, timing judgement,
    score / combo / health bookkeeping and the level state machine), and the
    properties of it that the specification states.

    Modelling conventions.
    - JavaScript numbers that only ever hold integers (score, combo, health,
      hit counters, millisecond timestamps from [Date.now()]) are [Z];
      fractional quantities (positions, progress, deltaTime, timers in
      seconds) are rationals [Q].  A finite double is a rational, and
      [Double] below gives the IEEE 754 binary64 operations on them.  The
      score of a hit ([handleScore]) is computed with these operations, and
      [Binary64] gives the tick with the movement of portals and whips
      computed with them: there a rounding decides a score, a state or the
      frame in which an entity leaves play.  Elsewhere computed values are
      read as real numbers, and the concrete scenarios stay well away from
      the thresholds they are compared with.
    - [this] is an explicit [Engine] record threaded through every method.
    - [Portal] objects live in a store ([portalHeap]); [this.portals] is a
      list of references into it.  This keeps the aliasing of the source,
      where [this.portals] is re-assigned by [filter] while a [forEach] over
      the previous array is still mutating the same objects.
    - [Date.now()] is a parameter [now] of the methods that read it,
      [Math.random()] pops the next draw from [randoms], [setTimeout] appends
      to [timers], calls into the audio collaborator are appended to
      [audioLog], and the patches handed to [onGameStateChange] are appended
      to [stateChanges].  Console logging and rendering are left out. *)

From Stdlib Require Import ZArith QArith Qpower Qround Qminmax Lia Lqa String
  List Bool.
From stdpp Require Import base list.
Import ListNotations.

Open Scope Z_scope.

(** ** Numbers *)

(** [a < b] on JavaScript numbers, as a boolean. *)
Definition Qltb (a b : Q) : bool := negb (Qle_bool b a).

(** The double nearest to pi, the value of [Math.PI]. *)
Definition Math_PI : Q := (7074237752028440 # 2251799813685248)%Q.

(** *** Binary64

    The finite doubles are the rationals [m * 2^e] with [|m| < 2^53] and
    [-1074 <= e].  [round q] is the double nearest to [q], ties to the even
    mantissa, which is what a literal denotes and what every IEEE 754
    operation returns for its exact result.  The exponent has no upper
    bound here: Infinity and NaN are not modelled, nor is the sign of
    zero. *)

Module Double.

(** The exponent of the smallest subnormal. *)
Definition emin : Z := -1074.

(** For [0 < q], the [e] with [2^e <= q < 2^(e+1)]. *)
Definition log2 (q : Q) : Z :=
  let l := Z.log2 (Qnum q) - Z.log2 (Z.pos (Qden q)) in
  if Qle_bool (2 ^ l) q then l else l - 1.

(** The nearest integer, ties to even. *)
Definition nearest (q : Q) : Z :=
  let f := Qfloor q in
  match (q - inject_Z f ?= 1 # 2)%Q with
  | Lt => f
  | Gt => f + 1
  | Eq => if Z.even f then f else f + 1
  end.

(** The unit in the last place of the doubles around [q], for [0 < q]. *)
Definition ulp (q : Q) : Q := (2 ^ Z.max (log2 q - 52) emin)%Q.

Definition round_pos (q : Q) : Q :=
  Qred (inject_Z (nearest (q / ulp q)) * ulp q).

Definition round (q : Q) : Q :=
  match Qnum q with
  | Z0 => 0%Q
  | Zpos _ => round_pos q
  | Zneg _ => (- round_pos (- q))%Q
  end.

(** [a + b], [a - b] and [a * b] on doubles.  An operand that is not a
    double stands for the double nearest to it. *)
Definition add (a b : Q) : Q := round (round a + round b).
Definition sub (a b : Q) : Q := round (round a - round b).
Definition mul (a b : Q) : Q := round (round a * round b).

End Double.

(** ** Data model (types/game.ts, as used by the engine) *)

Inductive Status : Set :=
  menu | playing | paused | level_complete | gameover | transitioning.

Inductive Quality : Set := perfect | great | good | hit | miss.

Inductive PortalType : Set := bass | snare | hihat.

Inductive PortalPosition : Set := approach | active | missed.

Inductive Difficulty : Set := easy | normal | hard.

Inductive WaveType : Set := sine | cosine | sawtooth | square.

Scheme Equality for Status.
Scheme Equality for Quality.
Scheme Equality for PortalType.
Scheme Equality for PortalPosition.

(** Portal identifiers are template strings: [portal_${index}] for chart
    portals and [portal_${Date.now()}_${Math.random()}] for spawned ones. *)
Inductive PortalId : Type :=
  | portal_index (index : nat)
  | portal_spawn (now : Z) (r : Q).

Definition PortalId_eqb (a b : PortalId) : bool :=
  match a, b with
  | portal_index i, portal_index j => Nat.eqb i j
  | portal_spawn t r, portal_spawn t' r' => Z.eqb t t' && Qeq_bool r r'
  | _, _ => false
  end.

Record Point : Type := { px : Q; py : Q }.

Record Portal : Type := {
  portal_id : PortalId;
  portal_type : PortalType;
  portal_x : Q;
  portal_y : Q;
  portal_z : Q;
  portal_size : Q;
  portal_speed : Q;
  portal_horizontalSpeed : Q;
  portal_color : string;
  portal_frequency : Q;
  portal_frequencyRange : string;
  portal_spawnTime : Z;
  portal_targetTime : Z;
  portal_position : PortalPosition;
  portal_isTraveling : bool;          (* [undefined] is read as false *)
  portal_travelProgress : option Q;
  portal_isMoving : bool;
  portal_travelLane : Z;
  portal_beatMatch : bool;
  portal_hitQuality : option Quality
}.

Record TrailPoint : Type := { trail_x : Q; trail_y : Q; trail_alpha : Q }.

Record WavePattern : Type := {
  amplitude : Q;
  frequency : Q;
  phase : Q;
  decay : Q;
  waveType : WaveType
}.

Record Trajectory : Type := { start : Point; control : Point; end_ : Point }.

Record Whip : Type := {
  whip_id : Z;                        (* [whip_${Date.now()}] *)
  whip_position : Point;
  whip_targetPosition : Point;
  whip_trajectory : Trajectory;
  whip_velocity : Q;
  whip_isActive : bool;
  whip_isExtending : bool;
  whip_extensionProgress : Q;
  whip_trailPoints : list TrailPoint;
  whip_cosmicEnergy : Q;
  whip_whipLength : Q;
  whip_whipAngle : Q;
  whip_createdTime : Z;
  whip_hitDetection : bool;
  whip_wavePattern : WavePattern;
  whip_cursorSpeed : Q
}.

Inductive EffectType : Set :=
  beat_pulse | wave_trail | particle | portal_travel | level_transition
  | portal_hit.

(** Effect identifiers, again template strings over the clock. *)
Inductive EffectId : Type :=
  | beat_ (now : Z)
  | whip_trail_ (now : Z)
  | touch_feedback_ (now : Z)
  | travel_ (now : Z)
  | level_transition_ (now : Z)
  | hit_ (now : Z) (r : Q)
  | miss_ (now : Z) (r : Q).

(** The [data: any] payload, one variant per use in the engine. *)
Inductive EffectData : Type :=
  | data_beat (beatType : PortalType)
  | data_wave (wavePattern : WavePattern) (speedFactor : Q) (isTouchInput : bool)
  | data_touch_pulse (color : string) (particleCount : Z)
  | data_travel (portalType : PortalType) (dimension : PortalId)
  | data_level (levelIndex : nat)
  | data_hit (quality : Quality) (portalType : PortalType)
  | data_miss.

Record VisualEffect : Type := {
  fx_id : EffectId;
  fx_type : EffectType;
  fx_position : Q * Q * Q;
  fx_startTime : Z;
  fx_duration : Z;
  fx_data : EffectData
}.

Record LevelData : Type := {
  level_id : Z;
  level_name : string;
  level_description : string;
  level_difficulty : Difficulty;
  requiredHits : Z;
  portalSpeed : Q;
  spawnRate : Q;
  background : string;
  music : string;
  timeLimit : Z;
  bonusScore : Z
}.

Record GameState : Type := {
  status : Status;
  score : Z;
  combo : Z;
  health : Z;
  level : Z;
  currentSong : string;
  currentSongProgress : Q;
  maxCombo : Z;
  accuracy : Z;
  gameMode : string;
  levelProgress : Q;
  portalsHit : Z;
  portalsTotal : Z;
  currentDifficulty : Difficulty;
  transitionActive : bool
}.

(** One key of a [Partial<GameState>] object literal. *)
Inductive Update : Type :=
  | status_ (v : Status)
  | score_ (v : Z)
  | combo_ (v : Z)
  | health_ (v : Z)
  | level_ (v : Z)
  | currentSong_ (v : string)
  | currentSongProgress_ (v : Q)
  | maxCombo_ (v : Z)
  | accuracy_ (v : Z)
  | gameMode_ (v : string)
  | levelProgress_ (v : Q)
  | portalsHit_ (v : Z)
  | portalsTotal_ (v : Z)
  | currentDifficulty_ (v : Difficulty)
  | transitionActive_ (v : bool).

(** Calls into the audio collaborator. *)
Inductive AudioCmd : Type :=
  | playSound (name : string) (volume : Q)
  | playMusic (name : string) (volume : Q)
  | pauseAll
  | resumeAll
  | stopAll.

(** The two callbacks the engine hands to [setTimeout]. *)
Inductive Callback : Set := cb_triggerLevelTransition | cb_proceedToNextLevel.

(** What [fireWhip] reads from the input collaborator. *)
Record InputReading : Type := {
  hasActiveTouch : bool;
  currentTouchSpeed : Q;
  touchVelocity : Point;
  averageCursorSpeed : Q;
  cursorVelocity : Point
}.

Record Engine : Type := {
  canvasWidth : Q;
  canvasHeight : Q;
  gameState : GameState;
  portalHeap : list Portal;
  portals : list nat;
  activeWhips : list Whip;
  visualEffects : list VisualEffect;
  currentLevelIndex : nat;
  levelStartTime : Z;
  currentDimension : string;
  portalSpawnTimer : Q;
  beatTimer : Q;
  currentBeat : Z;
  beatInterval : Q;
  audioEnabled : bool;
  lastTime : Z;
  gameTime : Q;
  gameStartTime : Z;
  (* the world around the engine *)
  audioLog : list AudioCmd;
  stateChanges : list (list Update);
  timers : list (Z * Callback);
  randoms : list Q
}.
(** ** Field assignment

    [set_f v r] is the record [r] after the assignment [r.f = v]. *)

Definition set_status v (g : GameState) : GameState :=
  {| status := v; score := score g; combo := combo g; health := health g;
     level := level g; currentSong := currentSong g;
     currentSongProgress := currentSongProgress g; maxCombo := maxCombo g;
     accuracy := accuracy g; gameMode := gameMode g;
     levelProgress := levelProgress g; portalsHit := portalsHit g;
     portalsTotal := portalsTotal g;
     currentDifficulty := currentDifficulty g;
     transitionActive := transitionActive g |}.

Definition set_score v (g : GameState) : GameState :=
  {| status := status g; score := v; combo := combo g; health := health g;
     level := level g; currentSong := currentSong g;
     currentSongProgress := currentSongProgress g; maxCombo := maxCombo g;
     accuracy := accuracy g; gameMode := gameMode g;
     levelProgress := levelProgress g; portalsHit := portalsHit g;
     portalsTotal := portalsTotal g;
     currentDifficulty := currentDifficulty g;
     transitionActive := transitionActive g |}.

Definition set_combo v (g : GameState) : GameState :=
  {| status := status g; score := score g; combo := v; health := health g;
     level := level g; currentSong := currentSong g;
     currentSongProgress := currentSongProgress g; maxCombo := maxCombo g;
     accuracy := accuracy g; gameMode := gameMode g;
     levelProgress := levelProgress g; portalsHit := portalsHit g;
     portalsTotal := portalsTotal g;
     currentDifficulty := currentDifficulty g;
     transitionActive := transitionActive g |}.

Definition set_health v (g : GameState) : GameState :=
  {| status := status g; score := score g; combo := combo g; health := v;
     level := level g; currentSong := currentSong g;
     currentSongProgress := currentSongProgress g; maxCombo := maxCombo g;
     accuracy := accuracy g; gameMode := gameMode g;
     levelProgress := levelProgress g; portalsHit := portalsHit g;
     portalsTotal := portalsTotal g;
     currentDifficulty := currentDifficulty g;
     transitionActive := transitionActive g |}.

Definition set_level v (g : GameState) : GameState :=
  {| status := status g; score := score g; combo := combo g;
     health := health g; level := v; currentSong := currentSong g;
     currentSongProgress := currentSongProgress g; maxCombo := maxCombo g;
     accuracy := accuracy g; gameMode := gameMode g;
     levelProgress := levelProgress g; portalsHit := portalsHit g;
     portalsTotal := portalsTotal g;
     currentDifficulty := currentDifficulty g;
     transitionActive := transitionActive g |}.

Definition set_currentSong v (g : GameState) : GameState :=
  {| status := status g; score := score g; combo := combo g;
     health := health g; level := level g; currentSong := v;
     currentSongProgress := currentSongProgress g; maxCombo := maxCombo g;
     accuracy := accuracy g; gameMode := gameMode g;
     levelProgress := levelProgress g; portalsHit := portalsHit g;
     portalsTotal := portalsTotal g;
     currentDifficulty := currentDifficulty g;
     transitionActive := transitionActive g |}.

Definition set_currentSongProgress v (g : GameState) : GameState :=
  {| status := status g; score := score g; combo := combo g;
     health := health g; level := level g; currentSong := currentSong g;
     currentSongProgress := v; maxCombo := maxCombo g;
     accuracy := accuracy g; gameMode := gameMode g;
     levelProgress := levelProgress g; portalsHit := portalsHit g;
     portalsTotal := portalsTotal g;
     currentDifficulty := currentDifficulty g;
     transitionActive := transitionActive g |}.

Definition set_maxCombo v (g : GameState) : GameState :=
  {| status := status g; score := score g; combo := combo g;
     health := health g; level := level g; currentSong := currentSong g;
     currentSongProgress := currentSongProgress g; maxCombo := v;
     accuracy := accuracy g; gameMode := gameMode g;
     levelProgress := levelProgress g; portalsHit := portalsHit g;
     portalsTotal := portalsTotal g;
     currentDifficulty := currentDifficulty g;
     transitionActive := transitionActive g |}.

Definition set_accuracy v (g : GameState) : GameState :=
  {| status := status g; score := score g; combo := combo g;
     health := health g; level := level g; currentSong := currentSong g;
     currentSongProgress := currentSongProgress g; maxCombo := maxCombo g;
     accuracy := v; gameMode := gameMode g; levelProgress := levelProgress g;
     portalsHit := portalsHit g; portalsTotal := portalsTotal g;
     currentDifficulty := currentDifficulty g;
     transitionActive := transitionActive g |}.

Definition set_gameMode v (g : GameState) : GameState :=
  {| status := status g; score := score g; combo := combo g;
     health := health g; level := level g; currentSong := currentSong g;
     currentSongProgress := currentSongProgress g; maxCombo := maxCombo g;
     accuracy := accuracy g; gameMode := v; levelProgress := levelProgress g;
     portalsHit := portalsHit g; portalsTotal := portalsTotal g;
     currentDifficulty := currentDifficulty g;
     transitionActive := transitionActive g |}.

Definition set_levelProgress v (g : GameState) : GameState :=
  {| status := status g; score := score g; combo := combo g;
     health := health g; level := level g; currentSong := currentSong g;
     currentSongProgress := currentSongProgress g; maxCombo := maxCombo g;
     accuracy := accuracy g; gameMode := gameMode g; levelProgress := v;
     portalsHit := portalsHit g; portalsTotal := portalsTotal g;
     currentDifficulty := currentDifficulty g;
     transitionActive := transitionActive g |}.

Definition set_portalsHit v (g : GameState) : GameState :=
  {| status := status g; score := score g; combo := combo g;
     health := health g; level := level g; currentSong := currentSong g;
     currentSongProgress := currentSongProgress g; maxCombo := maxCombo g;
     accuracy := accuracy g; gameMode := gameMode g;
     levelProgress := levelProgress g; portalsHit := v;
     portalsTotal := portalsTotal g;
     currentDifficulty := currentDifficulty g;
     transitionActive := transitionActive g |}.

Definition set_portalsTotal v (g : GameState) : GameState :=
  {| status := status g; score := score g; combo := combo g;
     health := health g; level := level g; currentSong := currentSong g;
     currentSongProgress := currentSongProgress g; maxCombo := maxCombo g;
     accuracy := accuracy g; gameMode := gameMode g;
     levelProgress := levelProgress g; portalsHit := portalsHit g;
     portalsTotal := v; currentDifficulty := currentDifficulty g;
     transitionActive := transitionActive g |}.

Definition set_currentDifficulty v (g : GameState) : GameState :=
  {| status := status g; score := score g; combo := combo g;
     health := health g; level := level g; currentSong := currentSong g;
     currentSongProgress := currentSongProgress g; maxCombo := maxCombo g;
     accuracy := accuracy g; gameMode := gameMode g;
     levelProgress := levelProgress g; portalsHit := portalsHit g;
     portalsTotal := portalsTotal g; currentDifficulty := v;
     transitionActive := transitionActive g |}.

Definition set_transitionActive v (g : GameState) : GameState :=
  {| status := status g; score := score g; combo := combo g;
     health := health g; level := level g; currentSong := currentSong g;
     currentSongProgress := currentSongProgress g; maxCombo := maxCombo g;
     accuracy := accuracy g; gameMode := gameMode g;
     levelProgress := levelProgress g; portalsHit := portalsHit g;
     portalsTotal := portalsTotal g;
     currentDifficulty := currentDifficulty g; transitionActive := v |}.

Definition set_portal_x v (p : Portal) : Portal :=
  {| portal_id := portal_id p; portal_type := portal_type p; portal_x := v;
     portal_y := portal_y p; portal_z := portal_z p;
     portal_size := portal_size p; portal_speed := portal_speed p;
     portal_horizontalSpeed := portal_horizontalSpeed p;
     portal_color := portal_color p; portal_frequency := portal_frequency p;
     portal_frequencyRange := portal_frequencyRange p;
     portal_spawnTime := portal_spawnTime p;
     portal_targetTime := portal_targetTime p;
     portal_position := portal_position p;
     portal_isTraveling := portal_isTraveling p;
     portal_travelProgress := portal_travelProgress p;
     portal_isMoving := portal_isMoving p;
     portal_travelLane := portal_travelLane p;
     portal_beatMatch := portal_beatMatch p;
     portal_hitQuality := portal_hitQuality p |}.

Definition set_portal_position v (p : Portal) : Portal :=
  {| portal_id := portal_id p; portal_type := portal_type p;
     portal_x := portal_x p; portal_y := portal_y p; portal_z := portal_z p;
     portal_size := portal_size p; portal_speed := portal_speed p;
     portal_horizontalSpeed := portal_horizontalSpeed p;
     portal_color := portal_color p; portal_frequency := portal_frequency p;
     portal_frequencyRange := portal_frequencyRange p;
     portal_spawnTime := portal_spawnTime p;
     portal_targetTime := portal_targetTime p; portal_position := v;
     portal_isTraveling := portal_isTraveling p;
     portal_travelProgress := portal_travelProgress p;
     portal_isMoving := portal_isMoving p;
     portal_travelLane := portal_travelLane p;
     portal_beatMatch := portal_beatMatch p;
     portal_hitQuality := portal_hitQuality p |}.

Definition set_portal_beatMatch v (p : Portal) : Portal :=
  {| portal_id := portal_id p; portal_type := portal_type p;
     portal_x := portal_x p; portal_y := portal_y p; portal_z := portal_z p;
     portal_size := portal_size p; portal_speed := portal_speed p;
     portal_horizontalSpeed := portal_horizontalSpeed p;
     portal_color := portal_color p; portal_frequency := portal_frequency p;
     portal_frequencyRange := portal_frequencyRange p;
     portal_spawnTime := portal_spawnTime p;
     portal_targetTime := portal_targetTime p;
     portal_position := portal_position p;
     portal_isTraveling := portal_isTraveling p;
     portal_travelProgress := portal_travelProgress p;
     portal_isMoving := portal_isMoving p;
     portal_travelLane := portal_travelLane p; portal_beatMatch := v;
     portal_hitQuality := portal_hitQuality p |}.

Definition set_portal_hitQuality v (p : Portal) : Portal :=
  {| portal_id := portal_id p; portal_type := portal_type p;
     portal_x := portal_x p; portal_y := portal_y p; portal_z := portal_z p;
     portal_size := portal_size p; portal_speed := portal_speed p;
     portal_horizontalSpeed := portal_horizontalSpeed p;
     portal_color := portal_color p; portal_frequency := portal_frequency p;
     portal_frequencyRange := portal_frequencyRange p;
     portal_spawnTime := portal_spawnTime p;
     portal_targetTime := portal_targetTime p;
     portal_position := portal_position p;
     portal_isTraveling := portal_isTraveling p;
     portal_travelProgress := portal_travelProgress p;
     portal_isMoving := portal_isMoving p;
     portal_travelLane := portal_travelLane p;
     portal_beatMatch := portal_beatMatch p; portal_hitQuality := v |}.

Definition set_portal_isTraveling v (p : Portal) : Portal :=
  {| portal_id := portal_id p; portal_type := portal_type p;
     portal_x := portal_x p; portal_y := portal_y p; portal_z := portal_z p;
     portal_size := portal_size p; portal_speed := portal_speed p;
     portal_horizontalSpeed := portal_horizontalSpeed p;
     portal_color := portal_color p; portal_frequency := portal_frequency p;
     portal_frequencyRange := portal_frequencyRange p;
     portal_spawnTime := portal_spawnTime p;
     portal_targetTime := portal_targetTime p;
     portal_position := portal_position p; portal_isTraveling := v;
     portal_travelProgress := portal_travelProgress p;
     portal_isMoving := portal_isMoving p;
     portal_travelLane := portal_travelLane p;
     portal_beatMatch := portal_beatMatch p;
     portal_hitQuality := portal_hitQuality p |}.

Definition set_portal_travelProgress v (p : Portal) : Portal :=
  {| portal_id := portal_id p; portal_type := portal_type p;
     portal_x := portal_x p; portal_y := portal_y p; portal_z := portal_z p;
     portal_size := portal_size p; portal_speed := portal_speed p;
     portal_horizontalSpeed := portal_horizontalSpeed p;
     portal_color := portal_color p; portal_frequency := portal_frequency p;
     portal_frequencyRange := portal_frequencyRange p;
     portal_spawnTime := portal_spawnTime p;
     portal_targetTime := portal_targetTime p;
     portal_position := portal_position p;
     portal_isTraveling := portal_isTraveling p; portal_travelProgress := v;
     portal_isMoving := portal_isMoving p;
     portal_travelLane := portal_travelLane p;
     portal_beatMatch := portal_beatMatch p;
     portal_hitQuality := portal_hitQuality p |}.

Definition set_whip_extensionProgress v (w : Whip) : Whip :=
  {| whip_id := whip_id w; whip_position := whip_position w;
     whip_targetPosition := whip_targetPosition w;
     whip_trajectory := whip_trajectory w; whip_velocity := whip_velocity w;
     whip_isActive := whip_isActive w;
     whip_isExtending := whip_isExtending w; whip_extensionProgress := v;
     whip_trailPoints := whip_trailPoints w;
     whip_cosmicEnergy := whip_cosmicEnergy w;
     whip_whipLength := whip_whipLength w;
     whip_whipAngle := whip_whipAngle w;
     whip_createdTime := whip_createdTime w;
     whip_hitDetection := whip_hitDetection w;
     whip_wavePattern := whip_wavePattern w;
     whip_cursorSpeed := whip_cursorSpeed w |}.

Definition set_whip_isActive v (w : Whip) : Whip :=
  {| whip_id := whip_id w; whip_position := whip_position w;
     whip_targetPosition := whip_targetPosition w;
     whip_trajectory := whip_trajectory w; whip_velocity := whip_velocity w;
     whip_isActive := v; whip_isExtending := whip_isExtending w;
     whip_extensionProgress := whip_extensionProgress w;
     whip_trailPoints := whip_trailPoints w;
     whip_cosmicEnergy := whip_cosmicEnergy w;
     whip_whipLength := whip_whipLength w;
     whip_whipAngle := whip_whipAngle w;
     whip_createdTime := whip_createdTime w;
     whip_hitDetection := whip_hitDetection w;
     whip_wavePattern := whip_wavePattern w;
     whip_cursorSpeed := whip_cursorSpeed w |}.

Definition set_whip_trailPoints v (w : Whip) : Whip :=
  {| whip_id := whip_id w; whip_position := whip_position w;
     whip_targetPosition := whip_targetPosition w;
     whip_trajectory := whip_trajectory w; whip_velocity := whip_velocity w;
     whip_isActive := whip_isActive w;
     whip_isExtending := whip_isExtending w;
     whip_extensionProgress := whip_extensionProgress w;
     whip_trailPoints := v; whip_cosmicEnergy := whip_cosmicEnergy w;
     whip_whipLength := whip_whipLength w;
     whip_whipAngle := whip_whipAngle w;
     whip_createdTime := whip_createdTime w;
     whip_hitDetection := whip_hitDetection w;
     whip_wavePattern := whip_wavePattern w;
     whip_cursorSpeed := whip_cursorSpeed w |}.

Definition set_whip_hitDetection v (w : Whip) : Whip :=
  {| whip_id := whip_id w; whip_position := whip_position w;
     whip_targetPosition := whip_targetPosition w;
     whip_trajectory := whip_trajectory w; whip_velocity := whip_velocity w;
     whip_isActive := whip_isActive w;
     whip_isExtending := whip_isExtending w;
     whip_extensionProgress := whip_extensionProgress w;
     whip_trailPoints := whip_trailPoints w;
     whip_cosmicEnergy := whip_cosmicEnergy w;
     whip_whipLength := whip_whipLength w;
     whip_whipAngle := whip_whipAngle w;
     whip_createdTime := whip_createdTime w; whip_hitDetection := v;
     whip_wavePattern := whip_wavePattern w;
     whip_cursorSpeed := whip_cursorSpeed w |}.

Definition set_gameState v (e : Engine) : Engine :=
  {| canvasWidth := canvasWidth e; canvasHeight := canvasHeight e;
     gameState := v; portalHeap := portalHeap e; portals := portals e;
     activeWhips := activeWhips e; visualEffects := visualEffects e;
     currentLevelIndex := currentLevelIndex e;
     levelStartTime := levelStartTime e;
     currentDimension := currentDimension e;
     portalSpawnTimer := portalSpawnTimer e; beatTimer := beatTimer e;
     currentBeat := currentBeat e; beatInterval := beatInterval e;
     audioEnabled := audioEnabled e; lastTime := lastTime e;
     gameTime := gameTime e; gameStartTime := gameStartTime e;
     audioLog := audioLog e; stateChanges := stateChanges e;
     timers := timers e; randoms := randoms e |}.

Definition set_portalHeap v (e : Engine) : Engine :=
  {| canvasWidth := canvasWidth e; canvasHeight := canvasHeight e;
     gameState := gameState e; portalHeap := v; portals := portals e;
     activeWhips := activeWhips e; visualEffects := visualEffects e;
     currentLevelIndex := currentLevelIndex e;
     levelStartTime := levelStartTime e;
     currentDimension := currentDimension e;
     portalSpawnTimer := portalSpawnTimer e; beatTimer := beatTimer e;
     currentBeat := currentBeat e; beatInterval := beatInterval e;
     audioEnabled := audioEnabled e; lastTime := lastTime e;
     gameTime := gameTime e; gameStartTime := gameStartTime e;
     audioLog := audioLog e; stateChanges := stateChanges e;
     timers := timers e; randoms := randoms e |}.

Definition set_portals v (e : Engine) : Engine :=
  {| canvasWidth := canvasWidth e; canvasHeight := canvasHeight e;
     gameState := gameState e; portalHeap := portalHeap e; portals := v;
     activeWhips := activeWhips e; visualEffects := visualEffects e;
     currentLevelIndex := currentLevelIndex e;
     levelStartTime := levelStartTime e;
     currentDimension := currentDimension e;
     portalSpawnTimer := portalSpawnTimer e; beatTimer := beatTimer e;
     currentBeat := currentBeat e; beatInterval := beatInterval e;
     audioEnabled := audioEnabled e; lastTime := lastTime e;
     gameTime := gameTime e; gameStartTime := gameStartTime e;
     audioLog := audioLog e; stateChanges := stateChanges e;
     timers := timers e; randoms := randoms e |}.

Definition set_activeWhips v (e : Engine) : Engine :=
  {| canvasWidth := canvasWidth e; canvasHeight := canvasHeight e;
     gameState := gameState e; portalHeap := portalHeap e;
     portals := portals e; activeWhips := v;
     visualEffects := visualEffects e;
     currentLevelIndex := currentLevelIndex e;
     levelStartTime := levelStartTime e;
     currentDimension := currentDimension e;
     portalSpawnTimer := portalSpawnTimer e; beatTimer := beatTimer e;
     currentBeat := currentBeat e; beatInterval := beatInterval e;
     audioEnabled := audioEnabled e; lastTime := lastTime e;
     gameTime := gameTime e; gameStartTime := gameStartTime e;
     audioLog := audioLog e; stateChanges := stateChanges e;
     timers := timers e; randoms := randoms e |}.

Definition set_visualEffects v (e : Engine) : Engine :=
  {| canvasWidth := canvasWidth e; canvasHeight := canvasHeight e;
     gameState := gameState e; portalHeap := portalHeap e;
     portals := portals e; activeWhips := activeWhips e; visualEffects := v;
     currentLevelIndex := currentLevelIndex e;
     levelStartTime := levelStartTime e;
     currentDimension := currentDimension e;
     portalSpawnTimer := portalSpawnTimer e; beatTimer := beatTimer e;
     currentBeat := currentBeat e; beatInterval := beatInterval e;
     audioEnabled := audioEnabled e; lastTime := lastTime e;
     gameTime := gameTime e; gameStartTime := gameStartTime e;
     audioLog := audioLog e; stateChanges := stateChanges e;
     timers := timers e; randoms := randoms e |}.

Definition set_currentLevelIndex v (e : Engine) : Engine :=
  {| canvasWidth := canvasWidth e; canvasHeight := canvasHeight e;
     gameState := gameState e; portalHeap := portalHeap e;
     portals := portals e; activeWhips := activeWhips e;
     visualEffects := visualEffects e; currentLevelIndex := v;
     levelStartTime := levelStartTime e;
     currentDimension := currentDimension e;
     portalSpawnTimer := portalSpawnTimer e; beatTimer := beatTimer e;
     currentBeat := currentBeat e; beatInterval := beatInterval e;
     audioEnabled := audioEnabled e; lastTime := lastTime e;
     gameTime := gameTime e; gameStartTime := gameStartTime e;
     audioLog := audioLog e; stateChanges := stateChanges e;
     timers := timers e; randoms := randoms e |}.

Definition set_levelStartTime v (e : Engine) : Engine :=
  {| canvasWidth := canvasWidth e; canvasHeight := canvasHeight e;
     gameState := gameState e; portalHeap := portalHeap e;
     portals := portals e; activeWhips := activeWhips e;
     visualEffects := visualEffects e;
     currentLevelIndex := currentLevelIndex e; levelStartTime := v;
     currentDimension := currentDimension e;
     portalSpawnTimer := portalSpawnTimer e; beatTimer := beatTimer e;
     currentBeat := currentBeat e; beatInterval := beatInterval e;
     audioEnabled := audioEnabled e; lastTime := lastTime e;
     gameTime := gameTime e; gameStartTime := gameStartTime e;
     audioLog := audioLog e; stateChanges := stateChanges e;
     timers := timers e; randoms := randoms e |}.

Definition set_currentDimension v (e : Engine) : Engine :=
  {| canvasWidth := canvasWidth e; canvasHeight := canvasHeight e;
     gameState := gameState e; portalHeap := portalHeap e;
     portals := portals e; activeWhips := activeWhips e;
     visualEffects := visualEffects e;
     currentLevelIndex := currentLevelIndex e;
     levelStartTime := levelStartTime e; currentDimension := v;
     portalSpawnTimer := portalSpawnTimer e; beatTimer := beatTimer e;
     currentBeat := currentBeat e; beatInterval := beatInterval e;
     audioEnabled := audioEnabled e; lastTime := lastTime e;
     gameTime := gameTime e; gameStartTime := gameStartTime e;
     audioLog := audioLog e; stateChanges := stateChanges e;
     timers := timers e; randoms := randoms e |}.

Definition set_portalSpawnTimer v (e : Engine) : Engine :=
  {| canvasWidth := canvasWidth e; canvasHeight := canvasHeight e;
     gameState := gameState e; portalHeap := portalHeap e;
     portals := portals e; activeWhips := activeWhips e;
     visualEffects := visualEffects e;
     currentLevelIndex := currentLevelIndex e;
     levelStartTime := levelStartTime e;
     currentDimension := currentDimension e; portalSpawnTimer := v;
     beatTimer := beatTimer e; currentBeat := currentBeat e;
     beatInterval := beatInterval e; audioEnabled := audioEnabled e;
     lastTime := lastTime e; gameTime := gameTime e;
     gameStartTime := gameStartTime e; audioLog := audioLog e;
     stateChanges := stateChanges e; timers := timers e;
     randoms := randoms e |}.

Definition set_beatTimer v (e : Engine) : Engine :=
  {| canvasWidth := canvasWidth e; canvasHeight := canvasHeight e;
     gameState := gameState e; portalHeap := portalHeap e;
     portals := portals e; activeWhips := activeWhips e;
     visualEffects := visualEffects e;
     currentLevelIndex := currentLevelIndex e;
     levelStartTime := levelStartTime e;
     currentDimension := currentDimension e;
     portalSpawnTimer := portalSpawnTimer e; beatTimer := v;
     currentBeat := currentBeat e; beatInterval := beatInterval e;
     audioEnabled := audioEnabled e; lastTime := lastTime e;
     gameTime := gameTime e; gameStartTime := gameStartTime e;
     audioLog := audioLog e; stateChanges := stateChanges e;
     timers := timers e; randoms := randoms e |}.

Definition set_currentBeat v (e : Engine) : Engine :=
  {| canvasWidth := canvasWidth e; canvasHeight := canvasHeight e;
     gameState := gameState e; portalHeap := portalHeap e;
     portals := portals e; activeWhips := activeWhips e;
     visualEffects := visualEffects e;
     currentLevelIndex := currentLevelIndex e;
     levelStartTime := levelStartTime e;
     currentDimension := currentDimension e;
     portalSpawnTimer := portalSpawnTimer e; beatTimer := beatTimer e;
     currentBeat := v; beatInterval := beatInterval e;
     audioEnabled := audioEnabled e; lastTime := lastTime e;
     gameTime := gameTime e; gameStartTime := gameStartTime e;
     audioLog := audioLog e; stateChanges := stateChanges e;
     timers := timers e; randoms := randoms e |}.

Definition set_audioEnabled v (e : Engine) : Engine :=
  {| canvasWidth := canvasWidth e; canvasHeight := canvasHeight e;
     gameState := gameState e; portalHeap := portalHeap e;
     portals := portals e; activeWhips := activeWhips e;
     visualEffects := visualEffects e;
     currentLevelIndex := currentLevelIndex e;
     levelStartTime := levelStartTime e;
     currentDimension := currentDimension e;
     portalSpawnTimer := portalSpawnTimer e; beatTimer := beatTimer e;
     currentBeat := currentBeat e; beatInterval := beatInterval e;
     audioEnabled := v; lastTime := lastTime e; gameTime := gameTime e;
     gameStartTime := gameStartTime e; audioLog := audioLog e;
     stateChanges := stateChanges e; timers := timers e;
     randoms := randoms e |}.

Definition set_lastTime v (e : Engine) : Engine :=
  {| canvasWidth := canvasWidth e; canvasHeight := canvasHeight e;
     gameState := gameState e; portalHeap := portalHeap e;
     portals := portals e; activeWhips := activeWhips e;
     visualEffects := visualEffects e;
     currentLevelIndex := currentLevelIndex e;
     levelStartTime := levelStartTime e;
     currentDimension := currentDimension e;
     portalSpawnTimer := portalSpawnTimer e; beatTimer := beatTimer e;
     currentBeat := currentBeat e; beatInterval := beatInterval e;
     audioEnabled := audioEnabled e; lastTime := v; gameTime := gameTime e;
     gameStartTime := gameStartTime e; audioLog := audioLog e;
     stateChanges := stateChanges e; timers := timers e;
     randoms := randoms e |}.

Definition set_gameTime v (e : Engine) : Engine :=
  {| canvasWidth := canvasWidth e; canvasHeight := canvasHeight e;
     gameState := gameState e; portalHeap := portalHeap e;
     portals := portals e; activeWhips := activeWhips e;
     visualEffects := visualEffects e;
     currentLevelIndex := currentLevelIndex e;
     levelStartTime := levelStartTime e;
     currentDimension := currentDimension e;
     portalSpawnTimer := portalSpawnTimer e; beatTimer := beatTimer e;
     currentBeat := currentBeat e; beatInterval := beatInterval e;
     audioEnabled := audioEnabled e; lastTime := lastTime e; gameTime := v;
     gameStartTime := gameStartTime e; audioLog := audioLog e;
     stateChanges := stateChanges e; timers := timers e;
     randoms := randoms e |}.

Definition set_gameStartTime v (e : Engine) : Engine :=
  {| canvasWidth := canvasWidth e; canvasHeight := canvasHeight e;
     gameState := gameState e; portalHeap := portalHeap e;
     portals := portals e; activeWhips := activeWhips e;
     visualEffects := visualEffects e;
     currentLevelIndex := currentLevelIndex e;
     levelStartTime := levelStartTime e;
     currentDimension := currentDimension e;
     portalSpawnTimer := portalSpawnTimer e; beatTimer := beatTimer e;
     currentBeat := currentBeat e; beatInterval := beatInterval e;
     audioEnabled := audioEnabled e; lastTime := lastTime e;
     gameTime := gameTime e; gameStartTime := v; audioLog := audioLog e;
     stateChanges := stateChanges e; timers := timers e;
     randoms := randoms e |}.

Definition set_audioLog v (e : Engine) : Engine :=
  {| canvasWidth := canvasWidth e; canvasHeight := canvasHeight e;
     gameState := gameState e; portalHeap := portalHeap e;
     portals := portals e; activeWhips := activeWhips e;
     visualEffects := visualEffects e;
     currentLevelIndex := currentLevelIndex e;
     levelStartTime := levelStartTime e;
     currentDimension := currentDimension e;
     portalSpawnTimer := portalSpawnTimer e; beatTimer := beatTimer e;
     currentBeat := currentBeat e; beatInterval := beatInterval e;
     audioEnabled := audioEnabled e; lastTime := lastTime e;
     gameTime := gameTime e; gameStartTime := gameStartTime e; audioLog := v;
     stateChanges := stateChanges e; timers := timers e;
     randoms := randoms e |}.

Definition set_stateChanges v (e : Engine) : Engine :=
  {| canvasWidth := canvasWidth e; canvasHeight := canvasHeight e;
     gameState := gameState e; portalHeap := portalHeap e;
     portals := portals e; activeWhips := activeWhips e;
     visualEffects := visualEffects e;
     currentLevelIndex := currentLevelIndex e;
     levelStartTime := levelStartTime e;
     currentDimension := currentDimension e;
     portalSpawnTimer := portalSpawnTimer e; beatTimer := beatTimer e;
     currentBeat := currentBeat e; beatInterval := beatInterval e;
     audioEnabled := audioEnabled e; lastTime := lastTime e;
     gameTime := gameTime e; gameStartTime := gameStartTime e;
     audioLog := audioLog e; stateChanges := v; timers := timers e;
     randoms := randoms e |}.

Definition set_timers v (e : Engine) : Engine :=
  {| canvasWidth := canvasWidth e; canvasHeight := canvasHeight e;
     gameState := gameState e; portalHeap := portalHeap e;
     portals := portals e; activeWhips := activeWhips e;
     visualEffects := visualEffects e;
     currentLevelIndex := currentLevelIndex e;
     levelStartTime := levelStartTime e;
     currentDimension := currentDimension e;
     portalSpawnTimer := portalSpawnTimer e; beatTimer := beatTimer e;
     currentBeat := currentBeat e; beatInterval := beatInterval e;
     audioEnabled := audioEnabled e; lastTime := lastTime e;
     gameTime := gameTime e; gameStartTime := gameStartTime e;
     audioLog := audioLog e; stateChanges := stateChanges e; timers := v;
     randoms := randoms e |}.

Definition set_randoms v (e : Engine) : Engine :=
  {| canvasWidth := canvasWidth e; canvasHeight := canvasHeight e;
     gameState := gameState e; portalHeap := portalHeap e;
     portals := portals e; activeWhips := activeWhips e;
     visualEffects := visualEffects e;
     currentLevelIndex := currentLevelIndex e;
     levelStartTime := levelStartTime e;
     currentDimension := currentDimension e;
     portalSpawnTimer := portalSpawnTimer e; beatTimer := beatTimer e;
     currentBeat := currentBeat e; beatInterval := beatInterval e;
     audioEnabled := audioEnabled e; lastTime := lastTime e;
     gameTime := gameTime e; gameStartTime := gameStartTime e;
     audioLog := audioLog e; stateChanges := stateChanges e;
     timers := timers e; randoms := v |}.

(** ** The engine's constants *)

Definition levels : list LevelData :=
  [ {| level_id := 1; level_name := "Cosmic Void";
       level_description := "Welcome to the wormhole dimensions";
       level_difficulty := easy; requiredHits := 10; portalSpeed := 0.3;
       spawnRate := 0.5; background := "cosmic_void";
       music := "cosmic_theme_music.mp3"; timeLimit := 60;
       bonusScore := 1000 |};
    {| level_id := 2; level_name := "Stellar Nebula";
       level_description := "Navigate through the stellar clouds";
       level_difficulty := normal; requiredHits := 15; portalSpeed := 0.4;
       spawnRate := 0.7; background := "stellar_nebula";
       music := "rhythm_game_energetic.mp3"; timeLimit := 75;
       bonusScore := 2000 |};
    {| level_id := 3; level_name := "Quantum Field";
       level_description := "Master the quantum beats";
       level_difficulty := hard; requiredHits := 20; portalSpeed := 0.5;
       spawnRate := 0.9; background := "quantum_field";
       music := "epic_journey_music.mp3"; timeLimit := 90;
       bonusScore := 3000 |} ].

Definition availableDimensions : list string :=
  [ "cosmic_void"; "stellar_nebula"; "quantum_field"; "temporal_rift";
    "dark_matter_cloud"; "plasma_storm"; "crystal_galaxy";
    "void_walker_realm" ]%string.

Record FrequencyBand : Type := {
  band_min : Q; band_max : Q; band_range : string; band_x : Q
}.

Definition FREQUENCY_MAPPING (type : PortalType) : FrequencyBand :=
  match type with
  | bass => {| band_min := 50; band_max := 120; band_range := "50-120Hz";
               band_x := 0.15 |}
  | snare => {| band_min := 150; band_max := 300; band_range := "150-300Hz";
                band_x := 0.5 |}
  | hihat => {| band_min := 1000; band_max := 8000; band_range := "1-8kHz+";
                band_x := 0.85 |}
  end.

Definition FROGGER_LANES : Q := 3.

Definition getPortalSize (type : PortalType) : Q :=
  match type with bass => 0.08 | snare => 0.06 | hihat => 0.04 end.

Definition getPortalColor (type : PortalType) : string :=
  match type with
  | bass => "#8B5A96" | snare => "#00FFFF" | hihat => "#FFFF00"
  end.

(** ** The world: random draws, audio, timers, state listeners *)

(** [Math.random()]: the next draw, and the engine with that draw used up
    (0 once the recorded draws are exhausted). *)
Definition Math_random (e : Engine) : Q * Engine :=
  (hd 0%Q (randoms e), set_randoms (tl (randoms e)) e).

Definition audio (c : AudioCmd) (e : Engine) : Engine :=
  set_audioLog (audioLog e ++ [c]) e.

Definition setTimeout (cb : Callback) (delay now : Z) (e : Engine) : Engine :=
  set_timers (timers e ++ [(now + delay, cb)]) e.

Definition pushEffect (fx : VisualEffect) (e : Engine) : Engine :=
  set_visualEffects (visualEffects e ++ [fx]) e.

(** ** Game state bookkeeping *)

Definition applyUpdate (g : GameState) (u : Update) : GameState :=
  match u with
  | status_ v => set_status v g
  | score_ v => set_score v g
  | combo_ v => set_combo v g
  | health_ v => set_health v g
  | level_ v => set_level v g
  | currentSong_ v => set_currentSong v g
  | currentSongProgress_ v => set_currentSongProgress v g
  | maxCombo_ v => set_maxCombo v g
  | accuracy_ v => set_accuracy v g
  | gameMode_ v => set_gameMode v g
  | levelProgress_ v => set_levelProgress v g
  | portalsHit_ v => set_portalsHit v g
  | portalsTotal_ v => set_portalsTotal v g
  | currentDifficulty_ v => set_currentDifficulty v g
  | transitionActive_ v => set_transitionActive v g
  end.

(** [this.gameState = { ...this.gameState, ...updates }], then the listener. *)
Definition updateGameState (updates : list Update) (e : Engine) : Engine :=
  set_stateChanges (stateChanges e ++ [updates])
    (set_gameState (fold_left applyUpdate updates (gameState e)) e).

Definition getCurrentLevel (e : Engine) : option LevelData :=
  levels !! currentLevelIndex e.

Definition updateCurrentLevel (e : Engine) : Engine :=
  match levels !! currentLevelIndex e with
  | Some currentLevel =>
      set_gameState
        (set_currentSong (music currentLevel)
           (set_currentDifficulty (level_difficulty currentLevel)
              (gameState e))) e
  | None => e
  end.

Definition endGame (e : Engine) : Engine :=
  let e := set_gameState (set_status gameover (gameState e)) e in
  let e := updateGameState [status_ gameover] e in
  audio stopAll e.

Definition updateCombo (increment : Z) (e : Engine) : Engine :=
  let newCombo := Z.max 0 (combo (gameState e) + increment) in
  let maxCombo := Z.max (maxCombo (gameState e)) newCombo in
  updateGameState [combo_ newCombo; maxCombo_ maxCombo] e.

Definition updateHealth (change : Z) (e : Engine) : Engine :=
  let newHealth := Z.max 0 (Z.min 100 (health (gameState e) + change)) in
  let e := updateGameState [health_ newHealth] e in
  if newHealth <=? 0 then endGame e else e.

(** [Math.min(1 + combo * 0.02, 3)], in double arithmetic. *)
Definition comboMultiplier (combo : Z) : Q :=
  Qmin (Double.add 1 (Double.mul (inject_Z combo) 0.02)) 3.

Definition handleScore (quality : Quality) (baseScore : Z) (e : Engine)
  : Engine :=
  let comboMultiplier := comboMultiplier (combo (gameState e)) in
  let finalScore :=
    Qfloor (Double.mul (inject_Z baseScore) comboMultiplier) in
  let e := updateGameState [score_ (score (gameState e) + finalScore)] e in
  let e := updateCombo 1 e in
  if (0 <? combo (gameState e)) && (Z.rem (combo (gameState e)) 10 =? 0)
  then audio (playSound "combo_bonus.mp3" 0.5) e
  else e.

(** ** Portal objects *)

Definition getPortal (r : nat) (e : Engine) : option Portal :=
  portalHeap e !! r.

(** Mutation of the portal object behind reference [r]. *)
Definition modifyPortal (r : nat) (f : Portal -> Portal) (e : Engine)
  : Engine :=
  set_portalHeap (alter f r (portalHeap e)) e.

(** [this.portals = this.portals.filter(p => p.id !== id)] *)
Definition removePortalsWithId (id : PortalId) (e : Engine) : Engine :=
  set_portals
    (List.filter
       (fun r' => match portalHeap e !! r' with
                  | Some p' => negb (PortalId_eqb (portal_id p') id)
                  | None => true
                  end)
       (portals e)) e.

Definition createHitEffect (now : Z) (portal : Portal) (quality : Quality)
    (e : Engine) : Engine :=
  let (r, e) := Math_random e in
  pushEffect
    {| fx_id := hit_ now r; fx_type := portal_hit;
       fx_position := (portal_x portal, portal_y portal, portal_z portal);
       fx_startTime := now; fx_duration := 1000;
       fx_data := data_hit quality (portal_type portal) |} e.

Definition createMissEffect (now : Z) (portal : Portal) (e : Engine)
  : Engine :=
  let (r, e) := Math_random e in
  pushEffect
    {| fx_id := miss_ now r; fx_type := particle;
       fx_position := (portal_x portal, portal_y portal, portal_z portal);
       fx_startTime := now; fx_duration := 500;
       fx_data := data_miss |} e.

(** ** Level state machine *)

Definition getRandomDimension (e : Engine) : string * Engine :=
  let (r, e) := Math_random e in
  let i := Qfloor (r * inject_Z (Z.of_nat (length availableDimensions))) in
  (default "undefined"%string (availableDimensions !! Z.to_nat i), e).

Definition changeDimension (e : Engine) : Engine :=
  let (newDimension, e) := getRandomDimension e in
  let e := set_currentDimension newDimension e in
  audio (playMusic (newDimension ++ "_theme.mp3") 0.6) e.

Definition proceedToNextLevel (now : Z) (e : Engine) : Engine :=
  let e :=
    match getCurrentLevel e with
    | Some currentLevel =>
        updateGameState
          [score_ (score (gameState e) + bonusScore currentLevel);
           level_ (level (gameState e) + 1)] e
    | None => e
    end in
  let e := set_currentLevelIndex (S (currentLevelIndex e)) e in
  if (currentLevelIndex e <? length levels)%nat then
    let e :=
      updateGameState
        [status_ playing; transitionActive_ false; portalsHit_ 0;
         portalsTotal_ 0] e in
    let e := updateCurrentLevel e in
    let e := changeDimension e in
    let e := set_portals [] e in
    set_levelStartTime now e
  else
    let e := updateGameState [status_ gameover] e in
    audio stopAll e.

Definition triggerLevelTransition (now : Z) (e : Engine) : Engine :=
  if negb (Status_beq (status (gameState e)) playing) then e else
  let e := updateGameState [status_ level_complete; transitionActive_ true] e in
  let e := audio (playSound "combo_bonus.mp3" 0.8) e in
  let e :=
    pushEffect
      {| fx_id := level_transition_ now; fx_type := level_transition;
         fx_position := (0.5, 0.5, 0)%Q; fx_startTime := now;
         fx_duration := 3000;
         fx_data := data_level (currentLevelIndex e) |} e in
  setTimeout cb_proceedToNextLevel 3000 now e.

Definition checkLevelCompletion (now : Z) (e : Engine) : Engine :=
  match getCurrentLevel e with
  | None => e
  | Some currentLevel =>
      let progress :=
        (inject_Z (portalsHit (gameState e))
         / inject_Z (requiredHits currentLevel) * 100)%Q in
      let e := updateGameState [levelProgress_ progress] e in
      if requiredHits currentLevel <=? portalsHit (gameState e)
      then triggerLevelTransition now e
      else e
  end.

(** A [setTimeout] callback comes due. *)
Definition runCallback (cb : Callback) (now : Z) (e : Engine) : Engine :=
  match cb with
  | cb_triggerLevelTransition => triggerLevelTransition now e
  | cb_proceedToNextLevel => proceedToNextLevel now e
  end.

(** The browser runs, in order, the callbacks that are due at [now]. *)
Definition runTimers (now : Z) (e : Engine) : Engine :=
  let due := List.filter (fun t => fst t <=? now) (timers e) in
  let e := set_timers (List.filter (fun t => negb (fst t <=? now)) (timers e)) e in
  fold_left (fun e t => runCallback (snd t) now e) due e.

(** ** Hit resolution *)

(** The timing windows at the head of [handlePortalHit]: the quality tier and
    base score for a portal with the given [beatMatch] flag, hit [timeDiff]
    milliseconds away from its target time. *)
Definition judgeHit (beatMatch : bool) (timeDiff : Z) : Quality * Z :=
  if beatMatch && (timeDiff <=? 100) then
    let quality :=
      if timeDiff <=? 30 then perfect
      else if timeDiff <=? 60 then great else good in
    let score :=
      if Quality_beq quality perfect then 1500
      else if Quality_beq quality great then 1200 else 900 in
    (quality, score)
  else
    let quality :=
      if timeDiff <=? 30 then perfect
      else if timeDiff <=? 60 then great
      else if timeDiff <=? 100 then good
      else if timeDiff <=? 200 then hit else miss in
    let score :=
      if Quality_beq quality perfect then 1000
      else if Quality_beq quality great then 800
      else if Quality_beq quality good then 600
      else if Quality_beq quality hit then 400 else 0 in
    (quality, score).

Definition triggerPortalTravel (now : Z) (r : nat) (e : Engine) : Engine :=
  let e :=
    modifyPortal r
      (fun p => set_portal_travelProgress (Some 0%Q)
                  (set_portal_isTraveling true p)) e in
  let e := audio (playSound "portal_travel_swoosh.mp3" 0.9) e in
  let e :=
    match getPortal r e with
    | Some portal =>
        pushEffect
          {| fx_id := travel_ now; fx_type := portal_travel;
             fx_position :=
               (portal_x portal, portal_y portal, portal_z portal);
             fx_startTime := now; fx_duration := 2000;
             fx_data := data_travel (portal_type portal) (portal_id portal) |}
          e
    | None => e
    end in
  match getCurrentLevel e with
  | Some currentLevel =>
      if requiredHits currentLevel <=? portalsHit (gameState e)
      then setTimeout cb_triggerLevelTransition 1000 now e
      else e
  | None => e
  end.

(** [handlePortalHit(portal, whip)], for the portal behind reference [r] and
    the whip at index [wi] of [activeWhips]. *)
Definition handlePortalHit (now : Z) (r wi : nat) (e : Engine) : Engine :=
  match getPortal r e with
  | None => e
  | Some portal =>
      let timeDiff := Z.abs (now - portal_targetTime portal) in
      let (quality, score) := judgeHit (portal_beatMatch portal) timeDiff in
      if negb (Quality_beq quality miss) then
        let e := modifyPortal r (set_portal_hitQuality (Some quality)) e in
        let e := handleScore quality score e in
        let e := triggerPortalTravel now r e in
        let e := createHitEffect now portal quality e in
        let soundName :=
          if Quality_beq quality perfect then "perfect_hit_chime.mp3"%string
          else "good_hit_buzz.mp3"%string in
        let e := audio (playSound soundName 0.8) e in
        let e :=
          updateGameState
            [portalsHit_ (portalsHit (gameState e) + 1);
             portalsTotal_ (portalsTotal (gameState e) + 1)] e in
        let e := checkLevelCompletion now e in
        let e := removePortalsWithId (portal_id portal) e in
        set_activeWhips
          (alter (set_whip_hitDetection false) wi (activeWhips e)) e
      else e
  end.

Definition handlePortalMiss (now : Z) (r : nat) (e : Engine) : Engine :=
  match getPortal r e with
  | None => e
  | Some portal =>
      let e := modifyPortal r (set_portal_hitQuality (Some miss)) e in
      let e := updateCombo 0 e in
      let e := updateHealth (-1) e in
      let e := audio (playSound "miss_alert.mp3" 0.6) e in
      createMissEffect now portal e
  end.

(** ** Geometry *)

(** [Math.pow(v, 2)] *)
Definition sq (v : Q) : Q := (v * v)%Q.

Definition bezier (t a b c : Q) : Q :=
  (sq (1 - t) * a + 2 * (1 - t) * t * b + sq t * c)%Q.

Definition getWhipCurrentPosition (whip : Whip) : Point :=
  let t := whip_extensionProgress whip in
  let tr := whip_trajectory whip in
  {| px := bezier t (px (start tr)) (px (control tr)) (px (end_ tr));
     py := bezier t (py (start tr)) (py (control tr)) (py (end_ tr)) |}.

(** [distance < hitRadius] with [distance] a square root: over exact numbers
    this is [0 < hitRadius] and [distance^2 < hitRadius^2]. *)
Definition isWhipCollidingWithPortal (e : Engine) (whip : Whip)
    (portal : Portal) : bool :=
  let currentPos := getWhipCurrentPosition whip in
  let portalPos :=
    {| px := (portal_x portal * canvasWidth e)%Q;
       py := (portal_y portal * canvasHeight e)%Q |} in
  let distance2 :=
    (sq (px currentPos - px portalPos) + sq (py currentPos - py portalPos))%Q in
  let hitRadius := (portal_size portal * canvasWidth e * 0.8)%Q in
  Qltb 0 hitRadius && Qltb distance2 (sq hitRadius).

(** The body of the inner [forEach] of [checkCollisions]. *)
Definition collidePortal (now : Z) (wi : nat) (e : Engine) (r : nat)
  : Engine :=
  match getPortal r e, activeWhips e !! wi with
  | Some portal, Some whip =>
      if negb (PortalPosition_beq (portal_position portal) active) then e
      else if isWhipCollidingWithPortal e whip portal
           then handlePortalHit now r wi e
           else e
  | _, _ => e
  end.

(** The body of the outer [forEach] of [checkCollisions]; the inner loop
    runs over [this.portals] as it is when the loop starts. *)
Definition collideWhip (now : Z) (e : Engine) (wi : nat) : Engine :=
  match activeWhips e !! wi with
  | Some whip =>
      if negb (whip_hitDetection whip) then e
      else fold_left (collidePortal now wi) (portals e) e
  | None => e
  end.

Definition checkCollisions (now : Z) (e : Engine) : Engine :=
  fold_left (collideWhip now) (seq 0 (length (activeWhips e))) e.

(** ** Entity lifecycle *)

(** The callback of the [filter] in [updateWhips]: the whip after the
    callback's mutations, and the callback's verdict.  The sums are read
    over the reals; [Binary64.updateWhip] is the same callback in double
    arithmetic. *)
Definition updateWhip (deltaTime : Q) (whip : Whip) : Whip * bool :=
  let whip :=
    set_whip_extensionProgress
      (whip_extensionProgress whip + deltaTime * 2)%Q whip in
  if Qle_bool 1 (whip_extensionProgress whip) then
    (set_whip_isActive false (set_whip_extensionProgress 1%Q whip), false)
  else
    let faded :=
      map (fun point =>
             {| trail_x := trail_x point; trail_y := trail_y point;
                trail_alpha := (trail_alpha point - deltaTime * 2)%Q |})
          (whip_trailPoints whip) in
    (set_whip_trailPoints
       (List.filter (fun point => Qltb 0 (trail_alpha point)) faded) whip,
     true).

Definition updateWhips (deltaTime : Q) (e : Engine) : Engine :=
  set_activeWhips
    (map fst (List.filter snd (map (updateWhip deltaTime) (activeWhips e))))
    e.

Definition updateVisualEffects (now : Z) (e : Engine) : Engine :=
  set_visualEffects
    (List.filter
       (fun effect =>
          let effectProgress :=
            (inject_Z (now - fx_startTime effect)
             / inject_Z (fx_duration effect))%Q in
          Qle_bool effectProgress 1)
       (visualEffects e)) e.

(** With one clock reading [now] for the id, the spawn time and the target
    time; [spawnRandomPortalAt] tells the three readings apart. *)
Definition spawnRandomPortal (now : Z) (e : Engine) : Engine :=
  let portalTypes := [bass; snare; hihat] in
  let (r1, e) := Math_random e in
  let type :=
    default hihat
      (portalTypes !! Z.to_nat (Qfloor (r1 * inject_Z (Z.of_nat (length portalTypes))))) in
  let (r2, e) := Math_random e in
  let lane := Qfloor (r2 * FROGGER_LANES) in
  let laneYPositions := [0.3; 0.5; 0.7]%Q in
  let (r3, e) := Math_random e in
  let y := (default 0 (laneYPositions !! Z.to_nat lane) + (r3 - 0.5) * 0.1)%Q in
  let speed :=
    match getCurrentLevel e with
    | Some currentLevel => portalSpeed currentLevel
    | None => 0.3%Q
    end in
  let (r4, e) := Math_random e in
  let (r5, e) := Math_random e in
  let (r6, e) := Math_random e in
  let band := FREQUENCY_MAPPING type in
  let newPortal :=
    {| portal_id := portal_spawn now r4;
       portal_type := type;
       portal_x := (-0.1)%Q;
       portal_y := y;
       portal_z := 0;
       portal_size := getPortalSize type;
       portal_speed := speed;
       portal_horizontalSpeed := (speed * (0.5 + r5 * 0.5))%Q;
       portal_color := getPortalColor type;
       portal_frequency :=
         (band_min band + r6 * (band_max band - band_min band))%Q;
       portal_frequencyRange := band_range band;
       portal_spawnTime := now;
       portal_targetTime := now + 2000;
       portal_position := approach;
       portal_isTraveling := false;
       portal_travelProgress := None;
       portal_isMoving := true;
       portal_travelLane := lane;
       portal_beatMatch := false;
       portal_hitQuality := None |} in
  (* a fresh object, and [this.portals.push(newPortal)] *)
  let r := length (portalHeap e) in
  set_portals (portals e ++ [r]) (set_portalHeap (portalHeap e ++ [newPortal]) e).

Definition spawnPortals (deltaTime : Q) (now : Z) (e : Engine) : Engine :=
  match getCurrentLevel e with
  | None => e
  | Some currentLevel =>
      let e := set_portalSpawnTimer (portalSpawnTimer e + deltaTime)%Q e in
      let spawnInterval := (1 / spawnRate currentLevel)%Q in
      if Qle_bool spawnInterval (portalSpawnTimer e)
      then spawnRandomPortal now (set_portalSpawnTimer 0%Q e)
      else e
  end.

(** The callback of the [forEach] in [updateFroggerPortals], with the sum
    and the product read over the reals; [Binary64.movePortal] is the same
    callback in double arithmetic. *)
Definition movePortal (deltaTime : Q) (e : Engine) (r : nat) : Engine :=
  match getPortal r e with
  | None => e
  | Some portal =>
      if portal_isMoving portal then
        let x := (portal_x portal + portal_horizontalSpeed portal * deltaTime)%Q in
        let e := modifyPortal r (set_portal_x x) e in
        if Qltb 1.2 x then removePortalsWithId (portal_id portal) e
        else
          let position :=
            if Qltb 0.3 x && Qltb x 0.7 then active else approach in
          let e := modifyPortal r (set_portal_position position) e in
          modifyPortal r
            (set_portal_beatMatch (PortalPosition_beq position active)) e
      else e
  end.

Definition updateFroggerPortals (deltaTime : Q) (now : Z) (e : Engine)
  : Engine :=
  let e := fold_left (movePortal deltaTime) (portals e) e in
  spawnPortals deltaTime now e.

(** ** Beat scheduler *)

Definition playBeatSound (e : Engine) : Engine :=
  if negb (audioEnabled e) then e
  else if Z.rem (currentBeat e) 4 =? 0
       then audio (playSound "bass_drum_thud.mp3" 0.8) e
  else if Z.rem (currentBeat e) 2 =? 0
       then audio (playSound "snare_drum_crack.mp3" 0.7) e
  else audio (playSound "hi_hat_tinkle.mp3" 0.5) e.

Definition spawnPortalOnBeat (now : Z) (e : Engine) : Engine :=
  let spawnChance :=
    if Z.rem (currentBeat e) 4 =? 0 then 0.8%Q
    else if Z.rem (currentBeat e) 2 =? 0 then 0.6%Q else 0.3%Q in
  let (r, e) := Math_random e in
  if Qltb r spawnChance then spawnRandomPortal now e else e.

Definition createBeatPulseEffect (now : Z) (e : Engine) : Engine :=
  let beatType :=
    if Z.rem (currentBeat e) 4 =? 0 then bass
    else if Z.rem (currentBeat e) 2 =? 0 then snare else hihat in
  pushEffect
    {| fx_id := beat_ now; fx_type := beat_pulse;
       fx_position := (0.5, 0.5, 0)%Q; fx_startTime := now;
       fx_duration := 300; fx_data := data_beat beatType |} e.

Definition updateBeatSystem (now : Z) (e : Engine) : Engine :=
  if Qle_bool (beatInterval e) (beatTimer e) then
    let e := set_beatTimer 0%Q e in
    let e := set_currentBeat (currentBeat e + 1) e in
    let e := playBeatSound e in
    let e := spawnPortalOnBeat now e in
    createBeatPulseEffect now e
  else e.

(** ** The tick *)

Definition updateLevelProgress (now : Z) (e : Engine) : Engine :=
  match getCurrentLevel e with
  | None => e
  | Some currentLevel =>
      if negb (Status_beq (status (gameState e)) playing) then e else
      let elapsedTime := (inject_Z (now - levelStartTime e) / 1000)%Q in
      let timeProgress :=
        (elapsedTime / inject_Z (timeLimit currentLevel) * 100)%Q in
      let hitProgress :=
        (inject_Z (portalsHit (gameState e))
         / inject_Z (requiredHits currentLevel) * 100)%Q in
      let combinedProgress := Qmax hitProgress (timeProgress * 0.7) in
      updateGameState [levelProgress_ (Qmin combinedProgress 100)] e
  end.

Definition update (deltaTime : Q) (now : Z) (e : Engine) : Engine :=
  let e := set_gameTime (gameTime e + deltaTime)%Q e in
  let e := set_beatTimer (beatTimer e + deltaTime * 1000)%Q e in
  let e := updateBeatSystem now e in
  let e := updateFroggerPortals deltaTime now e in
  let e := updateWhips deltaTime e in
  let e := updateVisualEffects now e in
  let e := checkCollisions now e in
  let e := updateLevelProgress now e in
  updateGameState [currentSongProgress_ (gameTime e / 60 * 100)%Q] e.

(** One animation frame, with [now] the reading of [Date.now()]. *)
Definition gameLoop (now : Z) (e : Engine) : Engine :=
  let currentTime := now in
  let deltaTime := (inject_Z (currentTime - lastTime e) / 1000)%Q in
  let e := set_lastTime currentTime e in
  if Status_beq (status (gameState e)) playing
  then update deltaTime now e
  else e.

(** ** Commands *)

Definition createWavePattern (cursorSpeed : Q) (cursorVelocity : Point)
    (e : Engine) : WavePattern * Engine :=
  let speedFactor := Qmin (cursorSpeed / 1000) 2 in
  let (r, e) := Math_random e in
  ({| amplitude := 20 + speedFactor * 30;
      frequency := 2 + speedFactor * 3;
      phase := r * Math_PI * 2;
      decay := 0.8;
      waveType := if Qltb 1 speedFactor then sawtooth else sine |}, e).

Definition createTouchVisualFeedback (now : Z) (position : Point)
    (isTouchInput : bool) (e : Engine) : Engine :=
  if isTouchInput then
    pushEffect
      {| fx_id := touch_feedback_ now; fx_type := particle;
         fx_position :=
           (px position / canvasWidth e, py position / canvasHeight e, 0)%Q;
         fx_startTime := now; fx_duration := 300;
         fx_data := data_touch_pulse "#00FFFF" 8 |} e
  else e.

Definition fireWhip (input : InputReading) (now : Z) (targetPosition : Point)
    (e : Engine) : Engine :=
  if negb (Status_beq (status (gameState e)) playing) then e else
  let canvasCenter :=
    {| px := canvasWidth e / 2; py := canvasHeight e / 2 |} in
  let '(cursorSpeed, cursorVelocity, isTouchInput) :=
    if hasActiveTouch input
    then (currentTouchSpeed input, touchVelocity input, true)
    else (averageCursorSpeed input, cursorVelocity input, false) in
  let (wavePattern, e) := createWavePattern cursorSpeed cursorVelocity e in
  let (rx, e) := Math_random e in
  let (ry, e) := Math_random e in
  let trajectory :=
    {| start := canvasCenter;
       control :=
         {| px := (px canvasCenter + px targetPosition) / 2 + (rx - 0.5) * 200;
            py := (py canvasCenter + py targetPosition) / 2 + (ry - 0.5) * 200 |};
       end_ := targetPosition |} in
  let speedFactor := Qmin (cursorSpeed / 500) 2 in
  let whipVelocity := (0.5 + speedFactor * 0.5)%Q in
  let newWhip :=
    {| whip_id := now;
       whip_position := canvasCenter;
       whip_targetPosition := targetPosition;
       whip_trajectory := trajectory;
       whip_velocity := whipVelocity;
       whip_isActive := true;
       whip_isExtending := true;
       whip_extensionProgress := 0;
       whip_trailPoints := [];
       whip_cosmicEnergy := 1.0;
       whip_whipLength := 0;
       whip_whipAngle := 0;
       whip_createdTime := now;
       whip_hitDetection := true;
       whip_wavePattern := wavePattern;
       whip_cursorSpeed := cursorSpeed |} in
  let e := set_activeWhips (activeWhips e ++ [newWhip]) e in
  let whipSound :=
    if Qltb 1 speedFactor then "heavy_whip_crack.mp3"%string
    else "light_whip_crack.mp3"%string in
  let e := audio (playSound whipSound 0.7) e in
  let e := createTouchVisualFeedback now targetPosition isTouchInput e in
  pushEffect
    {| fx_id := whip_trail_ now; fx_type := wave_trail;
       fx_position :=
         (px targetPosition / canvasWidth e,
          py targetPosition / canvasHeight e, 0)%Q;
       fx_startTime := now; fx_duration := 1000;
       fx_data := data_wave wavePattern speedFactor isTouchInput |} e.

Definition startGame (now : Z) (e : Engine) : Engine :=
  let e := set_gameState (set_status playing (gameState e)) e in
  let e := set_gameStartTime now e in
  let e := set_levelStartTime now e in
  let e := set_gameTime 0%Q e in
  let e := set_currentBeat 0 e in
  let e := set_beatTimer 0%Q e in
  let e :=
    updateGameState
      [status_ playing; levelProgress_ 0%Q; portalsHit_ 0; portalsTotal_ 0;
       transitionActive_ false] e in
  let e := set_portals [] e in
  let e := set_activeWhips [] e in
  let e := set_visualEffects [] e in
  match getCurrentLevel e with
  | Some currentLevel => audio (playMusic (music currentLevel) 0.7) e
  | None => audio (playMusic "cosmic_theme_music.mp3" 0.7) e
  end.

Definition pauseGame (e : Engine) : Engine :=
  let e := set_gameState (set_status paused (gameState e)) e in
  let e := updateGameState [status_ paused] e in
  audio pauseAll e.

Definition resumeGame (e : Engine) : Engine :=
  let e := set_gameState (set_status playing (gameState e)) e in
  let e := updateGameState [status_ playing] e in
  audio resumeAll e.

Definition togglePause (e : Engine) : Engine :=
  match status (gameState e) with
  | playing => pauseGame e
  | paused => resumeGame e
  | _ => e
  end.

(** Every key of a game state, as the patch [updateGameState(this.gameState)]
    passes. *)
Definition allUpdates (g : GameState) : list Update :=
  [status_ (status g); score_ (score g); combo_ (combo g);
   health_ (health g); level_ (level g); currentSong_ (currentSong g);
   currentSongProgress_ (currentSongProgress g); maxCombo_ (maxCombo g);
   accuracy_ (accuracy g); gameMode_ (gameMode g);
   levelProgress_ (levelProgress g); portalsHit_ (portalsHit g);
   portalsTotal_ (portalsTotal g);
   currentDifficulty_ (currentDifficulty g);
   transitionActive_ (transitionActive g)].

Definition restartGame (e : Engine) : Engine :=
  let g := gameState e in
  let e :=
    set_gameState
      {| status := menu; score := 0; combo := 0; health := 100; level := 1;
         currentSong := currentSong g; currentSongProgress := 0;
         maxCombo := 0; accuracy := 100; gameMode := gameMode g;
         levelProgress := 0; portalsHit := 0; portalsTotal := 0;
         currentDifficulty := easy; transitionActive := false |} e in
  let e := set_currentLevelIndex 0%nat e in
  let e := updateCurrentLevel e in
  let e := set_portals [] e in
  let e := set_activeWhips [] e in
  let e := set_visualEffects [] e in
  let e := set_gameStartTime 0 e in
  let e := set_gameTime 0%Q e in
  let e := set_levelStartTime 0 e in
  let e := set_currentBeat 0 e in
  let e := set_beatTimer 0%Q e in
  let e := audio stopAll e in
  updateGameState (allUpdates (gameState e)) e.

(** The engine as its constructor leaves it, on a canvas of the given size. *)
Definition newEngine (width height : Q) (draws : list Q) : Engine :=
  {| canvasWidth := width; canvasHeight := height;
     gameState :=
       {| status := menu; score := 0; combo := 0; health := 100; level := 1;
          currentSong := "cosmic_journey"; currentSongProgress := 0;
          maxCombo := 0; accuracy := 100; gameMode := "practice";
          levelProgress := 0; portalsHit := 0; portalsTotal := 0;
          currentDifficulty := easy; transitionActive := false |};
     portalHeap := []; portals := []; activeWhips := [];
     visualEffects := []; currentLevelIndex := 0; levelStartTime := 0;
     currentDimension := "cosmic_void"; portalSpawnTimer := 0;
     beatTimer := 0; currentBeat := 0; beatInterval := 500;
     audioEnabled := true; lastTime := 0; gameTime := 0;
     gameStartTime := 0; audioLog := []; stateChanges := []; timers := [];
     randoms := draws |}.

(** ** More of the engine *)

Definition getPortalSpeed (type : PortalType) : Q :=
  match type with bass => 0.5 | snare => 0.8 | hihat => 1.2 end.

(** [spawnRandomPortal] reads the clock three times, for the id, for
    [spawnTime] and for [targetTime]; here with the three readings told
    apart.  [spawnRandomPortal now] is the case in which they agree. *)
Definition spawnRandomPortalAt (idTime spawnTime targetTime : Z) (e : Engine)
  : Engine :=
  let portalTypes := [bass; snare; hihat] in
  let (r1, e) := Math_random e in
  let type :=
    default hihat
      (portalTypes !! Z.to_nat (Qfloor (r1 * inject_Z (Z.of_nat (length portalTypes))))) in
  let (r2, e) := Math_random e in
  let lane := Qfloor (r2 * FROGGER_LANES) in
  let laneYPositions := [0.3; 0.5; 0.7]%Q in
  let (r3, e) := Math_random e in
  let y := (default 0 (laneYPositions !! Z.to_nat lane) + (r3 - 0.5) * 0.1)%Q in
  let speed :=
    match getCurrentLevel e with
    | Some currentLevel => portalSpeed currentLevel
    | None => 0.3%Q
    end in
  let (r4, e) := Math_random e in
  let (r5, e) := Math_random e in
  let (r6, e) := Math_random e in
  let band := FREQUENCY_MAPPING type in
  let newPortal :=
    {| portal_id := portal_spawn idTime r4;
       portal_type := type;
       portal_x := (-0.1)%Q;
       portal_y := y;
       portal_z := 0;
       portal_size := getPortalSize type;
       portal_speed := speed;
       portal_horizontalSpeed := (speed * (0.5 + r5 * 0.5))%Q;
       portal_color := getPortalColor type;
       portal_frequency :=
         (band_min band + r6 * (band_max band - band_min band))%Q;
       portal_frequencyRange := band_range band;
       portal_spawnTime := spawnTime;
       portal_targetTime := targetTime + 2000;
       portal_position := approach;
       portal_isTraveling := false;
       portal_travelProgress := None;
       portal_isMoving := true;
       portal_travelLane := lane;
       portal_beatMatch := false;
       portal_hitQuality := None |} in
  (* a fresh object, and [this.portals.push(newPortal)] *)
  let r := length (portalHeap e) in
  set_portals (portals e ++ [r]) (set_portalHeap (portalHeap e ++ [newPortal]) e).

(** ** The tick in double arithmetic

    [updateFroggerPortals] and [updateWhips] with their sums, products and
    comparisons on doubles.  A portal's [x] and a whip's progress are sums
    that build up over the frames, and a rounding in them decides the frame
    in which a portal turns active or a whip leaves play. *)

Module Binary64.

(** What one tick does to a portal object. *)
Definition stepPortal (deltaTime : Q) (portal : Portal) : Portal :=
  if portal_isMoving portal then
    let x :=
      Double.add (portal_x portal)
        (Double.mul (portal_horizontalSpeed portal) deltaTime) in
    if Qltb (Double.round 1.2) x then set_portal_x x portal
    else
      let position :=
        if Qltb (Double.round 0.3) x && Qltb x (Double.round 0.7)
        then active else approach in
      set_portal_beatMatch (PortalPosition_beq position active)
        (set_portal_position position (set_portal_x x portal))
  else portal.

(** The callback of the [forEach] in [updateFroggerPortals]. *)
Definition movePortal (deltaTime : Q) (e : Engine) (r : nat) : Engine :=
  match getPortal r e with
  | None => e
  | Some portal =>
      if portal_isMoving portal then
        let x :=
          Double.add (portal_x portal)
            (Double.mul (portal_horizontalSpeed portal) deltaTime) in
        let e := modifyPortal r (set_portal_x x) e in
        if Qltb (Double.round 1.2) x
        then removePortalsWithId (portal_id portal) e
        else
          let position :=
            if Qltb (Double.round 0.3) x && Qltb x (Double.round 0.7)
            then active else approach in
          let e := modifyPortal r (set_portal_position position) e in
          modifyPortal r
            (set_portal_beatMatch (PortalPosition_beq position active)) e
      else e
  end.

Definition updateFroggerPortals (deltaTime : Q) (now : Z) (e : Engine)
  : Engine :=
  let e := fold_left (movePortal deltaTime) (portals e) e in
  spawnPortals deltaTime now e.

(** The callback of the [filter] in [updateWhips]: the whip after the
    callback's mutations, and the callback's verdict. *)
Definition updateWhip (deltaTime : Q) (whip : Whip) : Whip * bool :=
  let whip :=
    set_whip_extensionProgress
      (Double.add (whip_extensionProgress whip) (Double.mul deltaTime 2))
      whip in
  if Qle_bool 1 (whip_extensionProgress whip) then
    (set_whip_isActive false (set_whip_extensionProgress 1%Q whip), false)
  else
    let faded :=
      map (fun point =>
             {| trail_x := trail_x point; trail_y := trail_y point;
                trail_alpha :=
                  Double.sub (trail_alpha point) (Double.mul deltaTime 2) |})
          (whip_trailPoints whip) in
    (set_whip_trailPoints
       (List.filter (fun point => Qltb 0 (trail_alpha point)) faded) whip,
     true).

Definition updateWhips (deltaTime : Q) (e : Engine) : Engine :=
  set_activeWhips
    (map fst (List.filter snd (map (updateWhip deltaTime) (activeWhips e))))
    e.

Definition update (deltaTime : Q) (now : Z) (e : Engine) : Engine :=
  let e := set_gameTime (gameTime e + deltaTime)%Q e in
  let e := set_beatTimer (beatTimer e + deltaTime * 1000)%Q e in
  let e := updateBeatSystem now e in
  let e := updateFroggerPortals deltaTime now e in
  let e := updateWhips deltaTime e in
  let e := updateVisualEffects now e in
  let e := checkCollisions now e in
  let e := updateLevelProgress now e in
  updateGameState [currentSongProgress_ (gameTime e / 60 * 100)%Q] e.

(** One animation frame, with [now] the reading of [Date.now()]. *)
Definition gameLoop (now : Z) (e : Engine) : Engine :=
  let currentTime := now in
  let deltaTime := (inject_Z (currentTime - lastTime e) / 1000)%Q in
  let e := set_lastTime currentTime e in
  if Status_beq (status (gameState e)) playing
  then update deltaTime now e
  else e.

(** A run of ticks, each with its [deltaTime] and its clock reading. *)
Definition advance (ticks : list (Q * Z)) (e : Engine) : Engine :=
  fold_left (fun e tick => update (fst tick) (snd tick) e) ticks e.

End Binary64.

(** ** PhysicsEngine *)

Module PhysicsEngine.

(** [MOVEMENT_BASED_PHYSICS] *)
Definition baseEnergy : Q := 1.0.
Definition baseReach : Q := 0.5.
Definition baseCurve : Q := 0.6.

Definition getWhipCurrentPosition (whip : Whip) : Point :=
  let t := whip_extensionProgress whip in
  let tr := whip_trajectory whip in
  {| px := bezier t (px (start tr)) (px (control tr)) (px (end_ tr));
     py := bezier t (py (start tr)) (py (control tr)) (py (end_ tr)) |}.

Record Collision : Type := {
  collision : bool;
  energy : Q;
  trajectory : Point
}.

(** [distance <= radius] with [distance] a square root: over exact numbers
    this is [0 <= radius] and [distance^2 <= radius^2]. *)
Definition calculateWormholeCollision (portal : Portal) (whip : Whip)
  : Collision :=
  let currentPos := getWhipCurrentPosition whip in
  let portalPos := {| px := portal_x portal; py := portal_y portal |} in
  let distance2 :=
    (sq (px portalPos - px currentPos) + sq (py portalPos - py currentPos))%Q in
  let collisionRadius := (portal_size portal * 50)%Q in
  let whipReach := (whip_whipLength whip * 50)%Q in
  if Qle_bool 0 (collisionRadius + whipReach)
     && Qle_bool distance2 (sq (collisionRadius + whipReach))
  then
    let speedFactor := Qmin (whip_velocity whip / 1.0) 2 in
    let extensionBonus := (whip_extensionProgress whip * 0.5)%Q in
    let totalEnergy := (baseEnergy * speedFactor + extensionBonus)%Q in
    {| collision := true; energy := totalEnergy; trajectory := currentPos |}
  else
    {| collision := false; energy := 0;
       trajectory := {| px := 0; py := 0 |} |}.

Record TrajectoryPoint : Type := {
  point_x : Q;
  point_y : Q;
  point_t : Q;
  point_energy : Q
}.

(** The body of the loop of [simulateWormholeTrajectory] at index [i]. *)
Definition trajectoryPoint (whip : Whip) (steps i : nat) : TrajectoryPoint :=
  let speedFactor := Qmin (whip_velocity whip / 1.0) 2 in
  let energy := (baseEnergy * speedFactor)%Q in
  let t := (inject_Z (Z.of_nat i) / inject_Z (Z.of_nat steps))%Q in
  let tr := whip_trajectory whip in
  {| point_x := bezier t (px (start tr)) (px (control tr)) (px (end_ tr));
     point_y := bezier t (py (start tr)) (py (control tr)) (py (end_ tr));
     point_t := t;
     point_energy := (energy * (1 - t) * 0.8)%Q |}.

(** [steps] is a count: the loop runs over the integers below it. *)
Definition simulateWormholeTrajectory (whip : Whip) (steps : nat)
  : list TrajectoryPoint :=
  map (trajectoryPoint whip steps) (seq 0 steps).

Record MovementPhysics : Type := {
  move_speed : Q;
  move_reach : Q;
  move_energy : Q;
  move_curve : Q
}.

Definition getMovementBasedPhysics (velocity : Q) : MovementPhysics :=
  let speedFactor := Qmin (velocity / 1.0) 2 in
  {| move_speed := velocity;
     move_reach := baseReach * speedFactor;
     move_energy := baseEnergy * speedFactor;
     move_curve := baseCurve * speedFactor |}.

Record TimingAccuracy : Type := {
  accuracy : Z;
  quality : Quality;
  tolerance : Z
}.

(** Times are clock readings in whole milliseconds. *)
Definition calculateTimingAccuracy (expectedTime actualTime : Z)
  : TimingAccuracy :=
  let timeDiff := Z.abs (actualTime - expectedTime) in
  if timeDiff <=? 15 then
    {| accuracy := 100; quality := perfect; tolerance := 15 |}
  else if timeDiff <=? 30 then
    {| accuracy := 90; quality := great; tolerance := 30 |}
  else if timeDiff <=? 50 then
    {| accuracy := 80; quality := good; tolerance := 50 |}
  else if timeDiff <=? 100 then
    {| accuracy := 60; quality := hit; tolerance := 100 |}
  else
    {| accuracy := 0; quality := miss; tolerance := 100 |}.

End PhysicsEngine.

(** The order of the quality tiers, from [miss] to [perfect]. *)
Definition qualityRank (q : Quality) : Z :=
  match q with
  | miss => 0 | hit => 1 | good => 2 | great => 3 | perfect => 4
  end.

(** ** Sessions of play

    Runs of the engine through its entry points only ([gameLoop] per frame,
    [fireWhip] on a click, [startGame], [restartGame], due timers), on an
    800 x 600 canvas.  The game starts at clock 1000 and a first frame two
    seconds later spawns a portal from the spawn timer.  From then on a
    round is a frame 1750 ms later, a click at the canvas centre, and a
    frame 250 ms after that: the portal spawned two seconds before sits in
    front of the whip exactly at its target time, and the next one spawns. *)

Definition mouse : InputReading :=
  {| hasActiveTouch := false; currentTouchSpeed := 0;
     touchVelocity := {| px := 0; py := 0 |};
     averageCursorSpeed := 0;
     cursorVelocity := {| px := 0; py := 0 |} |}.

Definition centre : Point := {| px := 400; py := 300 |}.

(** The draws of a spawn: a bass portal in the middle lane, without jitter,
    with the given id draw and speed draw. *)
Definition spawnDraws (idDraw speedDraw : Q) : list Q :=
  [0; 0.5; 0.5; idDraw; speedDraw; 0]%Q.

(** The draws of a click that fires a straight whip. *)
Definition clickDraws : list Q := [0; 0.5; 0.5]%Q.

(** The draws of a round: no spawn on the beat, the click, the spawn at the
    end of the round, and the id of the hit effect. *)
Definition roundDraws (idDraw : Q) : list Q :=
  (0.9 :: clickDraws ++ spawnDraws idDraw 0.875 ++ [0.5])%Q.

Definition opening (draws : list Q) : Engine :=
  gameLoop 3000 (startGame 1000 (gameLoop 1000 (newEngine 800 600 draws))).

(** The first part of a round that ends at clock [t]: the long frame and the
    click. *)
Definition aim (t : Z) (e : Engine) : Engine :=
  fireWhip mouse (t - 250) centre (gameLoop (t - 250) e).

(** A whole round ending at clock [t]. *)
Definition playRound (t : Z) (e : Engine) : Engine :=
  gameLoop t (aim t e).

(** A round played late: the long frame falls on the portal's target time
    [t], the click follows at once, and the whip meets the portal [delay]
    milliseconds later. *)
Definition aimLate (t : Z) (e : Engine) : Engine :=
  fireWhip mouse t centre (gameLoop t e).

Definition playLate (t delay : Z) (e : Engine) : Engine :=
  gameLoop (t + delay) (aimLate t e).

Definition sessionDraws : list Q :=
  (0.9 :: spawnDraws 0 0.875)%Q
  ++ flat_map (fun k => roundDraws (inject_Z (Z.of_nat k) / 16)%Q) (seq 1 10).

(** The session after [n] rounds. *)
Fixpoint session (n : nat) : Engine :=
  match n with
  | O => opening sessionDraws
  | S k => playRound (3000 + 2000 * Z.of_nat n) (session k)
  end.

(** One round on time, then the next portal met [delay] ms late. *)
Definition lateDraws : list Q :=
  (0.9 :: spawnDraws 0 0.875)%Q ++ roundDraws 0.25
  ++ (0.9 :: spawnDraws 0.5 0.875 ++ clickDraws ++ [0.5])%Q.

Definition lateSession (delay : Z) : Engine :=
  playLate 7000 delay (playRound 5000 (opening lateDraws)).

(** Two portals born in the same frame, one from the beat and one from the
    spawn timer, both in front of the whip two seconds later. *)
Definition twinDraws : list Q :=
  ([0.9; 0] ++ spawnDraws 0.25 0.6 ++ spawnDraws 0.75 0.875
   ++ 0.9 :: clickDraws ++ spawnDraws 0.5 0 ++ [0.5; 0.5])%Q.

Definition twinAim : Engine :=
  aim 5000
    (gameLoop 3000
       (gameLoop 2500
          (startGame 1000 (gameLoop 1000 (newEngine 800 600 twinDraws))))).

Definition twinSession : Engine := gameLoop 5000 twinAim.

(** The player restarts during the level-complete pause of [session 10],
    and the pending timer comes due. *)
Definition restarted : Engine := restartGame (session 10).

Definition staleSession : Engine := runTimers 26000 restarted.

(** ** Vocabulary of the properties *)

(** What a call of [handlePortalHit] that scores does to the portal object. *)
Definition markHit (quality : Quality) (p : Portal) : Portal :=
  set_portal_travelProgress (Some 0%Q)
    (set_portal_isTraveling true (set_portal_hitQuality (Some quality) p)).

(** What one tick does to a portal object. *)
Definition stepPortal (deltaTime : Q) (portal : Portal) : Portal :=
  if portal_isMoving portal then
    let x := (portal_x portal + portal_horizontalSpeed portal * deltaTime)%Q in
    if Qltb 1.2 x then set_portal_x x portal
    else
      let position := if Qltb 0.3 x && Qltb x 0.7 then active else approach in
      set_portal_beatMatch (PortalPosition_beq position active)
        (set_portal_position position (set_portal_x x portal))
  else portal.

(** [grows e e']: from [e] to [e'] the store has not shrunk, and every
    portal in play in [e'] was in play in [e] or is a new object. *)
Definition grows (e e' : Engine) : Prop :=
  (length (portalHeap e) <= length (portalHeap e'))%nat
  /\ forall r, In r (portals e') ->
               In r (portals e) \/ (length (portalHeap e) <= r)%nat.

(** A run of ticks, each with its [deltaTime] and its clock reading. *)
Definition advance (ticks : list (Q * Z)) (e : Engine) : Engine :=
  fold_left (fun e tick => update (fst tick) (snd tick) e) ticks e.

(** The part of the engine that no tick touches. *)
Definition steady (e : Engine) :=
  (health (gameState e), level (gameState e), accuracy (gameState e),
   currentLevelIndex e, levelStartTime e, lastTime e, gameStartTime e,
   audioEnabled e, beatInterval e, canvasWidth e, canvasHeight e).

(** The clocks that only the head of a tick and the beat scheduler set. *)
Definition clocks (e : Engine) := (gameTime e, currentBeat e, beatTimer e).

(** What the tick leaves alone once the beat scheduler has run. *)
Definition settled (e : Engine) := (steady e, clocks e).

(** [advances e e']: from [e] to [e'] hits have only been added, each to
    both counters, and with a combo that is not negative neither the combo
    nor the score has gone down. *)
Definition advances (e e' : Engine) : Prop :=
  portalsTotal (gameState e') - portalsHit (gameState e') =
    portalsTotal (gameState e) - portalsHit (gameState e)
  /\ portalsHit (gameState e) <= portalsHit (gameState e')
  /\ (0 <= combo (gameState e) ->
      combo (gameState e) <= combo (gameState e')
      /\ score (gameState e) <= score (gameState e')).

(** [thins e e']: from [e] to [e'] no portal object has been created and
    the portals in play have not become more. *)
Definition thins (e e' : Engine) : Prop :=
  length (portalHeap e') = length (portalHeap e)
  /\ (length (portals e') <= length (portals e))%nat.

(** A portal as [createPortalsFromPatterns] builds them: a snare portal of
    the chart, standing at its frequency position, not moving. *)
Definition chartPortal : Portal :=
  {| portal_id := portal_index 4;
     portal_type := snare;
     portal_x := 0.5;
     portal_y := 0.5;
     portal_z := 0;
     portal_size := getPortalSize snare;
     portal_speed := getPortalSpeed snare;
     portal_horizontalSpeed := getPortalSpeed snare * 0.5;
     portal_color := getPortalColor snare;
     portal_frequency := 200;
     portal_frequencyRange := band_range (FREQUENCY_MAPPING snare);
     portal_spawnTime := 2000;
     portal_targetTime := 5000;
     portal_position := approach;
     portal_isTraveling := false;
     portal_travelProgress := Some 0%Q;
     portal_isMoving := false;
     portal_travelLane := 0;
     portal_beatMatch := false;
     portal_hitQuality := None |}.

(** The game just started, with that portal in play. *)
Definition chartEngine : Engine :=
  set_portals [0%nat]
    (set_portalHeap [chartPortal] (startGame 1000 (newEngine 800 600 []))).

(** A whip to the upper right of the canvas centre, as [fireWhip] builds
    it. *)
Definition restWhip : Whip :=
  {| whip_id := 3000;
     whip_position := centre;
     whip_targetPosition := {| px := 600; py := 100 |};
     whip_trajectory :=
       {| start := centre;
          control := {| px := 550; py := 150 |};
          end_ := {| px := 600; py := 100 |} |};
     whip_velocity := 0.5;
     whip_isActive := true;
     whip_isExtending := true;
     whip_extensionProgress := 0;
     whip_trailPoints := [];
     whip_cosmicEnergy := 1.0;
     whip_whipLength := 0;
     whip_whipAngle := 0;
     whip_createdTime := 3000;
     whip_hitDetection := true;
     whip_wavePattern :=
       {| amplitude := 20; frequency := 2; phase := 0; decay := 0.8;
          waveType := sine |};
     whip_cursorSpeed := 0 |}.

(** ** Frames in double arithmetic

    The game started at clock 1000, with every frame a [Binary64.gameLoop].
    The frame at 3000 spawns a portal from the spawn timer; at 4750 it has
    moved into the middle band. *)

Definition doubleOpening : Engine :=
  Binary64.gameLoop 3000
    (startGame 1000 (Binary64.gameLoop 1000 (newEngine 800 600 sessionDraws))).

Definition crossing : Engine := Binary64.gameLoop 4750 doubleOpening.

(** A click at 4750, and the [n] frames that follow it, 50 ms apart. *)
Definition fired : Engine := fireWhip mouse 4750 centre crossing.

Definition whipFrames (n : nat) : Engine :=
  fold_left (fun e now => Binary64.gameLoop now e)
    (map (fun k => 4750 + 50 * Z.of_nat k) (seq 1 n)) fired.

(** * Properties *)

(** ** Rounding to a double

    [Double.round] is monotone and keeps the sign; this is all that the
    properties of the score need. *)

Lemma nearest_floor (q : Q) :
  Qfloor q <= Double.nearest q <= Qfloor q + 1.
Proof.
  unfold Double.nearest.
  destruct (q - inject_Z (Qfloor q) ?= 1 # 2)%Q; [|lia|lia].
  destruct (Z.even (Qfloor q)); lia.
Qed.

Lemma nearest_Z (z : Z) : Double.nearest (inject_Z z) = z.
Proof.
  unfold Double.nearest. rewrite Qfloor_Z.
  destruct (Qcompare_spec (inject_Z z - inject_Z z) (1 # 2));
    [exfalso; lra | reflexivity | exfalso; lra].
Qed.

Lemma nearest_le (a b : Q) :
  (a <= b)%Q -> Double.nearest a <= Double.nearest b.
Proof.
  intros H. pose proof (Qfloor_resp_le _ _ H) as Hf.
  destruct (Z.eq_dec (Qfloor a) (Qfloor b)) as [E|E].
  - unfold Double.nearest. rewrite E.
    destruct (Qcompare_spec (a - inject_Z (Qfloor b)) (1 # 2));
      destruct (Qcompare_spec (b - inject_Z (Qfloor b)) (1 # 2));
      try lia; try (exfalso; lra);
      destruct (Z.even (Qfloor b)); lia.
  - pose proof (nearest_floor a). pose proof (nearest_floor b). lia.
Qed.

Lemma two_pow_pos (z : Z) : (0 < 2 ^ z)%Q.
Proof. apply Qpower_0_lt. reflexivity. Qed.

Lemma two_pow_plus (x y : Z) : (2 ^ (x + y) == 2 ^ x * 2 ^ y)%Q.
Proof. apply Qpower_plus. discriminate. Qed.

Lemma two_pow_succ (x : Z) : (2 ^ (x + 1) == 2 * 2 ^ x)%Q.
Proof. rewrite two_pow_plus. change (2 ^ 1)%Q with 2%Q. ring. Qed.

Lemma two_pow_le (x y : Z) : x <= y -> (2 ^ x <= 2 ^ y)%Q.
Proof. intros H. apply Qpower_le_compat_l; [exact H | discriminate]. Qed.

Lemma two_pow_Z (x : Z) : 0 <= x -> (inject_Z (2 ^ x) == 2 ^ x)%Q.
Proof. intros H. rewrite Zpower_Qpower by exact H. reflexivity. Qed.

Lemma log2_spec (q : Q) :
  (0 < q)%Q ->
  (2 ^ Double.log2 q <= q)%Q /\ (q < 2 ^ (Double.log2 q + 1))%Q.
Proof.
  intros Hq. destruct q as [n d].
  assert (0 < n) as Hn by (unfold Qlt in Hq; simpl in Hq; lia).
  unfold Double.log2. cbn [Qnum Qden].
  set (a := Z.log2 n). set (b := Z.log2 (Z.pos d)).
  destruct (Z.log2_spec n Hn) as [Ha1 Ha2]. fold a in Ha1, Ha2.
  destruct (Z.log2_spec (Z.pos d) eq_refl) as [Hb1 Hb2]. fold b in Hb1, Hb2.
  assert (0 <= a) as Ha0 by apply Z.log2_nonneg.
  assert (0 <= b) as Hb0 by apply Z.log2_nonneg.
  rewrite Z.pow_succ_r in Ha2, Hb2 by assumption.
  rewrite Zle_Qle in Ha1, Hb1. rewrite Zlt_Qlt in Ha2, Hb2.
  rewrite inject_Z_mult in Ha2, Hb2.
  rewrite two_pow_Z in Ha1, Ha2, Hb1, Hb2 by assumption.
  set (A := (2 ^ a)%Q) in *. set (B := (2 ^ b)%Q) in *.
  assert (0 < A)%Q by apply two_pow_pos.
  assert (0 < B)%Q by apply two_pow_pos.
  set (N := inject_Z n) in *. set (D := inject_Z (Z.pos d)) in *.
  assert ((n # d) * D == N)%Q as Hq'.
  { subst N D. rewrite (Qmake_Qdiv n d). field. discriminate. }
  set (q := n # d) in *.
  assert (2 ^ (a - b) * B == A)%Q as Hl.
  { subst A B. rewrite <- two_pow_plus. replace (a - b + b) with a by lia.
    reflexivity. }
  set (L := (2 ^ (a - b))%Q) in *.
  assert (0 < L)%Q by apply two_pow_pos.
  assert (2 ^ (a - b + 1) == 2 * L)%Q as Hup by apply two_pow_succ.
  assert (2 * 2 ^ (a - b - 1) == L)%Q as Hdown.
  { rewrite <- two_pow_succ. replace (a - b - 1 + 1) with (a - b) by lia.
    reflexivity. }
  assert (2 ^ (a - b - 1 + 1) == L)%Q as Hsame
    by (replace (a - b - 1 + 1) with (a - b) by lia; reflexivity).
  assert (0 < 2 ^ (a - b - 1))%Q by apply two_pow_pos.
  set (L' := (2 ^ (a - b - 1))%Q) in *.
  change (inject_Z 2) with 2%Q in *.
  destruct (Qle_bool L q) eqn:E.
  - apply Qle_bool_iff in E. split; [exact E|].
    rewrite Hup. clearbody q D A B L N L'.
    assert (0 < D)%Q as HD by lra.
    assert (L * B <= L * D)%Q by (apply Qmult_le_l; lra).
    destruct (Qlt_le_dec q (2 * L)) as [|C]; [assumption|exfalso].
    assert (2 * L * D <= q * D)%Q by (apply Qmult_le_compat_r; lra).
    lra.
  - assert (q < L)%Q as E'
      by (apply Qnot_le_lt; intros C; apply Qle_bool_iff in C; congruence).
    clear E. rename E' into E.
    rewrite Hsame. split; [fold L'|exact E]. clearbody q D A B L N L'.
    assert (0 < D)%Q as HD by lra.
    destruct (Qlt_le_dec q L') as [C|]; [exfalso|assumption].
    assert (q * D <= L' * D)%Q by (apply Qmult_le_compat_r; lra).
    assert (L' * D < L' * (2 * B))%Q
      by (apply Qmult_lt_l; [assumption | lra]).
    assert (L' * (2 * B) == L * B)%Q by (rewrite <- Hdown; ring).
    lra.
Qed.

Lemma log2_le (a b : Q) :
  (0 < a)%Q -> (a <= b)%Q -> Double.log2 a <= Double.log2 b.
Proof.
  intros Ha Hab.
  destruct (log2_spec a Ha) as [Ha1 _].
  destruct (log2_spec b) as [_ Hb2]; [lra|].
  destruct (Z_le_gt_dec (Double.log2 a) (Double.log2 b)) as [|C];
    [assumption|exfalso].
  assert (2 ^ (Double.log2 b + 1) <= 2 ^ Double.log2 a)%Q
    by (apply two_pow_le; lia).
  lra.
Qed.

Lemma ulp_pos (q : Q) : (0 < Double.ulp q)%Q.
Proof. apply two_pow_pos. Qed.

Lemma round_pos_eq (q : Q) :
  (Double.round_pos q == inject_Z (Double.nearest (q / Double.ulp q)) * Double.ulp q)%Q.
Proof. apply Qred_correct. Qed.

Lemma round_pos_nonneg (q : Q) : (0 < q)%Q -> (0 <= Double.round_pos q)%Q.
Proof.
  intros Hq. rewrite round_pos_eq. pose proof (ulp_pos q) as Hu.
  apply Qmult_le_0_compat; [|lra].
  change 0%Q with (inject_Z 0). rewrite <- Zle_Qle.
  transitivity (Double.nearest (inject_Z 0));
    [rewrite nearest_Z; lia|].
  apply nearest_le. apply Qle_shift_div_l; [exact Hu|].
  change (inject_Z 0) with 0%Q. rewrite Qmult_0_l. lra.
Qed.

Lemma round_pos_le (a b : Q) :
  (0 < a)%Q -> (a <= b)%Q -> (Double.round_pos a <= Double.round_pos b)%Q.
Proof.
  intros Ha Hab. assert (0 < b)%Q as Hb by lra.
  rewrite !round_pos_eq. unfold Double.ulp.
  pose proof (log2_le a b Ha Hab) as Hl.
  set (ea := Z.max (Double.log2 a - 52) Double.emin).
  set (eb := Z.max (Double.log2 b - 52) Double.emin).
  pose proof (two_pow_pos ea) as Hua. pose proof (two_pow_pos eb) as Hub.
  destruct (Z.eq_dec ea eb) as [E|E].
  - rewrite E. apply Qmult_le_compat_r; [|lra].
    rewrite <- Zle_Qle. apply nearest_le.
    apply Qmult_le_compat_r; [exact Hab|].
    apply Qlt_le_weak, Qinv_lt_0_compat. exact Hub.
  - assert (ea + 1 <= eb) as Hlt by lia.
    assert (eb = Double.log2 b - 52) as Eb by lia.
    destruct (log2_spec a Ha) as [_ Ha2].
    destruct (log2_spec b Hb) as [Hb1 _].
    assert (inject_Z (Double.nearest (a / 2 ^ ea)) * 2 ^ ea <= 2 ^ (ea + 53))%Q
      as Hlow.
    { rewrite two_pow_plus, (Qmult_comm (2 ^ ea)).
      apply Qmult_le_compat_r; [|lra].
      rewrite <- (two_pow_Z 53) by lia. rewrite <- Zle_Qle.
      rewrite <- (nearest_Z (2 ^ 53)). apply nearest_le.
      rewrite two_pow_Z by lia.
      apply Qle_shift_div_r; [exact Hua|]. rewrite <- two_pow_plus.
      apply Qlt_le_weak. eapply Qlt_le_trans; [exact Ha2|].
      apply two_pow_le. lia. }
    assert (2 ^ (eb + 52) <= inject_Z (Double.nearest (b / 2 ^ eb)) * 2 ^ eb)%Q
      as Hhigh.
    { rewrite two_pow_plus, (Qmult_comm (2 ^ eb)).
      apply Qmult_le_compat_r; [|lra].
      rewrite <- (two_pow_Z 52) by lia. rewrite <- Zle_Qle.
      rewrite <- (nearest_Z (2 ^ 52)) at 1. apply nearest_le.
      rewrite two_pow_Z by lia.
      apply Qle_shift_div_l; [exact Hub|]. rewrite <- two_pow_plus.
      eapply Qle_trans; [|exact Hb1].
      apply two_pow_le. lia. }
    assert (2 ^ (ea + 53) <= 2 ^ (eb + 52))%Q by (apply two_pow_le; lia).
    lra.
Qed.

Lemma Qnum_pos (q : Q) p : Qnum q = Z.pos p -> (0 < q)%Q.
Proof. intros H. unfold Qlt. simpl. lia. Qed.

Lemma Qnum_neg (q : Q) p : Qnum q = Z.neg p -> (q < 0)%Q.
Proof. intros H. unfold Qlt. simpl. lia. Qed.

Lemma Qnum_zero (q : Q) : Qnum q = 0 -> (q == 0)%Q.
Proof. intros H. unfold Qeq. simpl. lia. Qed.

Lemma round_le (a b : Q) :
  (a <= b)%Q -> (Double.round a <= Double.round b)%Q.
Proof.
  intros H. unfold Double.round.
  destruct (Qnum a) eqn:Ea; destruct (Qnum b) eqn:Eb;
    try (apply Qnum_zero in Ea); try (apply Qnum_zero in Eb);
    try (apply Qnum_pos in Ea); try (apply Qnum_pos in Eb);
    try (apply Qnum_neg in Ea); try (apply Qnum_neg in Eb);
    try lra.
  - apply round_pos_nonneg. exact Eb.
  - apply round_pos_le; assumption.
  - pose proof (round_pos_nonneg (- a)). lra.
  - pose proof (round_pos_nonneg (- a)). pose proof (round_pos_nonneg b). lra.
  - pose proof (round_pos_le (- b) (- a)). lra.
Qed.

Lemma round_nonneg (q : Q) : (0 <= q)%Q -> (0 <= Double.round q)%Q.
Proof. intros H. apply (round_le 0 q). exact H. Qed.

Lemma round_comp (a b : Q) : (a == b)%Q -> (Double.round a == Double.round b)%Q.
Proof.
  intros H. apply Qle_antisym; apply round_le; rewrite H; apply Qle_refl.
Qed.

Lemma mul_nonneg (a b : Q) :
  (0 <= a)%Q -> (0 <= b)%Q -> (0 <= Double.mul a b)%Q.
Proof.
  intros Ha Hb. unfold Double.mul. apply round_nonneg.
  apply Qmult_le_0_compat; apply round_nonneg; assumption.
Qed.

Lemma mul_le (a b c : Q) :
  (0 <= c)%Q -> (a <= b)%Q -> (Double.mul a c <= Double.mul b c)%Q.
Proof.
  intros Hc H. unfold Double.mul. apply round_le.
  apply Qmult_le_compat_r; [apply round_le; exact H | apply round_nonneg; exact Hc].
Qed.

Lemma add_le (a b c : Q) :
  (a <= b)%Q -> (Double.add c a <= Double.add c b)%Q.
Proof.
  intros H. unfold Double.add. apply round_le.
  apply Qplus_le_r. apply round_le. exact H.
Qed.

(** ** Proof support *)

(** Reduction of field reads over field assignments, and nothing else. *)
Ltac fields :=
  cbn [
    px py portal_id portal_type portal_x portal_y portal_z portal_size
    portal_speed portal_horizontalSpeed portal_color portal_frequency
    portal_frequencyRange portal_spawnTime portal_targetTime portal_position
    portal_isTraveling portal_travelProgress portal_isMoving
    portal_travelLane portal_beatMatch portal_hitQuality trail_x trail_y
    trail_alpha amplitude frequency phase decay waveType start control end_
    whip_id whip_position whip_targetPosition whip_trajectory whip_velocity
    whip_isActive whip_isExtending whip_extensionProgress whip_trailPoints
    whip_cosmicEnergy whip_whipLength whip_whipAngle whip_createdTime
    whip_hitDetection whip_wavePattern whip_cursorSpeed fx_id fx_type
    fx_position fx_startTime fx_duration fx_data level_id level_name
    level_description level_difficulty requiredHits portalSpeed spawnRate
    background music timeLimit bonusScore status score combo health level
    currentSong currentSongProgress maxCombo accuracy gameMode levelProgress
    portalsHit portalsTotal currentDifficulty transitionActive
    hasActiveTouch currentTouchSpeed touchVelocity averageCursorSpeed
    cursorVelocity canvasWidth canvasHeight gameState portalHeap portals
    activeWhips visualEffects currentLevelIndex levelStartTime
    currentDimension portalSpawnTimer beatTimer currentBeat beatInterval
    audioEnabled lastTime gameTime gameStartTime audioLog stateChanges
    timers randoms band_min band_max band_range band_x set_status set_score
    set_combo set_health set_level set_currentSong set_currentSongProgress
    set_maxCombo set_accuracy set_gameMode set_levelProgress set_portalsHit
    set_portalsTotal set_currentDifficulty set_transitionActive set_portal_x
    set_portal_position set_portal_beatMatch set_portal_hitQuality
    set_portal_isTraveling set_portal_travelProgress
    set_whip_extensionProgress set_whip_isActive set_whip_trailPoints
    set_whip_hitDetection set_gameState set_portalHeap set_portals
    set_activeWhips set_visualEffects set_currentLevelIndex
    set_levelStartTime set_currentDimension set_portalSpawnTimer
    set_beatTimer set_currentBeat set_audioEnabled set_lastTime set_gameTime
    set_gameStartTime set_audioLog set_stateChanges set_timers set_randoms
    fold_left applyUpdate fst snd] in *.

(** Unfolding of the engine's small helpers. *)
Ltac helpers :=
  unfold updateGameState, setTimeout, pushEffect, audio, Math_random,
    modifyPortal, removePortalsWithId, getPortal, getCurrentLevel in *.

(** Case analysis on the conditions of the goal. *)
Ltac branches :=
  repeat match goal with
         | |- context [if ?c then _ else _] => destruct c; fields
         | |- context [match ?x with Some _ => _ | None => _ end] =>
             destruct x; fields
         end.

(** Splitting of a conjunction of facts about concrete runs. *)
Ltac conjuncts := repeat match goal with |- _ /\ _ => split end.

Lemma Qltb_lt (a b : Q) : Qltb a b = true <-> (a < b)%Q.
Proof.
  unfold Qltb. rewrite negb_true_iff. split; intros H.
  - apply Qnot_le_lt. intros Hle. apply Qle_bool_iff in Hle. congruence.
  - destruct (Qle_bool b a) eqn:E; [|reflexivity].
    apply Qle_bool_iff in E. exfalso. exact (Qlt_not_le _ _ H E).
Qed.

Lemma Qltb_ge (a b : Q) : Qltb a b = false <-> (b <= a)%Q.
Proof. unfold Qltb. rewrite negb_false_iff. apply Qle_bool_iff. Qed.

Lemma Qle_bool_gt (a b : Q) : Qle_bool a b = false <-> (b < a)%Q.
Proof.
  rewrite <- Qltb_lt. unfold Qltb. rewrite negb_true_iff. reflexivity.
Qed.

(** ** Frame equations

    What the engine's small helpers leave alone.  They are stated once and
    used by rewriting. *)

Lemma gameState_audio c e :
  gameState (audio c e) = gameState e.
Proof. destruct e; reflexivity. Qed.

Lemma portalHeap_audio c e :
  portalHeap (audio c e) = portalHeap e.
Proof. destruct e; reflexivity. Qed.

Lemma portals_audio c e :
  portals (audio c e) = portals e.
Proof. destruct e; reflexivity. Qed.

Lemma activeWhips_audio c e :
  activeWhips (audio c e) = activeWhips e.
Proof. destruct e; reflexivity. Qed.

Lemma gameState_pushEffect fx e :
  gameState (pushEffect fx e) = gameState e.
Proof. destruct e; reflexivity. Qed.

Lemma portalHeap_pushEffect fx e :
  portalHeap (pushEffect fx e) = portalHeap e.
Proof. destruct e; reflexivity. Qed.

Lemma portals_pushEffect fx e :
  portals (pushEffect fx e) = portals e.
Proof. destruct e; reflexivity. Qed.

Lemma activeWhips_pushEffect fx e :
  activeWhips (pushEffect fx e) = activeWhips e.
Proof. destruct e; reflexivity. Qed.

Lemma gameState_setTimeout cb delay now e :
  gameState (setTimeout cb delay now e) = gameState e.
Proof. destruct e; reflexivity. Qed.

Lemma portalHeap_setTimeout cb delay now e :
  portalHeap (setTimeout cb delay now e) = portalHeap e.
Proof. destruct e; reflexivity. Qed.

Lemma portals_setTimeout cb delay now e :
  portals (setTimeout cb delay now e) = portals e.
Proof. destruct e; reflexivity. Qed.

Lemma activeWhips_setTimeout cb delay now e :
  activeWhips (setTimeout cb delay now e) = activeWhips e.
Proof. destruct e; reflexivity. Qed.

Lemma gameState_updateGameState updates e :
  gameState (updateGameState updates e) = fold_left applyUpdate updates (gameState e).
Proof. destruct e; reflexivity. Qed.

Lemma portalHeap_updateGameState updates e :
  portalHeap (updateGameState updates e) = portalHeap e.
Proof. destruct e; reflexivity. Qed.

Lemma portals_updateGameState updates e :
  portals (updateGameState updates e) = portals e.
Proof. destruct e; reflexivity. Qed.

Lemma activeWhips_updateGameState updates e :
  activeWhips (updateGameState updates e) = activeWhips e.
Proof. destruct e; reflexivity. Qed.

Lemma gameState_modifyPortal r f e :
  gameState (modifyPortal r f e) = gameState e.
Proof. destruct e; reflexivity. Qed.

Lemma portalHeap_modifyPortal r f e :
  portalHeap (modifyPortal r f e) = alter f r (portalHeap e).
Proof. destruct e; reflexivity. Qed.

Lemma portals_modifyPortal r f e :
  portals (modifyPortal r f e) = portals e.
Proof. destruct e; reflexivity. Qed.

Lemma activeWhips_modifyPortal r f e :
  activeWhips (modifyPortal r f e) = activeWhips e.
Proof. destruct e; reflexivity. Qed.

Lemma gameState_removePortalsWithId id e :
  gameState (removePortalsWithId id e) = gameState e.
Proof. destruct e; reflexivity. Qed.

Lemma portalHeap_removePortalsWithId id e :
  portalHeap (removePortalsWithId id e) = portalHeap e.
Proof. destruct e; reflexivity. Qed.

Lemma activeWhips_removePortalsWithId id e :
  activeWhips (removePortalsWithId id e) = activeWhips e.
Proof. destruct e; reflexivity. Qed.

Lemma gameState_createHitEffect now p q e :
  gameState (createHitEffect now p q e) = gameState e.
Proof. destruct e; reflexivity. Qed.

Lemma portalHeap_createHitEffect now p q e :
  portalHeap (createHitEffect now p q e) = portalHeap e.
Proof. destruct e; reflexivity. Qed.

Lemma portals_createHitEffect now p q e :
  portals (createHitEffect now p q e) = portals e.
Proof. destruct e; reflexivity. Qed.

Lemma activeWhips_createHitEffect now p q e :
  activeWhips (createHitEffect now p q e) = activeWhips e.
Proof. destruct e; reflexivity. Qed.

Lemma gameState_createMissEffect now p e :
  gameState (createMissEffect now p e) = gameState e.
Proof. destruct e; reflexivity. Qed.

Lemma portalHeap_createMissEffect now p e :
  portalHeap (createMissEffect now p e) = portalHeap e.
Proof. destruct e; reflexivity. Qed.

Lemma portals_createMissEffect now p e :
  portals (createMissEffect now p e) = portals e.
Proof. destruct e; reflexivity. Qed.

Lemma activeWhips_createMissEffect now p e :
  activeWhips (createMissEffect now p e) = activeWhips e.
Proof. destruct e; reflexivity. Qed.

Lemma gameState_set_activeWhips v e :
  gameState (set_activeWhips v e) = gameState e.
Proof. destruct e; reflexivity. Qed.

Lemma portalHeap_set_activeWhips v e :
  portalHeap (set_activeWhips v e) = portalHeap e.
Proof. destruct e; reflexivity. Qed.

Lemma portals_set_activeWhips v e :
  portals (set_activeWhips v e) = portals e.
Proof. destruct e; reflexivity. Qed.

Lemma activeWhips_set_activeWhips v e :
  activeWhips (set_activeWhips v e) = v.
Proof. destruct e; reflexivity. Qed.

Lemma gameState_set_portals v e :
  gameState (set_portals v e) = gameState e.
Proof. destruct e; reflexivity. Qed.

Lemma portalHeap_set_portals v e :
  portalHeap (set_portals v e) = portalHeap e.
Proof. destruct e; reflexivity. Qed.

Lemma portals_set_portals v e :
  portals (set_portals v e) = v.
Proof. destruct e; reflexivity. Qed.

Lemma activeWhips_set_portals v e :
  activeWhips (set_portals v e) = activeWhips e.
Proof. destruct e; reflexivity. Qed.

Lemma gameState_set_portalHeap v e :
  gameState (set_portalHeap v e) = gameState e.
Proof. destruct e; reflexivity. Qed.

Lemma portalHeap_set_portalHeap v e :
  portalHeap (set_portalHeap v e) = v.
Proof. destruct e; reflexivity. Qed.

Lemma portals_set_portalHeap v e :
  portals (set_portalHeap v e) = portals e.
Proof. destruct e; reflexivity. Qed.

Lemma activeWhips_set_portalHeap v e :
  activeWhips (set_portalHeap v e) = activeWhips e.
Proof. destruct e; reflexivity. Qed.

Lemma gameState_set_gameState v e :
  gameState (set_gameState v e) = v.
Proof. destruct e; reflexivity. Qed.

Lemma portalHeap_set_gameState v e :
  portalHeap (set_gameState v e) = portalHeap e.
Proof. destruct e; reflexivity. Qed.

Lemma portals_set_gameState v e :
  portals (set_gameState v e) = portals e.
Proof. destruct e; reflexivity. Qed.

Lemma activeWhips_set_gameState v e :
  activeWhips (set_gameState v e) = activeWhips e.
Proof. destruct e; reflexivity. Qed.

(** ** Score, combo and health *)

Lemma comboMultiplier_mono (c1 c2 : Z) :
  c1 <= c2 -> (comboMultiplier c1 <= comboMultiplier c2)%Q.
Proof.
  intros H. unfold comboMultiplier. apply Q.min_le_compat_r.
  apply add_le, mul_le; [discriminate|]. rewrite <- Zle_Qle. exact H.
Qed.

Lemma comboMultiplier_cap (c : Z) : (comboMultiplier c <= 3)%Q.
Proof. apply Q.le_min_r. Qed.

Lemma comboMultiplier_saturated (c : Z) :
  100 <= c -> (comboMultiplier c == 3)%Q.
Proof.
  intros H. apply Qle_antisym; [apply comboMultiplier_cap|].
  eapply Qle_trans; [|apply (comboMultiplier_mono 100 c H)].
  vm_compute. discriminate.
Qed.

Lemma comboMultiplier_least (c : Z) : 0 <= c -> (1 <= comboMultiplier c)%Q.
Proof.
  intros H. eapply Qle_trans; [|apply (comboMultiplier_mono 0 c H)].
  vm_compute. discriminate.
Qed.

Lemma handleScore_score quality baseScore e :
  score (gameState (handleScore quality baseScore e)) =
  score (gameState e)
  + Qfloor (Double.mul (inject_Z baseScore)
              (comboMultiplier (combo (gameState e)))).
Proof. unfold handleScore, updateCombo. helpers. branches; reflexivity. Qed.

Lemma handleScore_combo quality baseScore e :
  combo (gameState (handleScore quality baseScore e)) =
  Z.max 0 (combo (gameState e) + 1).
Proof. unfold handleScore, updateCombo. helpers. branches; reflexivity. Qed.

Lemma handleScore_portalHeap quality baseScore e :
  portalHeap (handleScore quality baseScore e) = portalHeap e.
Proof. unfold handleScore, updateCombo. helpers. branches; reflexivity. Qed.

Lemma updateCombo_combo increment e :
  combo (gameState (updateCombo increment e)) =
  Z.max 0 (combo (gameState e) + increment).
Proof. reflexivity. Qed.

Lemma updateHealth_health change e :
  health (gameState (updateHealth change e)) =
  Z.max 0 (Z.min 100 (health (gameState e) + change)).
Proof. unfold updateHealth, endGame. helpers. branches; reflexivity. Qed.

Lemma updateHealth_status change e :
  status (gameState (updateHealth change e)) =
  if health (gameState e) + change <=? 0 then gameover
  else status (gameState e).
Proof.
  unfold updateHealth, endGame. helpers. fields.
  destruct (Z.leb_spec (Z.max 0 (Z.min 100 (health (gameState e) + change))) 0);
    destruct (Z.leb_spec (health (gameState e) + change) 0);
    fields; try reflexivity; lia.
Qed.

Lemma updateHealth_score change e :
  score (gameState (updateHealth change e)) = score (gameState e).
Proof. unfold updateHealth, endGame. helpers. branches; reflexivity. Qed.

Lemma updateHealth_combo change e :
  combo (gameState (updateHealth change e)) = combo (gameState e).
Proof. unfold updateHealth, endGame. helpers. branches; reflexivity. Qed.

(** ** Hit resolution *)

Ltac frame :=
  unfold checkLevelCompletion, triggerLevelTransition, triggerPortalTravel,
    createHitEffect, createMissEffect, handleScore, updateCombo;
  helpers; fields; branches; reflexivity.

Lemma checkLevelCompletion_score now e :
  score (gameState (checkLevelCompletion now e)) = score (gameState e).
Proof. frame. Qed.

Lemma checkLevelCompletion_combo now e :
  combo (gameState (checkLevelCompletion now e)) = combo (gameState e).
Proof. frame. Qed.

Lemma checkLevelCompletion_health now e :
  health (gameState (checkLevelCompletion now e)) = health (gameState e).
Proof. frame. Qed.

Lemma checkLevelCompletion_portalsHit now e :
  portalsHit (gameState (checkLevelCompletion now e)) =
  portalsHit (gameState e).
Proof. frame. Qed.

Lemma checkLevelCompletion_portalHeap now e :
  portalHeap (checkLevelCompletion now e) = portalHeap e.
Proof. frame. Qed.

Lemma checkLevelCompletion_portals now e :
  portals (checkLevelCompletion now e) = portals e.
Proof. frame. Qed.

Lemma checkLevelCompletion_activeWhips now e :
  activeWhips (checkLevelCompletion now e) = activeWhips e.
Proof. frame. Qed.

Lemma triggerPortalTravel_gameState now r e :
  gameState (triggerPortalTravel now r e) = gameState e.
Proof. frame. Qed.

Lemma triggerPortalTravel_portals now r e :
  portals (triggerPortalTravel now r e) = portals e.
Proof. frame. Qed.

Lemma triggerPortalTravel_activeWhips now r e :
  activeWhips (triggerPortalTravel now r e) = activeWhips e.
Proof. frame. Qed.

Lemma triggerPortalTravel_portalHeap now r e :
  portalHeap (triggerPortalTravel now r e) =
  alter (fun p => set_portal_travelProgress (Some 0%Q)
                    (set_portal_isTraveling true p)) r (portalHeap e).
Proof. frame. Qed.

Lemma PortalId_eqb_refl (i : PortalId) : PortalId_eqb i i = true.
Proof.
  destruct i; simpl.
  - apply Nat.eqb_refl.
  - rewrite Z.eqb_refl. simpl. apply Qeq_bool_iff. reflexivity.
Qed.

Lemma combo_set_portalsTotal v g : combo (set_portalsTotal v g) = combo g.
Proof. reflexivity. Qed.

Lemma combo_set_portalsHit v g : combo (set_portalsHit v g) = combo g.
Proof. reflexivity. Qed.

Lemma portalsHit_set_portalsTotal v g :
  portalsHit (set_portalsTotal v g) = portalsHit g.
Proof. reflexivity. Qed.

Lemma portalsHit_set_portalsHit v g : portalsHit (set_portalsHit v g) = v.
Proof. reflexivity. Qed.

Lemma handleScore_portalsHit quality baseScore e :
  portalsHit (gameState (handleScore quality baseScore e)) =
  portalsHit (gameState e).
Proof. frame. Qed.

Lemma handleScore_activeWhips quality baseScore e :
  activeWhips (handleScore quality baseScore e) = activeWhips e.
Proof. frame. Qed.

Lemma handleScore_portals quality baseScore e :
  portals (handleScore quality baseScore e) = portals e.
Proof. frame. Qed.

Lemma score_set_portalsTotal v g : score (set_portalsTotal v g) = score g.
Proof. reflexivity. Qed.

Lemma score_set_portalsHit v g : score (set_portalsHit v g) = score g.
Proof. reflexivity. Qed.

Section Hit.
Variables (now : Z) (r wi : nat) (e : Engine) (portal : Portal).
Variables (quality : Quality) (baseScore : Z).
Hypothesis Hportal : getPortal r e = Some portal.
Hypothesis Hjudge :
  judgeHit (portal_beatMatch portal)
    (Z.abs (now - portal_targetTime portal)) = (quality, baseScore).

Lemma handlePortalHit_miss :
  quality = miss -> handlePortalHit now r wi e = e.
Proof.
  intros ->. unfold handlePortalHit. rewrite Hportal, Hjudge. reflexivity.
Qed.

Hypothesis Hquality : quality <> miss.

(** The engine after a call that scores, step by step. *)
Lemma handlePortalHit_scores :
  handlePortalHit now r wi e =
  let e1 := modifyPortal r (set_portal_hitQuality (Some quality)) e in
  let e2 := handleScore quality baseScore e1 in
  let e3 := triggerPortalTravel now r e2 in
  let e4 := createHitEffect now portal quality e3 in
  let e5 :=
    audio (playSound (if Quality_beq quality perfect
                      then "perfect_hit_chime.mp3"
                      else "good_hit_buzz.mp3")%string 0.8) e4 in
  let e6 :=
    updateGameState
      [portalsHit_ (portalsHit (gameState e5) + 1);
       portalsTotal_ (portalsTotal (gameState e5) + 1)] e5 in
  let e7 := checkLevelCompletion now e6 in
  let e8 := removePortalsWithId (portal_id portal) e7 in
  set_activeWhips (alter (set_whip_hitDetection false) wi (activeWhips e8)) e8.
Proof.
  unfold handlePortalHit. rewrite Hportal, Hjudge.
  destruct quality; try reflexivity. congruence.
Qed.

Lemma handlePortalHit_score :
  score (gameState (handlePortalHit now r wi e)) =
  score (gameState e)
  + Qfloor (Double.mul (inject_Z baseScore)
              (comboMultiplier (combo (gameState e)))).
Proof.
  rewrite handlePortalHit_scores. cbv zeta.
  rewrite gameState_set_activeWhips, gameState_removePortalsWithId,
    checkLevelCompletion_score, gameState_updateGameState.
  cbn [fold_left applyUpdate]. rewrite score_set_portalsTotal, score_set_portalsHit.
  rewrite gameState_audio, gameState_createHitEffect,
    triggerPortalTravel_gameState, handleScore_score, gameState_modifyPortal.
  reflexivity.
Qed.

Lemma handlePortalHit_combo :
  combo (gameState (handlePortalHit now r wi e)) =
  Z.max 0 (combo (gameState e) + 1).
Proof.
  rewrite handlePortalHit_scores. cbv zeta.
  rewrite gameState_set_activeWhips, gameState_removePortalsWithId,
    checkLevelCompletion_combo, gameState_updateGameState.
  cbn [fold_left applyUpdate]. rewrite combo_set_portalsTotal, combo_set_portalsHit.
  rewrite gameState_audio, gameState_createHitEffect,
    triggerPortalTravel_gameState, handleScore_combo, gameState_modifyPortal.
  reflexivity.
Qed.

Lemma handlePortalHit_portalsHit :
  portalsHit (gameState (handlePortalHit now r wi e)) =
  portalsHit (gameState e) + 1.
Proof.
  rewrite handlePortalHit_scores. cbv zeta.
  rewrite gameState_set_activeWhips, gameState_removePortalsWithId,
    checkLevelCompletion_portalsHit, gameState_updateGameState.
  cbn [fold_left applyUpdate].
  rewrite portalsHit_set_portalsTotal, portalsHit_set_portalsHit.
  rewrite gameState_audio, gameState_createHitEffect,
    triggerPortalTravel_gameState, handleScore_portalsHit,
    gameState_modifyPortal.
  reflexivity.
Qed.

Lemma handlePortalHit_portalHeap :
  portalHeap (handlePortalHit now r wi e) =
  alter (markHit quality) r (portalHeap e).
Proof.
  rewrite handlePortalHit_scores. cbv zeta.
  rewrite portalHeap_set_activeWhips, portalHeap_removePortalsWithId,
    checkLevelCompletion_portalHeap, portalHeap_updateGameState,
    portalHeap_audio, portalHeap_createHitEffect,
    triggerPortalTravel_portalHeap, handleScore_portalHeap,
    portalHeap_modifyPortal.
  rewrite list_alter_alter_eq. reflexivity.
Qed.

Lemma handlePortalHit_hitQuality :
  (portal_hitQuality <$> getPortal r (handlePortalHit now r wi e)) =
  Some (Some quality).
Proof.
  unfold getPortal in *. rewrite handlePortalHit_portalHeap.
  rewrite list_lookup_alter_eq, Hportal. reflexivity.
Qed.

Lemma handlePortalHit_activeWhips :
  activeWhips (handlePortalHit now r wi e) =
  alter (set_whip_hitDetection false) wi (activeWhips e).
Proof.
  rewrite handlePortalHit_scores. cbv zeta.
  rewrite activeWhips_set_activeWhips, activeWhips_removePortalsWithId,
    checkLevelCompletion_activeWhips, activeWhips_updateGameState,
    activeWhips_audio, activeWhips_createHitEffect,
    triggerPortalTravel_activeWhips, handleScore_activeWhips,
    activeWhips_modifyPortal.
  reflexivity.
Qed.

Lemma handlePortalHit_portals :
  portals (handlePortalHit now r wi e) =
  List.filter
    (fun r' => match alter (markHit quality) r (portalHeap e) !! r' with
               | Some p' => negb (PortalId_eqb (portal_id p') (portal_id portal))
               | None => true
               end)
    (portals e).
Proof.
  rewrite handlePortalHit_scores. cbv zeta.
  rewrite portals_set_activeWhips. unfold removePortalsWithId at 1.
  rewrite portals_set_portals.
  rewrite checkLevelCompletion_portalHeap, portalHeap_updateGameState,
    portalHeap_audio, portalHeap_createHitEffect,
    triggerPortalTravel_portalHeap, handleScore_portalHeap,
    portalHeap_modifyPortal.
  rewrite checkLevelCompletion_portals, portals_updateGameState,
    portals_audio, portals_createHitEffect, triggerPortalTravel_portals,
    handleScore_portals, portals_modifyPortal.
  rewrite list_alter_alter_eq. reflexivity.
Qed.

Lemma handlePortalHit_removed : r ∉ portals (handlePortalHit now r wi e).
Proof.
  rewrite handlePortalHit_portals, list_elem_of_In, filter_In.
  intros [_ H]. unfold getPortal in Hportal.
  rewrite list_lookup_alter_eq, Hportal in H. simpl in H.
  rewrite PortalId_eqb_refl in H. discriminate.
Qed.
End Hit.

(** ** Health (C9) *)

(** C9.  After every health update the health lies in [0, 100]; and when
    the update brings the health to 0 the status becomes [gameover],
    whatever it was before. *)
Theorem updateHealth_range_and_gameover (change : Z) (e : Engine) :
  0 <= health (gameState (updateHealth change e)) <= 100
  /\ (health (gameState (updateHealth change e)) = 0 ->
      status (gameState (updateHealth change e)) = gameover).
Proof.
  rewrite updateHealth_health, updateHealth_status. split; [lia|].
  intros H. destruct (Z.leb_spec (health (gameState e) + change) 0);
    [reflexivity | lia].
Qed.

Lemma updateHealth_range_and_gameover_witness :
  status (gameState (updateHealth (-100) (session 1))) = gameover.
Proof.
  apply (updateHealth_range_and_gameover (-100) (session 1)).
  vm_compute. reflexivity.
Defined.

(** ** Score (C5) *)

Lemma mul_comp (a b b' : Q) :
  (b == b')%Q -> (Double.mul a b == Double.mul a b')%Q.
Proof.
  intros H. unfold Double.mul. apply round_comp.
  rewrite (round_comp _ _ H). reflexivity.
Qed.

Lemma judgeHit_scores (beatMatch : bool) (timeDiff : Z) :
  In (snd (judgeHit beatMatch timeDiff))
     [0; 400; 600; 800; 900; 1000; 1200; 1500].
Proof.
  unfold judgeHit.
  destruct beatMatch; destruct (timeDiff <=? 100); destruct (timeDiff <=? 30);
    destruct (timeDiff <=? 60); destruct (timeDiff <=? 200); simpl; tauto.
Qed.

(** Up to combo 100, by evaluation. *)
Lemma award_table :
  forallb
    (fun c =>
       forallb
         (fun b =>
            (Qfloor (inject_Z b * Qmin (1 + inject_Z c * 0.02) 3) - 1
             <=? Qfloor (Double.mul (inject_Z b) (comboMultiplier c)))
            && (Qfloor (Double.mul (inject_Z b) (comboMultiplier c))
                <=? Qfloor (inject_Z b * Qmin (1 + inject_Z c * 0.02) 3)))
         [0; 400; 600; 800; 900; 1000; 1200; 1500])
    (map Z.of_nat (seq 0 101)) = true.
Proof. vm_compute. reflexivity. Qed.

Lemma award_near_formula (b c : Z) :
  In b [0; 400; 600; 800; 900; 1000; 1200; 1500] ->
  0 <= c ->
  Qfloor (inject_Z b * Qmin (1 + inject_Z c * 0.02) 3) - 1
  <= Qfloor (Double.mul (inject_Z b) (comboMultiplier c))
  <= Qfloor (inject_Z b * Qmin (1 + inject_Z c * 0.02) 3).
Proof.
  intros Hb Hc.
  assert (forall c', 0 <= c' <= 100 ->
            Qfloor (inject_Z b * Qmin (1 + inject_Z c' * 0.02) 3) - 1
            <= Qfloor (Double.mul (inject_Z b) (comboMultiplier c'))
            <= Qfloor (inject_Z b * Qmin (1 + inject_Z c' * 0.02) 3)) as Hlow.
  { intros c' Hc'. pose proof award_table as H.
    rewrite forallb_forall in H. specialize (H c'). cbv beta in H.
    rewrite forallb_forall in H.
    assert (In c' (map Z.of_nat (seq 0 101))) as Hin.
    { apply in_map_iff. exists (Z.to_nat c'). split; [lia|].
      apply in_seq. lia. }
    specialize (H Hin b Hb). cbv beta in H.
    apply andb_true_iff in H as [H1 H2]. lia. }
  destruct (Z_le_gt_dec c 100) as [Hle|Hgt]; [apply Hlow; lia|].
  assert (Qmin (1 + inject_Z c * 0.02) 3 == Qmin (1 + inject_Z 100 * 0.02) 3)%Q
    as Hexact.
  { assert (inject_Z 100 <= inject_Z c)%Q by (rewrite <- Zle_Qle; lia).
    change (inject_Z 100) with 100%Q in *.
    rewrite !Q.min_r; [reflexivity | lra | lra]. }
  assert (comboMultiplier c == comboMultiplier 100)%Q as Hcode
    by (rewrite !comboMultiplier_saturated by lia; reflexivity).
  rewrite (Qfloor_comp _ _ (mul_comp (inject_Z b) _ _ Hcode)).
  assert (inject_Z b * Qmin (1 + inject_Z c * 0.02) 3
          == inject_Z b * Qmin (1 + inject_Z 100 * 0.02) 3)%Q as Hexact'
    by (rewrite Hexact; reflexivity).
  rewrite (Qfloor_comp _ _ Hexact').
  apply Hlow. lia.
Qed.

(** C5, as stated, fails: the product is a product of doubles.  At combo 8
    the multiplier is the double below 1.16, so that the ninth perfect hit
    on the beat of the session is worth 1739 points where the formula gives
    1740, and a hit of 400 base points 463 where the formula gives 464. *)
Lemma ninth_hit_falls_short_of_the_formula :
  combo (gameState (session 8)) = 8
  /\ score (gameState (session 9)) = score (gameState (session 8)) + 1739
  /\ Qfloor (1500 * Qmin (1 + 8 * 0.02) 3) = 1740
  /\ score (gameState (handleScore hit 400 (session 8))) =
     score (gameState (session 8)) + 463
  /\ Qfloor (400 * Qmin (1 + 8 * 0.02) 3) = 464
  /\ (comboMultiplier 8 < 1 + 8 * 0.02)%Q.
Proof. conjuncts; vm_compute; reflexivity. Qed.

(** C5, amended.  The score awarded for a hit is
    [floor (baseScore * min (1 + combo * 0.02, 3))] with the sum and the
    products taken on doubles, for the combo at the time of the hit.  For
    the base scores of the timing windows this is what the formula gives
    over the reals, or one point less.  The multiplier does not decrease
    when the combo grows, is at least 1, never exceeds 3, and is exactly 3
    from combo 100 on. *)
Theorem handleScore_awards_combo_multiplier
    (quality : Quality) (baseScore : Z) (e : Engine) (c1 c2 : Z) :
  0 <= combo (gameState e) ->
  0 <= c1 <= c2 ->
  score (gameState (handleScore quality baseScore e)) =
    score (gameState e)
    + Qfloor (Double.mul (inject_Z baseScore)
                (Qmin (Double.add 1
                         (Double.mul (inject_Z (combo (gameState e))) 0.02))
                      3))
  /\ (forall beatMatch timeDiff,
         baseScore = snd (judgeHit beatMatch timeDiff) ->
         Qfloor (inject_Z baseScore
                 * Qmin (1 + inject_Z (combo (gameState e)) * 0.02) 3) - 1
         <= score (gameState (handleScore quality baseScore e))
            - score (gameState e)
         <= Qfloor (inject_Z baseScore
                    * Qmin (1 + inject_Z (combo (gameState e)) * 0.02) 3))
  /\ (comboMultiplier c1 <= comboMultiplier c2)%Q
  /\ (1 <= comboMultiplier c1)%Q
  /\ (comboMultiplier c2 <= 3)%Q
  /\ (comboMultiplier 100 == 3)%Q
  /\ (100 <= c2 -> (comboMultiplier c2 == 3)%Q).
Proof.
  intros Hc [H0 Hle]. split; [apply handleScore_score|].
  split.
  { intros beatMatch timeDiff Hb. rewrite handleScore_score.
    pose proof (award_near_formula baseScore (combo (gameState e))) as H.
    rewrite Hb in H at 1. specialize (H (judgeHit_scores _ _) Hc). lia. }
  split; [apply comboMultiplier_mono; exact Hle|].
  split; [apply comboMultiplier_least; exact H0|].
  split; [apply comboMultiplier_cap|].
  split; [apply comboMultiplier_saturated; lia|].
  apply comboMultiplier_saturated.
Qed.

Lemma handleScore_awards_combo_multiplier_witness :
  score (gameState (handleScore good 900 (session 1))) =
    score (gameState (session 1))
    + Qfloor (Double.mul (inject_Z 900)
                (Qmin (Double.add 1
                         (Double.mul
                            (inject_Z (combo (gameState (session 1)))) 0.02))
                      3))
  /\ (comboMultiplier 3 <= comboMultiplier 100)%Q
  /\ (comboMultiplier 100 <= 3)%Q
  /\ (comboMultiplier 100 == 3)%Q.
Proof.
  destruct (handleScore_awards_combo_multiplier good 900 (session 1) 3 100)
    as (H1 & _ & H2 & _ & H3 & H4 & _).
  - vm_compute. discriminate.
  - lia.
  - conjuncts; assumption.
Defined.

(** ** Firing outside of play (C10) *)

(** C10.  When the status is not [playing], [fireWhip] changes nothing: no
    whip, no visual effect, no sound, no draw used up, the same game
    state. *)
Theorem fireWhip_not_playing
    (input : InputReading) (now : Z) (targetPosition : Point) (e : Engine) :
  status (gameState e) <> playing ->
  fireWhip input now targetPosition e = e.
Proof.
  intros H. unfold fireWhip.
  destruct (status (gameState e)); try reflexivity. congruence.
Qed.

Lemma fireWhip_not_playing_witness :
  fireWhip mouse 24000 centre restarted = restarted.
Proof.
  apply (fireWhip_not_playing mouse 24000 centre restarted).
  vm_compute. discriminate.
Defined.

(** ** The miss handler (C1) *)

Lemma handlePortalMiss_combo now r e portal :
  getPortal r e = Some portal ->
  combo (gameState (handlePortalMiss now r e)) = Z.max 0 (combo (gameState e)).
Proof.
  intros Hp. unfold handlePortalMiss. rewrite Hp.
  rewrite gameState_createMissEffect, gameState_audio, updateHealth_combo,
    updateCombo_combo, gameState_modifyPortal, Z.add_0_r.
  reflexivity.
Qed.

(** C1.  [handlePortalMiss] awards no score and takes one point of health,
    but its [updateCombo(0)] adds 0 to the combo instead of resetting it:
    after one hit of the session the combo is 1, and it is still 1 after
    the miss handler has run.  In play the handler is not reached at all:
    when the whip meets a portal 250 ms off its target time the judgement
    is [miss] and health and combo stay as they were. *)
Theorem handlePortalMiss_does_not_reset_combo :
  let e := session 1 in
  let e' := handlePortalMiss 7000 1 e in
  combo (gameState e) = 1
  /\ combo (gameState e') = 1
  /\ score (gameState e') = score (gameState e)
  /\ health (gameState e') = health (gameState e) - 1
  /\ (let late := lateSession 250 in
      (exists whip portal,
          (activeWhips late !! 0%nat) = Some whip
          /\ getPortal 1 late = Some portal
          /\ In 1%nat (portals late)
          /\ portal_position portal = active
          /\ isWhipCollidingWithPortal late whip portal = true
          /\ judgeHit (portal_beatMatch portal)
               (Z.abs (7250 - portal_targetTime portal)) = (miss, 0))
      /\ combo (gameState late) = 1
      /\ health (gameState late) = 100).
Proof.
  cbv zeta. conjuncts; try (vm_compute; reflexivity).
  eexists _, _. conjuncts; try (vm_compute; reflexivity).
  vm_compute. auto.
Qed.

(** ** Late hits on the beat (C2) *)

Lemma judgeHit_late (beatMatch : bool) (timeDiff : Z) :
  100 < timeDiff ->
  judgeHit beatMatch timeDiff =
  if timeDiff <=? 200 then (hit, 400) else (miss, 0).
Proof.
  intros H. unfold judgeHit.
  assert ((timeDiff <=? 100) = false) as -> by lia.
  assert ((timeDiff <=? 30) = false) as -> by lia.
  assert ((timeDiff <=? 60) = false) as -> by lia.
  rewrite andb_false_r. destruct (timeDiff <=? 200); reflexivity.
Qed.

(** C2, as stated, fails: a portal on the beat hit 150 ms off its target
    time is judged [hit] for 400 points, in [judgeHit] and in play. *)
Lemma beat_match_150_ms_is_a_hit :
  100 < 150
  /\ judgeHit true 150 = (hit, 400)
  /\ judgeHit true 150 <> (miss, 0)
  /\ (portal_beatMatch <$> getPortal 1 (lateSession 150)) = Some true
  /\ (portal_hitQuality <$> getPortal 1 (lateSession 150)) = Some (Some hit)
  /\ score (gameState (lateSession 150)) =
     score (gameState (aimLate 7000 (playRound 5000 (opening lateDraws))))
     + 408.
Proof.
  conjuncts; try (vm_compute; reflexivity); try lia.
  vm_compute. discriminate.
Qed.

(** C2, amended.  In [handlePortalHit], a portal with [beatMatch] true and
    a time difference above 100 ms falls through to the standard windows:
    up to 200 ms it is a [hit] worth 400 points (times the combo
    multiplier, as a product of doubles), and only above 200 ms a [miss]
    worth nothing, which leaves the engine as it was. *)
Theorem handlePortalHit_beat_match_late
    (now : Z) (r wi : nat) (e : Engine) (portal : Portal) :
  getPortal r e = Some portal ->
  portal_beatMatch portal = true ->
  100 < Z.abs (now - portal_targetTime portal) ->
  judgeHit true (Z.abs (now - portal_targetTime portal)) =
    (if Z.abs (now - portal_targetTime portal) <=? 200
     then (hit, 400) else (miss, 0))
  /\ (Z.abs (now - portal_targetTime portal) <= 200 ->
      (portal_hitQuality <$> getPortal r (handlePortalHit now r wi e)) =
        Some (Some hit)
      /\ score (gameState (handlePortalHit now r wi e)) =
         score (gameState e)
         + Qfloor (Double.mul 400 (comboMultiplier (combo (gameState e)))))
  /\ (200 < Z.abs (now - portal_targetTime portal) ->
      handlePortalHit now r wi e = e).
Proof.
  intros Hp Hb Hlate.
  pose proof (judgeHit_late true _ Hlate) as Hj.
  split; [exact Hj|]. rewrite <- Hb in Hj. split; intros H.
  - assert ((Z.abs (now - portal_targetTime portal) <=? 200) = true) as E by lia.
    rewrite E in Hj. split.
    + apply (handlePortalHit_hitQuality _ _ _ _ _ _ _ Hp Hj). discriminate.
    + apply (handlePortalHit_score _ _ _ _ _ _ _ Hp Hj). discriminate.
  - assert ((Z.abs (now - portal_targetTime portal) <=? 200) = false) as E by lia.
    rewrite E in Hj.
    apply (handlePortalHit_miss _ _ _ _ _ _ _ Hp Hj). reflexivity.
Qed.

Lemma handlePortalHit_beat_match_late_witness :
  handlePortalHit 7250 1 0 (lateSession 250) = lateSession 250.
Proof.
  edestruct (handlePortalHit_beat_match_late 7250 1 0 (lateSession 250))
    as (_ & _ & H).
  - vm_compute. reflexivity.
  - vm_compute. reflexivity.
  - vm_compute. reflexivity.
  - apply H. vm_compute. reflexivity.
Defined.

(** ** Deferred level transition (C3) *)

(** The first deferred callback does look at the status. *)
Lemma triggerLevelTransition_guard (now : Z) (e : Engine) :
  status (gameState e) <> playing -> triggerLevelTransition now e = e.
Proof.
  intros H. unfold triggerLevelTransition.
  destruct (status (gameState e)); try reflexivity. congruence.
Qed.

(** The second one does not: whatever the status, it awards the bonus of the
    current level and counts the level up. *)
Lemma proceedToNextLevel_unguarded (now : Z) (e : Engine) (lvl : LevelData) :
  getCurrentLevel e = Some lvl ->
  score (gameState (proceedToNextLevel now e)) =
    score (gameState e) + bonusScore lvl
  /\ level (gameState (proceedToNextLevel now e)) = level (gameState e) + 1
  /\ currentLevelIndex (proceedToNextLevel now e) = S (currentLevelIndex e).
Proof.
  intros H. unfold proceedToNextLevel. rewrite H. destruct e as [].
  unfold changeDimension, getRandomDimension, updateCurrentLevel.
  helpers. fields. branches; auto.
Qed.

(** C3.  The level-complete pause of the session leaves one timer pending,
    the call of [proceedToNextLevel] due at clock 26000.  The player
    restarts in between: the status is [menu], the score 0 and the level 1,
    and the timer is still pending.  When it comes due the callback acts on
    that state all the same: it awards the bonus of 1000, moves on to
    level 2 and sets the status to [playing]. *)
Theorem proceedToNextLevel_acts_after_restart :
  status (gameState (session 10)) = level_complete
  /\ timers (session 10) = [(26000, cb_proceedToNextLevel)]
  /\ status (gameState restarted) = menu
  /\ score (gameState restarted) = 0
  /\ level (gameState restarted) = 1
  /\ timers restarted = [(26000, cb_proceedToNextLevel)]
  /\ status (gameState staleSession) = playing
  /\ score (gameState staleSession) = 1000
  /\ level (gameState staleSession) = 2
  /\ currentLevelIndex staleSession = 1%nat.
Proof. conjuncts; vm_compute; reflexivity. Qed.

(** ** One hit per whip (C4) *)

(** A whip whose hit detection is off is skipped by the collision pass. *)
Lemma collideWhip_disabled (now : Z) (e : Engine) (wi : nat) (whip : Whip) :
  activeWhips e !! wi = Some whip ->
  whip_hitDetection whip = false ->
  collideWhip now e wi = e.
Proof. intros Hw Hd. unfold collideWhip. rewrite Hw, Hd. reflexivity. Qed.

(** C4.  Before the frame at clock 5000 of the twin session there is one
    whip, with hit detection on, two portals in play and no hit counted.
    The collision pass of that frame hits both portals with that whip: two
    hits are counted and scored, both portals are marked [perfect] and
    taken out of play (the portal left is the one spawned in this frame).
    The flag that is to stop the whip is only read before the loop over
    the portals, not inside it. *)
Theorem one_whip_hits_two_portals :
  (whip_hitDetection <$> activeWhips twinAim) = [true]
  /\ portals twinAim = [0; 1]%nat
  /\ portalsHit (gameState twinAim) = 0
  /\ twinSession = gameLoop 5000 twinAim
  /\ (whip_hitDetection <$> activeWhips twinSession) = [false]
  /\ portalsHit (gameState twinSession) = 2
  /\ score (gameState twinSession) = 1500 + 1530
  /\ (portal_hitQuality <$> getPortal 0 twinSession) = Some (Some perfect)
  /\ (portal_hitQuality <$> getPortal 1 twinSession) = Some (Some perfect)
  /\ portals twinSession = [2]%nat.
Proof. conjuncts; try reflexivity; vm_compute; reflexivity. Qed.

(** ** Whip extension, over the reals *)

Lemma updateWhip_extending (deltaTime : Q) (whip : Whip) :
  (whip_extensionProgress whip + deltaTime * 2 < 1)%Q ->
  snd (updateWhip deltaTime whip) = true
  /\ whip_extensionProgress (fst (updateWhip deltaTime whip)) =
     (whip_extensionProgress whip + deltaTime * 2)%Q
  /\ whip_isActive (fst (updateWhip deltaTime whip)) = whip_isActive whip
  /\ whip_id (fst (updateWhip deltaTime whip)) = whip_id whip.
Proof.
  intros H. unfold updateWhip. fields.
  apply Qle_bool_gt in H. rewrite H. auto.
Qed.

Lemma updateWhips_survivors (deltaTime : Q) (e : Engine) (whip' : Whip) :
  In whip' (activeWhips (updateWhips deltaTime e)) <->
  exists whip, In whip (activeWhips e)
               /\ updateWhip deltaTime whip = (whip', true).
Proof.
  unfold updateWhips. rewrite activeWhips_set_activeWhips, in_map_iff.
  split.
  - intros ([w b] & <- & H). apply filter_In in H as [H Hb].
    simpl in Hb. subst b. apply in_map_iff in H as (whip & Hu & Hin).
    exists whip. split; [exact Hin|]. exact Hu.
  - intros (whip & Hin & Hu). exists (whip', true). split; [reflexivity|].
    apply filter_In. split; [|reflexivity].
    apply in_map_iff. exists whip. split; [exact Hu | exact Hin].
Qed.


(** ** The portal collection over time *)

Lemma grows_refl (e : Engine) : grows e e.
Proof. split; [lia | auto]. Qed.

Lemma grows_trans (e1 e2 e3 : Engine) :
  grows e1 e2 -> grows e2 e3 -> grows e1 e3.
Proof.
  intros [H1 H1'] [H2 H2']. split; [lia|].
  intros r H. destruct (H2' r H) as [H'|H']; [|right; lia].
  destruct (H1' r H') as [H''|H'']; auto.
Qed.

(** An operation that leaves the store and the collection alone. *)
Lemma grows_same (e e' : Engine) :
  portalHeap e' = portalHeap e -> portals e' = portals e -> grows e e'.
Proof. intros Hh Hp. unfold grows. rewrite Hh, Hp. split; [lia | auto]. Qed.

(** An operation that mutates objects in place and filters the collection. *)
Lemma grows_shrink (e e' : Engine) :
  length (portalHeap e') = length (portalHeap e) ->
  (forall r, In r (portals e') -> In r (portals e)) ->
  grows e e'.
Proof. intros Hh Hp. unfold grows. rewrite Hh. split; [lia | auto]. Qed.

Lemma grows_fold {A : Type} (f : Engine -> A -> Engine) (l : list A) :
  (forall e x, grows e (f e x)) -> forall e, grows e (fold_left f l e).
Proof.
  intros Hf. induction l as [|x l IH]; intros e; simpl.
  - apply grows_refl.
  - eapply grows_trans; [apply Hf | apply IH].
Qed.

(** A portal that is out of play stays out of play. *)
Lemma grows_absent (e e' : Engine) (r : nat) :
  grows e e' ->
  (r < length (portalHeap e))%nat -> ~ In r (portals e) ->
  (r < length (portalHeap e'))%nat /\ ~ In r (portals e').
Proof.
  intros [Hl Hp] Hr Hout. split; [lia|].
  intros H. destruct (Hp r H); [auto | lia].
Qed.

(** *** Spawning *)

Lemma spawnRandomPortal_entities (now : Z) (e : Engine) :
  exists portal,
    portalHeap (spawnRandomPortal now e) = portalHeap e ++ [portal]
    /\ portals (spawnRandomPortal now e) =
       portals e ++ [length (portalHeap e)]
    /\ portal_x portal = (-0.1)%Q
    /\ portal_position portal = approach
    /\ portal_beatMatch portal = false
    /\ portal_isMoving portal = true
    /\ portal_targetTime portal = now + 2000.
Proof.
  destruct e as []. unfold spawnRandomPortal, Math_random, getCurrentLevel.
  fields. eexists. conjuncts; reflexivity.
Qed.

Lemma grows_spawnRandomPortal (now : Z) (e : Engine) :
  grows e (spawnRandomPortal now e).
Proof.
  destruct (spawnRandomPortal_entities now e) as (p & Hh & Hp & _).
  unfold grows. rewrite Hh, Hp, length_app. split; [lia|].
  intros r H. apply in_app_iff in H as [H|[<-|[]]]; auto.
Qed.

Lemma grows_spawnPortals (deltaTime : Q) (now : Z) (e : Engine) :
  grows e (spawnPortals deltaTime now e).
Proof.
  unfold spawnPortals. destruct (getCurrentLevel e); [|apply grows_refl].
  destruct (Qle_bool _ _).
  - eapply grows_trans; [|apply grows_spawnRandomPortal].
    apply grows_same; destruct e; reflexivity.
  - apply grows_same; destruct e; reflexivity.
Qed.

Lemma grows_playBeatSound (e : Engine) : grows e (playBeatSound e).
Proof.
  apply grows_same; unfold playBeatSound, audio; destruct e as []; fields;
    branches; reflexivity.
Qed.

Lemma grows_createBeatPulseEffect (now : Z) (e : Engine) :
  grows e (createBeatPulseEffect now e).
Proof. apply grows_same; destruct e as []; reflexivity. Qed.

Lemma grows_spawnPortalOnBeat (now : Z) (e : Engine) :
  grows e (spawnPortalOnBeat now e).
Proof.
  unfold spawnPortalOnBeat, Math_random. cbv zeta.
  match goal with |- context [if ?c then _ else _] => destruct c end.
  - eapply grows_trans; [|apply grows_spawnRandomPortal].
    apply grows_same; destruct e as []; reflexivity.
  - apply grows_same; destruct e as []; reflexivity.
Qed.

Lemma grows_updateBeatSystem (now : Z) (e : Engine) :
  grows e (updateBeatSystem now e).
Proof.
  unfold updateBeatSystem. destruct (Qle_bool _ _); [|apply grows_refl].
  cbv zeta.
  eapply grows_trans; [|apply grows_createBeatPulseEffect].
  eapply grows_trans; [|apply grows_spawnPortalOnBeat].
  eapply grows_trans; [|apply grows_playBeatSound].
  apply grows_same; destruct e as []; reflexivity.
Qed.

(** *** Moving *)

Lemma alter_at {A : Type} (f g : A -> A) (l : list A) (i : nat) (x : A) :
  l !! i = Some x -> f x = g x -> alter f i l = alter g i l.
Proof.
  intros Hi Hfg. apply list_eq. intros j.
  destruct (decide (i = j)) as [<-|Hne].
  - rewrite !list_lookup_alter_eq, Hi. simpl. congruence.
  - rewrite !list_lookup_alter_ne by exact Hne. reflexivity.
Qed.

Lemma alter_same {A : Type} (f : A -> A) (l : list A) (i : nat) (x : A) :
  l !! i = Some x -> f x = x -> alter f i l = l.
Proof.
  intros Hi Hf. apply list_eq. intros j.
  destruct (decide (i = j)) as [<-|Hne].
  - rewrite list_lookup_alter_eq, Hi. simpl. congruence.
  - rewrite list_lookup_alter_ne by exact Hne. reflexivity.
Qed.

Lemma alter_none {A : Type} (f : A -> A) (l : list A) (i : nat) :
  l !! i = None -> alter f i l = l.
Proof.
  intros Hi. apply list_eq. intros j.
  destruct (decide (i = j)) as [<-|Hne].
  - rewrite list_lookup_alter_eq, Hi. reflexivity.
  - rewrite list_lookup_alter_ne by exact Hne. reflexivity.
Qed.

Lemma movePortal_portalHeap (deltaTime : Q) (e : Engine) (r : nat) :
  portalHeap (movePortal deltaTime e r) =
  alter (stepPortal deltaTime) r (portalHeap e).
Proof.
  unfold movePortal, getPortal.
  destruct (portalHeap e !! r) as [portal|] eqn:Hr.
  - destruct (portal_isMoving portal) eqn:Hm.
    + cbv zeta. destruct (Qltb 1.2 _) eqn:Hx.
      * rewrite portalHeap_removePortalsWithId, portalHeap_modifyPortal.
        apply (alter_at _ _ _ _ _ Hr). unfold stepPortal.
        rewrite Hm. cbv zeta. rewrite Hx. reflexivity.
      * rewrite !portalHeap_modifyPortal, !list_alter_alter_eq.
        apply (alter_at _ _ _ _ _ Hr). unfold stepPortal.
        rewrite Hm. cbv zeta. rewrite Hx. reflexivity.
    + symmetry. apply (alter_same _ _ _ _ Hr). unfold stepPortal.
      rewrite Hm. reflexivity.
  - symmetry. apply alter_none. exact Hr.
Qed.

Lemma movePortal_portals_sub (deltaTime : Q) (e : Engine) (r x : nat) :
  In x (portals (movePortal deltaTime e r)) -> In x (portals e).
Proof.
  unfold movePortal.
  destruct (getPortal r e) as [portal|]; [|auto].
  destruct (portal_isMoving portal); [|auto]. cbv zeta.
  destruct (Qltb 1.2 _).
  - unfold removePortalsWithId. rewrite portals_set_portals, filter_In.
    rewrite portals_modifyPortal. tauto.
  - rewrite !portals_modifyPortal. auto.
Qed.

Lemma movePortal_removes (deltaTime : Q) (e : Engine) (r : nat)
    (portal : Portal) :
  getPortal r e = Some portal ->
  portal_isMoving portal = true ->
  (1.2 < portal_x portal + portal_horizontalSpeed portal * deltaTime)%Q ->
  ~ In r (portals (movePortal deltaTime e r)).
Proof.
  intros Hr Hm Hx. unfold movePortal. rewrite Hr, Hm. cbv zeta.
  apply Qltb_lt in Hx. rewrite Hx.
  unfold removePortalsWithId. rewrite portals_set_portals, filter_In.
  rewrite portalHeap_modifyPortal, list_lookup_alter_eq.
  unfold getPortal in Hr. rewrite Hr. simpl.
  rewrite PortalId_eqb_refl. intros [_ H]. discriminate.
Qed.

Lemma grows_movePortal (deltaTime : Q) (e : Engine) (r : nat) :
  grows e (movePortal deltaTime e r).
Proof.
  apply grows_shrink.
  - rewrite movePortal_portalHeap. apply length_alter.
  - intros x. apply movePortal_portals_sub.
Qed.

Lemma movePortals_other (deltaTime : Q) (l : list nat) (e : Engine) (r : nat) :
  ~ In r l ->
  portalHeap (fold_left (movePortal deltaTime) l e) !! r = portalHeap e !! r.
Proof.
  revert e. induction l as [|r' l IH]; intros e Hr; simpl; [reflexivity|].
  rewrite IH by (intros H; apply Hr; right; exact H).
  rewrite movePortal_portalHeap. apply list_lookup_alter_ne.
  intros ->. apply Hr. left. reflexivity.
Qed.

Lemma movePortals_portals_sub (deltaTime : Q) (l : list nat) (e : Engine)
    (x : nat) :
  In x (portals (fold_left (movePortal deltaTime) l e)) -> In x (portals e).
Proof.
  revert e. induction l as [|r' l IH]; intros e H; simpl in H; [exact H|].
  apply IH in H. eapply movePortal_portals_sub. exact H.
Qed.

(** The [forEach] of [updateFroggerPortals] on a portal in play: the object
    is stepped exactly once, and is out of play afterwards if it went past
    1.2. *)
Lemma movePortals_at (deltaTime : Q) (e : Engine) (r : nat) (portal : Portal) :
  NoDup (portals e) ->
  In r (portals e) ->
  getPortal r e = Some portal ->
  let e' := fold_left (movePortal deltaTime) (portals e) e in
  getPortal r e' = Some (stepPortal deltaTime portal)
  /\ (portal_isMoving portal = true ->
      (1.2 < portal_x portal + portal_horizontalSpeed portal * deltaTime)%Q ->
      ~ In r (portals e')).
Proof.
  intros Hnd Hin Hr e'. subst e'.
  destruct (in_split _ _ Hin) as (l1 & l2 & Hl). rewrite Hl in Hnd |- *.
  apply NoDup_ListNoDup, NoDup_remove_2 in Hnd.
  assert (~ In r l1) as H1 by (intros H; apply Hnd, in_or_app; auto).
  assert (~ In r l2) as H2 by (intros H; apply Hnd, in_or_app; auto).
  rewrite fold_left_app. simpl.
  set (e1 := fold_left (movePortal deltaTime) l1 e).
  assert (getPortal r e1 = Some portal) as Hr1.
  { unfold getPortal, e1. rewrite movePortals_other by exact H1. exact Hr. }
  split.
  - unfold getPortal. rewrite movePortals_other by exact H2.
    rewrite movePortal_portalHeap, list_lookup_alter_eq.
    unfold getPortal in Hr1. rewrite Hr1. reflexivity.
  - intros Hm Hx H. apply movePortals_portals_sub in H.
    exact (movePortal_removes _ _ _ _ Hr1 Hm Hx H).
Qed.

(** *** The whole tick *)

Lemma spawnPortals_entities (deltaTime : Q) (now : Z) (e : Engine) :
  let e' := spawnPortals deltaTime now e in
  (portalHeap e' = portalHeap e /\ portals e' = portals e)
  \/ (exists portal,
         portalHeap e' = portalHeap e ++ [portal]
         /\ portals e' = portals e ++ [length (portalHeap e)]
         /\ portal_x portal = (-0.1)%Q).
Proof.
  unfold spawnPortals. cbv zeta.
  destruct (getCurrentLevel e); [|left; split; reflexivity].
  destruct (Qle_bool _ _).
  - right.
    destruct (spawnRandomPortal_entities now
                (set_portalSpawnTimer 0%Q
                   (set_portalSpawnTimer (portalSpawnTimer e + deltaTime)%Q e)))
      as (p & Hh & Hp & Hx & _).
    exists p. rewrite Hh, Hp. destruct e as []. auto.
  - left. destruct e as []. auto.
Qed.

Lemma grows_updateFroggerPortals (deltaTime : Q) (now : Z) (e : Engine) :
  grows e (updateFroggerPortals deltaTime now e).
Proof.
  unfold updateFroggerPortals. cbv zeta.
  eapply grows_trans; [|apply grows_spawnPortals].
  apply grows_fold. intros. apply grows_movePortal.
Qed.

Lemma grows_updateWhips (deltaTime : Q) (e : Engine) :
  grows e (updateWhips deltaTime e).
Proof. apply grows_same; destruct e as []; reflexivity. Qed.

Lemma grows_updateVisualEffects (now : Z) (e : Engine) :
  grows e (updateVisualEffects now e).
Proof. apply grows_same; destruct e as []; reflexivity. Qed.

Lemma grows_updateGameState (updates : list Update) (e : Engine) :
  grows e (updateGameState updates e).
Proof. apply grows_same; destruct e as []; reflexivity. Qed.

Lemma grows_updateLevelProgress (now : Z) (e : Engine) :
  grows e (updateLevelProgress now e).
Proof.
  unfold updateLevelProgress.
  destruct (getCurrentLevel e); [|apply grows_refl].
  destruct (negb _); [apply grows_refl | apply grows_updateGameState].
Qed.

Lemma grows_handlePortalHit (now : Z) (r wi : nat) (e : Engine) :
  grows e (handlePortalHit now r wi e).
Proof.
  destruct (getPortal r e) as [portal|] eqn:Hr.
  2:{ unfold handlePortalHit. rewrite Hr. apply grows_refl. }
  destruct (judgeHit (portal_beatMatch portal)
              (Z.abs (now - portal_targetTime portal))) as [q s] eqn:Hj.
  destruct (Quality_eq_dec q miss) as [Hq|Hq].
  - rewrite (handlePortalHit_miss _ _ _ _ _ _ _ Hr Hj Hq). apply grows_refl.
  - apply grows_shrink.
    + rewrite (handlePortalHit_portalHeap _ _ _ _ _ _ _ Hr Hj Hq).
      apply length_alter.
    + intros x. rewrite (handlePortalHit_portals _ _ _ _ _ _ _ Hr Hj Hq).
      rewrite filter_In. tauto.
Qed.

Lemma grows_collidePortal (now : Z) (wi : nat) (e : Engine) (r : nat) :
  grows e (collidePortal now wi e r).
Proof.
  unfold collidePortal.
  destruct (getPortal r e); [|apply grows_refl].
  destruct (activeWhips e !! wi); [|apply grows_refl].
  destruct (negb _); [apply grows_refl|].
  destruct (isWhipCollidingWithPortal _ _ _);
    [apply grows_handlePortalHit | apply grows_refl].
Qed.

Lemma grows_checkCollisions (now : Z) (e : Engine) :
  grows e (checkCollisions now e).
Proof.
  unfold checkCollisions. apply grows_fold. clear e. intros e wi.
  unfold collideWhip. destruct (activeWhips e !! wi); [|apply grows_refl].
  destruct (negb _); [apply grows_refl|].
  apply grows_fold. intros. apply grows_collidePortal.
Qed.

Lemma grows_update (deltaTime : Q) (now : Z) (e : Engine) :
  grows e (update deltaTime now e).
Proof.
  unfold update. cbv zeta.
  eapply grows_trans; [|apply grows_updateGameState].
  eapply grows_trans; [|apply grows_updateLevelProgress].
  eapply grows_trans; [|apply grows_checkCollisions].
  eapply grows_trans; [|apply grows_updateVisualEffects].
  eapply grows_trans; [|apply grows_updateWhips].
  eapply grows_trans; [|apply grows_updateFroggerPortals].
  eapply grows_trans; [|apply grows_updateBeatSystem].
  apply grows_same; destruct e as []; reflexivity.
Qed.

Lemma grows_advance (ticks : list (Q * Z)) (e : Engine) :
  grows e (advance ticks e).
Proof. apply grows_fold. intros. apply grows_update. Qed.

(** *** The step of a portal, over the reals *)

Lemma stepPortal_x (deltaTime : Q) (portal : Portal) :
  portal_isMoving portal = true ->
  portal_x (stepPortal deltaTime portal) =
  (portal_x portal + portal_horizontalSpeed portal * deltaTime)%Q.
Proof.
  intros Hm. unfold stepPortal. rewrite Hm. cbv zeta.
  destruct (Qltb 1.2 _); reflexivity.
Qed.


(** ** The tick in double arithmetic *)

(** *** Moving *)

Lemma Binary64_movePortal_portalHeap (deltaTime : Q) (e : Engine) (r : nat) :
  portalHeap (Binary64.movePortal deltaTime e r) =
  alter (Binary64.stepPortal deltaTime) r (portalHeap e).
Proof.
  unfold Binary64.movePortal, getPortal.
  destruct (portalHeap e !! r) as [portal|] eqn:Hr.
  - destruct (portal_isMoving portal) eqn:Hm.
    + cbv zeta. destruct (Qltb (Double.round 1.2) _) eqn:Hx.
      * rewrite portalHeap_removePortalsWithId, portalHeap_modifyPortal.
        apply (alter_at _ _ _ _ _ Hr). unfold Binary64.stepPortal.
        rewrite Hm. cbv zeta. rewrite Hx. reflexivity.
      * rewrite !portalHeap_modifyPortal, !list_alter_alter_eq.
        apply (alter_at _ _ _ _ _ Hr). unfold Binary64.stepPortal.
        rewrite Hm. cbv zeta. rewrite Hx. reflexivity.
    + symmetry. apply (alter_same _ _ _ _ Hr). unfold Binary64.stepPortal.
      rewrite Hm. reflexivity.
  - symmetry. apply alter_none. exact Hr.
Qed.

Lemma Binary64_movePortal_portals_sub (deltaTime : Q) (e : Engine)
    (r x : nat) :
  In x (portals (Binary64.movePortal deltaTime e r)) -> In x (portals e).
Proof.
  unfold Binary64.movePortal.
  destruct (getPortal r e) as [portal|]; [|auto].
  destruct (portal_isMoving portal); [|auto]. cbv zeta.
  destruct (Qltb (Double.round 1.2) _).
  - unfold removePortalsWithId. rewrite portals_set_portals, filter_In.
    rewrite portals_modifyPortal. tauto.
  - rewrite !portals_modifyPortal. auto.
Qed.

Lemma Binary64_movePortal_removes (deltaTime : Q) (e : Engine) (r : nat)
    (portal : Portal) :
  getPortal r e = Some portal ->
  portal_isMoving portal = true ->
  (Double.round 1.2
   < Double.add (portal_x portal)
       (Double.mul (portal_horizontalSpeed portal) deltaTime))%Q ->
  ~ In r (portals (Binary64.movePortal deltaTime e r)).
Proof.
  intros Hr Hm Hx. unfold Binary64.movePortal. rewrite Hr, Hm. cbv zeta.
  apply Qltb_lt in Hx. rewrite Hx.
  unfold removePortalsWithId. rewrite portals_set_portals, filter_In.
  rewrite portalHeap_modifyPortal, list_lookup_alter_eq.
  unfold getPortal in Hr. rewrite Hr. simpl.
  rewrite PortalId_eqb_refl. intros [_ H]. discriminate.
Qed.

Lemma grows_Binary64_movePortal (deltaTime : Q) (e : Engine) (r : nat) :
  grows e (Binary64.movePortal deltaTime e r).
Proof.
  apply grows_shrink.
  - rewrite Binary64_movePortal_portalHeap. apply length_alter.
  - intros x. apply Binary64_movePortal_portals_sub.
Qed.

Lemma Binary64_movePortals_other (deltaTime : Q) (l : list nat) (e : Engine)
    (r : nat) :
  ~ In r l ->
  portalHeap (fold_left (Binary64.movePortal deltaTime) l e) !! r =
  portalHeap e !! r.
Proof.
  revert e. induction l as [|r' l IH]; intros e Hr; simpl; [reflexivity|].
  rewrite IH by (intros H; apply Hr; right; exact H).
  rewrite Binary64_movePortal_portalHeap. apply list_lookup_alter_ne.
  intros ->. apply Hr. left. reflexivity.
Qed.

Lemma Binary64_movePortals_portals_sub (deltaTime : Q) (l : list nat)
    (e : Engine) (x : nat) :
  In x (portals (fold_left (Binary64.movePortal deltaTime) l e)) ->
  In x (portals e).
Proof.
  revert e. induction l as [|r' l IH]; intros e H; simpl in H; [exact H|].
  apply IH in H. eapply Binary64_movePortal_portals_sub. exact H.
Qed.

(** The [forEach] of [updateFroggerPortals] on a portal in play: the object
    is stepped exactly once, and is out of play afterwards if it went past
    1.2. *)
Lemma Binary64_movePortals_at (deltaTime : Q) (e : Engine) (r : nat)
    (portal : Portal) :
  NoDup (portals e) ->
  In r (portals e) ->
  getPortal r e = Some portal ->
  let e' := fold_left (Binary64.movePortal deltaTime) (portals e) e in
  getPortal r e' = Some (Binary64.stepPortal deltaTime portal)
  /\ (portal_isMoving portal = true ->
      (Double.round 1.2
       < Double.add (portal_x portal)
           (Double.mul (portal_horizontalSpeed portal) deltaTime))%Q ->
      ~ In r (portals e')).
Proof.
  intros Hnd Hin Hr e'. subst e'.
  destruct (in_split _ _ Hin) as (l1 & l2 & Hl). rewrite Hl in Hnd |- *.
  apply NoDup_ListNoDup, NoDup_remove_2 in Hnd.
  assert (~ In r l1) as H1 by (intros H; apply Hnd, in_or_app; auto).
  assert (~ In r l2) as H2 by (intros H; apply Hnd, in_or_app; auto).
  rewrite fold_left_app. simpl.
  set (e1 := fold_left (Binary64.movePortal deltaTime) l1 e).
  assert (getPortal r e1 = Some portal) as Hr1.
  { unfold getPortal, e1. rewrite Binary64_movePortals_other by exact H1.
    exact Hr. }
  split.
  - unfold getPortal. rewrite Binary64_movePortals_other by exact H2.
    rewrite Binary64_movePortal_portalHeap, list_lookup_alter_eq.
    unfold getPortal in Hr1. rewrite Hr1. reflexivity.
  - intros Hm Hx H. apply Binary64_movePortals_portals_sub in H.
    exact (Binary64_movePortal_removes _ _ _ _ Hr1 Hm Hx H).
Qed.

(** *** The whole tick *)

Lemma grows_Binary64_updateFroggerPortals (deltaTime : Q) (now : Z)
    (e : Engine) :
  grows e (Binary64.updateFroggerPortals deltaTime now e).
Proof.
  unfold Binary64.updateFroggerPortals. cbv zeta.
  eapply grows_trans; [|apply grows_spawnPortals].
  apply grows_fold. intros. apply grows_Binary64_movePortal.
Qed.

Lemma grows_Binary64_updateWhips (deltaTime : Q) (e : Engine) :
  grows e (Binary64.updateWhips deltaTime e).
Proof. apply grows_same; destruct e as []; reflexivity. Qed.

Lemma grows_Binary64_update (deltaTime : Q) (now : Z) (e : Engine) :
  grows e (Binary64.update deltaTime now e).
Proof.
  unfold Binary64.update. cbv zeta.
  eapply grows_trans; [|apply grows_updateGameState].
  eapply grows_trans; [|apply grows_updateLevelProgress].
  eapply grows_trans; [|apply grows_checkCollisions].
  eapply grows_trans; [|apply grows_updateVisualEffects].
  eapply grows_trans; [|apply grows_Binary64_updateWhips].
  eapply grows_trans; [|apply grows_Binary64_updateFroggerPortals].
  eapply grows_trans; [|apply grows_updateBeatSystem].
  apply grows_same; destruct e as []; reflexivity.
Qed.

Lemma grows_Binary64_advance (ticks : list (Q * Z)) (e : Engine) :
  grows e (Binary64.advance ticks e).
Proof. apply grows_fold. intros. apply grows_Binary64_update. Qed.

(** ** Moving portals (C6) *)

Lemma Binary64_stepPortal_x (deltaTime : Q) (portal : Portal) :
  portal_isMoving portal = true ->
  portal_x (Binary64.stepPortal deltaTime portal) =
  Double.add (portal_x portal)
    (Double.mul (portal_horizontalSpeed portal) deltaTime).
Proof.
  intros Hm. unfold Binary64.stepPortal. rewrite Hm. cbv zeta.
  destruct (Qltb (Double.round 1.2) _); [reflexivity|].
  destruct (Qltb (Double.round 0.3) _ && Qltb _ (Double.round 0.7));
    reflexivity.
Qed.

Lemma Binary64_stepPortal_state (deltaTime : Q) (portal : Portal) :
  portal_isMoving portal = true ->
  (portal_x (Binary64.stepPortal deltaTime portal) <= Double.round 1.2)%Q ->
  (portal_position (Binary64.stepPortal deltaTime portal) = active <->
   (Double.round 0.3 < portal_x (Binary64.stepPortal deltaTime portal)
    /\ portal_x (Binary64.stepPortal deltaTime portal) < Double.round 0.7)%Q)
  /\ (portal_position (Binary64.stepPortal deltaTime portal) = approach <->
      ~ (Double.round 0.3 < portal_x (Binary64.stepPortal deltaTime portal)
         /\ portal_x (Binary64.stepPortal deltaTime portal)
            < Double.round 0.7)%Q)
  /\ (portal_beatMatch (Binary64.stepPortal deltaTime portal) = true <->
      portal_position (Binary64.stepPortal deltaTime portal) = active).
Proof.
  intros Hm. rewrite (Binary64_stepPortal_x _ _ Hm). intros Hx.
  apply Qltb_ge in Hx. unfold Binary64.stepPortal. rewrite Hm. cbv zeta.
  rewrite Hx.
  set (x := Double.add _ _) in *.
  destruct (Qltb (Double.round 0.3) x) eqn:Hlo;
    destruct (Qltb x (Double.round 0.7)) eqn:Hhi; cbn [andb]; fields;
    cbn [PortalPosition_beq].
  - apply Qltb_lt in Hlo, Hhi. split; [|split]; split; auto; try discriminate.
    intros H. exfalso. apply H. auto.
  - apply Qltb_lt in Hlo. apply Qltb_ge in Hhi.
    split; [|split]; split; auto; try discriminate.
    + intros [_ H]. exfalso. exact (Qlt_not_le _ _ H Hhi).
    + intros _ [_ H]. exact (Qlt_not_le _ _ H Hhi).
  - apply Qltb_ge in Hlo.
    split; [|split]; split; auto; try discriminate.
    + intros [H _]. exfalso. exact (Qlt_not_le _ _ H Hlo).
    + intros _ [H _]. exact (Qlt_not_le _ _ H Hlo).
  - apply Qltb_ge in Hlo.
    split; [|split]; split; auto; try discriminate.
    + intros [H _]. exfalso. exact (Qlt_not_le _ _ H Hlo).
    + intros _ [H _]. exact (Qlt_not_le _ _ H Hlo).
Qed.

Lemma Binary64_stepPortal_stale (deltaTime : Q) (portal : Portal) :
  portal_isMoving portal = true ->
  (Double.round 1.2 < portal_x (Binary64.stepPortal deltaTime portal))%Q ->
  portal_position (Binary64.stepPortal deltaTime portal) =
    portal_position portal
  /\ portal_beatMatch (Binary64.stepPortal deltaTime portal) =
     portal_beatMatch portal.
Proof.
  intros Hm. rewrite (Binary64_stepPortal_x _ _ Hm). intros Hx.
  apply Qltb_lt in Hx. unfold Binary64.stepPortal. rewrite Hm. cbv zeta.
  rewrite Hx. split; reflexivity.
Qed.

(** C6, as stated, fails for a portal that leaves play.  The portal of the
    session is [active] in the middle band at 4750; a frame of 4.25 seconds
    takes its [x] past 1.2, and the object is dropped from the portals
    before its state is looked at again: it is out of the band and still
    [active], with [beatMatch] still true. *)
Lemma portal_leaves_play_while_active :
  In 0%nat (portals crossing)
  /\ (portal_position <$> getPortal 0 crossing) = Some active
  /\ (portal_isMoving <$> getPortal 0 crossing) = Some true
  /\ (exists portal',
         getPortal 0 (Binary64.updateFroggerPortals 4.25 9000 crossing) =
           Some portal'
         /\ (1.2 < portal_x portal')%Q
         /\ portal_position portal' = active
         /\ portal_beatMatch portal' = true)
  /\ ~ In 0%nat (portals (Binary64.updateFroggerPortals 4.25 9000 crossing))
  /\ (exists portal',
         getPortal 0 (Binary64.gameLoop 9000 crossing) = Some portal'
         /\ (1.2 < portal_x portal')%Q
         /\ portal_position portal' = active
         /\ portal_beatMatch portal' = true)
  /\ ~ In 0%nat (portals (Binary64.gameLoop 9000 crossing)).
Proof.
  conjuncts; try (vm_compute; reflexivity).
  - vm_compute. auto.
  - eexists. conjuncts; vm_compute; reflexivity.
  - vm_compute. intros [H|[]]. discriminate.
  - eexists. conjuncts; vm_compute; reflexivity.
  - vm_compute. intros [H|[H|[]]]; discriminate.
Qed.

(** C6, amended.  In a tick of [deltaTime], a moving portal in play has its
    [x] set to the sum of [x] and [horizontalSpeed * deltaTime], as doubles.
    If that is not above 1.2, its state is [active] exactly when [x] lies
    strictly between 0.3 and 0.7 and [approach] otherwise, and [beatMatch]
    is true exactly when the state is [active].  If it is above 1.2 the
    portal is out of play after the tick and stays out of play over any run
    of further ticks, and state and [beatMatch] of the object are left as
    they were. *)
Theorem updateFroggerPortals_moves_and_retires
    (deltaTime : Q) (now : Z) (e : Engine) (r : nat) (portal : Portal) :
  NoDup (portals e) ->
  In r (portals e) ->
  getPortal r e = Some portal ->
  portal_isMoving portal = true ->
  exists portal',
    getPortal r (Binary64.updateFroggerPortals deltaTime now e) = Some portal'
    /\ portal_x portal' =
       Double.add (portal_x portal)
         (Double.mul (portal_horizontalSpeed portal) deltaTime)
    /\ ((portal_x portal' <= Double.round 1.2)%Q ->
        (portal_position portal' = active <->
         (Double.round 0.3 < portal_x portal'
          /\ portal_x portal' < Double.round 0.7)%Q)
        /\ (portal_position portal' = approach <->
            ~ (Double.round 0.3 < portal_x portal'
               /\ portal_x portal' < Double.round 0.7)%Q)
        /\ (portal_beatMatch portal' = true <->
            portal_position portal' = active))
    /\ ((Double.round 1.2 < portal_x portal')%Q ->
        ~ In r (portals (Binary64.updateFroggerPortals deltaTime now e))
        /\ (forall ticks,
               ~ In r (portals
                         (Binary64.advance ticks
                            (Binary64.updateFroggerPortals deltaTime now e))))
        /\ portal_position portal' = portal_position portal
        /\ portal_beatMatch portal' = portal_beatMatch portal).
Proof.
  intros Hnd Hin Hr Hm.
  destruct (Binary64_movePortals_at deltaTime e r portal Hnd Hin Hr)
    as [Hstep Hout].
  set (e1 := fold_left (Binary64.movePortal deltaTime) (portals e) e) in *.
  assert (r < length (portalHeap e1))%nat as Hlen.
  { apply lookup_lt_Some with (x := Binary64.stepPortal deltaTime portal).
    exact Hstep. }
  assert (getPortal r (Binary64.updateFroggerPortals deltaTime now e) =
          Some (Binary64.stepPortal deltaTime portal)) as Hr'.
  { unfold Binary64.updateFroggerPortals. cbv zeta. fold e1. unfold getPortal.
    destruct (spawnPortals_entities deltaTime now e1)
      as [[-> _]|(p & -> & _)]; [exact Hstep|].
    rewrite lookup_app_l by exact Hlen. exact Hstep. }
  assert (In r (portals (Binary64.updateFroggerPortals deltaTime now e)) ->
          In r (portals e1)) as Hback.
  { unfold Binary64.updateFroggerPortals. cbv zeta. fold e1.
    destruct (spawnPortals_entities deltaTime now e1)
      as [[_ ->]|(p & _ & -> & _)]; [auto|].
    intros H. apply in_app_iff in H as [H|[H|[]]]; [exact H | lia]. }
  exists (Binary64.stepPortal deltaTime portal).
  split; [exact Hr'|]. split; [apply Binary64_stepPortal_x; exact Hm|].
  split.
  - intros H. apply Binary64_stepPortal_state; [exact Hm | exact H].
  - intros Hx.
    destruct (Binary64_stepPortal_stale _ _ Hm Hx) as [Hpos Hbeat].
    rewrite Binary64_stepPortal_x in Hx by exact Hm.
    assert (~ In r (portals (Binary64.updateFroggerPortals deltaTime now e)))
      as Hgone.
    { intros H. exact (Hout Hm Hx (Hback H)). }
    split; [exact Hgone|]. split; [|split; assumption]. intros ticks.
    eapply grows_absent; [apply grows_Binary64_advance | | exact Hgone].
    apply lookup_lt_Some with (x := Binary64.stepPortal deltaTime portal).
    exact Hr'.
Qed.

Lemma updateFroggerPortals_moves_and_retires_witness :
  exists portal',
    getPortal 0 (Binary64.updateFroggerPortals 4.25 9000 crossing) =
      Some portal'
    /\ ~ In 0%nat (portals (Binary64.updateFroggerPortals 4.25 9000 crossing))
    /\ ~ In 0%nat
         (portals (Binary64.advance [(0.25%Q, 9250)]
                     (Binary64.updateFroggerPortals 4.25 9000 crossing)))
    /\ portal_position portal' = active.
Proof.
  edestruct (updateFroggerPortals_moves_and_retires 4.25 9000 crossing 0)
    as (portal' & Hr & Hx & _ & Hout).
  - apply (bool_decide_unpack _). vm_compute. exact I.
  - vm_compute. left. reflexivity.
  - vm_compute. reflexivity.
  - vm_compute. reflexivity.
  - exists portal'. split; [exact Hr|].
    assert (Double.round 1.2 < portal_x portal')%Q as Hfar
      by (rewrite Hx; vm_compute; reflexivity).
    destruct (Hout Hfar) as (Hgone & Hstay & Hpos & _).
    split; [exact Hgone|]. split; [apply Hstay|].
    rewrite Hpos. reflexivity.
Defined.

(** ** Whip extension (C7) *)

Lemma Binary64_updateWhip_extending (deltaTime : Q) (whip : Whip) :
  (Double.add (whip_extensionProgress whip) (Double.mul deltaTime 2) < 1)%Q ->
  snd (Binary64.updateWhip deltaTime whip) = true
  /\ whip_extensionProgress (fst (Binary64.updateWhip deltaTime whip)) =
     Double.add (whip_extensionProgress whip) (Double.mul deltaTime 2)
  /\ whip_isActive (fst (Binary64.updateWhip deltaTime whip)) =
     whip_isActive whip.
Proof.
  intros H. unfold Binary64.updateWhip. fields.
  apply Qle_bool_gt in H. rewrite H. auto.
Qed.

Lemma Binary64_updateWhip_retired (deltaTime : Q) (whip : Whip) :
  (1 <= Double.add (whip_extensionProgress whip) (Double.mul deltaTime 2))%Q ->
  snd (Binary64.updateWhip deltaTime whip) = false
  /\ whip_extensionProgress (fst (Binary64.updateWhip deltaTime whip)) = 1%Q
  /\ whip_isActive (fst (Binary64.updateWhip deltaTime whip)) = false.
Proof.
  intros H. unfold Binary64.updateWhip. fields.
  apply Qle_bool_iff in H. rewrite H. auto.
Qed.

Lemma Binary64_updateWhips_survivors (deltaTime : Q) (e : Engine)
    (whip' : Whip) :
  In whip' (activeWhips (Binary64.updateWhips deltaTime e)) <->
  exists whip, In whip (activeWhips e)
               /\ Binary64.updateWhip deltaTime whip = (whip', true).
Proof.
  unfold Binary64.updateWhips. rewrite activeWhips_set_activeWhips, in_map_iff.
  split.
  - intros ([w b] & <- & H). apply filter_In in H as [H Hb].
    simpl in Hb. subst b. apply in_map_iff in H as (whip & Hu & Hin).
    exists whip. split; [exact Hin|]. exact Hu.
  - intros (whip & Hin & Hu). exists (whip', true). split; [reflexivity|].
    apply filter_In. split; [|reflexivity].
    apply in_map_iff. exists whip. split; [exact Hu | exact Hin].
Qed.

(** C7, as stated, fails: the whip of the session is half extended after
    its round; a tick of a quarter second takes its progress to 1, and at
    the end of that very tick it is gone from the active whips.  There is
    no tick at whose end it is in play with progress 1. *)
Lemma whip_is_removed_in_the_clamping_tick :
  exists whip,
    activeWhips (session 1) = [whip]
    /\ (whip_extensionProgress whip == 0.5)%Q
    /\ (whip_extensionProgress (fst (updateWhip 0.25 whip)) == 1)%Q
    /\ activeWhips (updateWhips 0.25 (session 1)) = []
    /\ activeWhips (gameLoop 5250 (session 1)) = []
    /\ (whip_extensionProgress (fst (Binary64.updateWhip 0.25 whip)) == 1)%Q
    /\ activeWhips (Binary64.updateWhips 0.25 (session 1)) = []
    /\ activeWhips (Binary64.gameLoop 5250 (session 1)) = [].
Proof.
  eexists. conjuncts; [vm_compute; reflexivity | | | | | | |];
    vm_compute; reflexivity.
Qed.

(** C7, amended.  In a tick of [deltaTime] the progress of a whip in play
    becomes the sum of the progress and [deltaTime * 2], as doubles.  A
    whip for which that is below 1 stays in play with it; a whip for which
    it has reached 1 has its progress set to 1, is deactivated and is
    removed in that same tick, so that every whip in play after a tick has
    progress below 1. *)
Theorem updateWhips_extends_or_retires
    (deltaTime : Q) (e : Engine) (whip : Whip) :
  In whip (activeWhips e) ->
  ((Double.add (whip_extensionProgress whip) (Double.mul deltaTime 2) < 1)%Q ->
   In (fst (Binary64.updateWhip deltaTime whip))
      (activeWhips (Binary64.updateWhips deltaTime e))
   /\ whip_extensionProgress (fst (Binary64.updateWhip deltaTime whip)) =
      Double.add (whip_extensionProgress whip) (Double.mul deltaTime 2))
  /\ ((1 <= Double.add (whip_extensionProgress whip)
                (Double.mul deltaTime 2))%Q ->
      snd (Binary64.updateWhip deltaTime whip) = false
      /\ whip_extensionProgress (fst (Binary64.updateWhip deltaTime whip)) =
         1%Q
      /\ whip_isActive (fst (Binary64.updateWhip deltaTime whip)) = false
      /\ ~ In (fst (Binary64.updateWhip deltaTime whip))
              (activeWhips (Binary64.updateWhips deltaTime e)))
  /\ (forall whip',
         In whip' (activeWhips (Binary64.updateWhips deltaTime e)) ->
         (whip_extensionProgress whip' < 1)%Q).
Proof.
  intros Hin.
  assert (forall whip',
             In whip' (activeWhips (Binary64.updateWhips deltaTime e)) ->
             (whip_extensionProgress whip' < 1)%Q) as Hbelow.
  { intros whip' H. apply Binary64_updateWhips_survivors in H as (w & _ & Hu).
    destruct (Qlt_le_dec
                (Double.add (whip_extensionProgress w) (Double.mul deltaTime 2))
                1) as [Hlt|Hge].
    + destruct (Binary64_updateWhip_extending deltaTime w Hlt) as (_ & Hp & _).
      rewrite Hu in Hp. simpl in Hp. rewrite Hp. exact Hlt.
    + destruct (Binary64_updateWhip_retired deltaTime w Hge) as (Hk & _).
      rewrite Hu in Hk. discriminate. }
  split; [|split; [|exact Hbelow]].
  - intros H.
    destruct (Binary64_updateWhip_extending deltaTime whip H) as (Hk & Hp & _).
    split; [|exact Hp]. apply Binary64_updateWhips_survivors. exists whip.
    split; [exact Hin|]. rewrite <- Hk. apply surjective_pairing.
  - intros H.
    destruct (Binary64_updateWhip_retired deltaTime whip H) as (Hk & Hp & Ha).
    split; [exact Hk|]. split; [exact Hp|]. split; [exact Ha|].
    intros C. apply Hbelow in C. rewrite Hp in C. discriminate.
Qed.

(** Ten frames of 50 ms after the click the whip is still in play, a
    rounding short of 1; the exact sum of ten times 0.1 would have retired
    it. *)
Lemma updateWhips_extends_or_retires_witness :
  exists whip,
    activeWhips (whipFrames 9) = [whip]
    /\ In (fst (Binary64.updateWhip 0.05 whip))
          (activeWhips (Binary64.updateWhips 0.05 (whipFrames 9)))
    /\ whip_extensionProgress (fst (Binary64.updateWhip 0.05 whip)) =
       (9007199254740991 # 9007199254740992)%Q.
Proof.
  eexists. split; [vm_compute; reflexivity|].
  match goal with |- In (fst (Binary64.updateWhip _ ?w)) _ /\ _ =>
    destruct (updateWhips_extends_or_retires 0.05 (whipFrames 9) w)
      as ((Hin & Hp) & _)
  end.
  - vm_compute. left. reflexivity.
  - vm_compute. reflexivity.
  - split; [exact Hin|]. rewrite Hp. vm_compute. reflexivity.
Defined.

(** ** The clock of the simulation (C8) *)

Ltac same_field :=
  intros;
  unfold handleScore, updateCombo, triggerPortalTravel, createHitEffect,
    checkLevelCompletion, triggerLevelTransition, updateLevelProgress,
    updateVisualEffects, updateWhips, spawnPortals, spawnRandomPortal,
    spawnPortalOnBeat, playBeatSound, createBeatPulseEffect;
  helpers;
  match goal with e : Engine |- _ => destruct e as [] end;
  fields; branches; reflexivity.

Lemma gameTime_handleScore q s e :
  gameTime (handleScore q s e) = gameTime e.
Proof. same_field. Qed.

Lemma gameTime_triggerPortalTravel now r e :
  gameTime (triggerPortalTravel now r e) = gameTime e.
Proof. same_field. Qed.

Lemma gameTime_checkLevelCompletion now e :
  gameTime (checkLevelCompletion now e) = gameTime e.
Proof. same_field. Qed.

Lemma gameTime_createHitEffect now p q e :
  gameTime (createHitEffect now p q e) = gameTime e.
Proof. same_field. Qed.

Lemma gameTime_modifyPortal r f e :
  gameTime (modifyPortal r f e) = gameTime e.
Proof. same_field. Qed.

Lemma gameTime_removePortalsWithId id e :
  gameTime (removePortalsWithId id e) = gameTime e.
Proof. same_field. Qed.

Lemma gameTime_audio c e : gameTime (audio c e) = gameTime e.
Proof. same_field. Qed.

Lemma gameTime_updateGameState updates e :
  gameTime (updateGameState updates e) = gameTime e.
Proof. same_field. Qed.

Lemma gameTime_set_activeWhips v e :
  gameTime (set_activeWhips v e) = gameTime e.
Proof. same_field. Qed.

Lemma gameTime_handlePortalHit now r wi e :
  gameTime (handlePortalHit now r wi e) = gameTime e.
Proof.
  destruct (getPortal r e) as [portal|] eqn:Hr.
  2:{ unfold handlePortalHit. rewrite Hr. reflexivity. }
  destruct (judgeHit (portal_beatMatch portal)
              (Z.abs (now - portal_targetTime portal))) as [q s] eqn:Hj.
  destruct (Quality_eq_dec q miss) as [Hq|Hq].
  - rewrite (handlePortalHit_miss _ _ _ _ _ _ _ Hr Hj Hq). reflexivity.
  - rewrite (handlePortalHit_scores _ _ _ _ _ _ _ Hr Hj Hq). cbv zeta.
    rewrite gameTime_set_activeWhips, gameTime_removePortalsWithId,
      gameTime_checkLevelCompletion, gameTime_updateGameState, gameTime_audio,
      gameTime_createHitEffect, gameTime_triggerPortalTravel,
      gameTime_handleScore, gameTime_modifyPortal.
    reflexivity.
Qed.

Lemma fold_left_same {A T : Type} (P : Engine -> T)
    (f : Engine -> A -> Engine) (l : list A) :
  (forall e x, P (f e x) = P e) -> forall e, P (fold_left f l e) = P e.
Proof.
  intros Hf. induction l as [|x l IH]; intros e; simpl; [reflexivity|].
  rewrite IH. apply Hf.
Qed.

Lemma gameTime_checkCollisions now e :
  gameTime (checkCollisions now e) = gameTime e.
Proof.
  unfold checkCollisions. apply fold_left_same. clear e. intros e wi.
  unfold collideWhip. destruct (activeWhips e !! wi); [|reflexivity].
  destruct (negb _); [reflexivity|].
  apply fold_left_same. clear. intros e r. unfold collidePortal.
  destruct (getPortal r e); [|reflexivity].
  destruct (activeWhips e !! wi); [|reflexivity].
  destruct (negb _); [reflexivity|].
  destruct (isWhipCollidingWithPortal _ _ _); [|reflexivity].
  apply gameTime_handlePortalHit.
Qed.

Lemma gameTime_movePortal deltaTime e r :
  gameTime (movePortal deltaTime e r) = gameTime e.
Proof.
  unfold movePortal. destruct (getPortal r e) as [portal|]; [|reflexivity].
  destruct (portal_isMoving portal); [|reflexivity]. cbv zeta.
  destruct (Qltb 1.2 _).
  - rewrite gameTime_removePortalsWithId, gameTime_modifyPortal. reflexivity.
  - rewrite !gameTime_modifyPortal. reflexivity.
Qed.

Lemma gameTime_spawnPortals deltaTime now e :
  gameTime (spawnPortals deltaTime now e) = gameTime e.
Proof. same_field. Qed.

Lemma gameTime_updateFroggerPortals deltaTime now e :
  gameTime (updateFroggerPortals deltaTime now e) = gameTime e.
Proof.
  unfold updateFroggerPortals. cbv zeta. rewrite gameTime_spawnPortals.
  apply fold_left_same. intros. apply gameTime_movePortal.
Qed.

Lemma gameTime_updateBeatSystem now e :
  gameTime (updateBeatSystem now e) = gameTime e.
Proof. unfold updateBeatSystem. same_field. Qed.

Lemma gameTime_updateWhips deltaTime e :
  gameTime (updateWhips deltaTime e) = gameTime e.
Proof. same_field. Qed.

Lemma gameTime_updateVisualEffects now e :
  gameTime (updateVisualEffects now e) = gameTime e.
Proof. same_field. Qed.

Lemma gameTime_updateLevelProgress now e :
  gameTime (updateLevelProgress now e) = gameTime e.
Proof. same_field. Qed.

Lemma gameTime_update deltaTime now e :
  gameTime (update deltaTime now e) = (gameTime e + deltaTime)%Q.
Proof.
  unfold update. cbv zeta.
  rewrite gameTime_updateGameState, gameTime_updateLevelProgress,
    gameTime_checkCollisions, gameTime_updateVisualEffects,
    gameTime_updateWhips, gameTime_updateFroggerPortals,
    gameTime_updateBeatSystem.
  destruct e as []. reflexivity.
Qed.

(** *** Whips over the tick *)

Lemma activeWhips_movePortal deltaTime e r :
  activeWhips (movePortal deltaTime e r) = activeWhips e.
Proof.
  unfold movePortal. destruct (getPortal r e) as [portal|]; [|reflexivity].
  destruct (portal_isMoving portal); [|reflexivity]. cbv zeta.
  destruct (Qltb 1.2 _).
  - rewrite activeWhips_removePortalsWithId, activeWhips_modifyPortal.
    reflexivity.
  - rewrite !activeWhips_modifyPortal. reflexivity.
Qed.

Lemma activeWhips_spawnPortals deltaTime now e :
  activeWhips (spawnPortals deltaTime now e) = activeWhips e.
Proof. same_field. Qed.

Lemma activeWhips_updateFroggerPortals deltaTime now e :
  activeWhips (updateFroggerPortals deltaTime now e) = activeWhips e.
Proof.
  unfold updateFroggerPortals. cbv zeta. rewrite activeWhips_spawnPortals.
  apply fold_left_same. intros. apply activeWhips_movePortal.
Qed.

Lemma activeWhips_updateBeatSystem now e :
  activeWhips (updateBeatSystem now e) = activeWhips e.
Proof. unfold updateBeatSystem. same_field. Qed.

Lemma activeWhips_updateVisualEffects now e :
  activeWhips (updateVisualEffects now e) = activeWhips e.
Proof. same_field. Qed.

Lemma activeWhips_updateLevelProgress now e :
  activeWhips (updateLevelProgress now e) = activeWhips e.
Proof. same_field. Qed.

Lemma fmap_alter_same {A B : Type} (f : A -> B) (g : A -> A) (l : list A)
    (i : nat) :
  (forall x, f (g x) = f x) -> f <$> alter g i l = f <$> l.
Proof.
  intros Hfg. apply list_eq. intros j. rewrite !list_lookup_fmap.
  destruct (decide (i = j)) as [<-|Hne].
  - rewrite list_lookup_alter_eq. destruct (l !! i); simpl; [|reflexivity].
    rewrite Hfg. reflexivity.
  - rewrite list_lookup_alter_ne by exact Hne. reflexivity.
Qed.

Lemma progress_handlePortalHit now r wi e :
  whip_extensionProgress <$> activeWhips (handlePortalHit now r wi e) =
  whip_extensionProgress <$> activeWhips e.
Proof.
  destruct (getPortal r e) as [portal|] eqn:Hr.
  2:{ unfold handlePortalHit. rewrite Hr. reflexivity. }
  destruct (judgeHit (portal_beatMatch portal)
              (Z.abs (now - portal_targetTime portal))) as [q s] eqn:Hj.
  destruct (Quality_eq_dec q miss) as [Hq|Hq].
  - rewrite (handlePortalHit_miss _ _ _ _ _ _ _ Hr Hj Hq). reflexivity.
  - rewrite (handlePortalHit_activeWhips _ _ _ _ _ _ _ Hr Hj Hq).
    apply fmap_alter_same. reflexivity.
Qed.

Lemma progress_checkCollisions now e :
  whip_extensionProgress <$> activeWhips (checkCollisions now e) =
  whip_extensionProgress <$> activeWhips e.
Proof.
  unfold checkCollisions.
  apply (fold_left_same (fun e => whip_extensionProgress <$> activeWhips e)).
  clear e. intros e wi.
  unfold collideWhip. destruct (activeWhips e !! wi); [|reflexivity].
  destruct (negb _); [reflexivity|].
  apply (fold_left_same (fun e => whip_extensionProgress <$> activeWhips e)).
  clear. intros e r. unfold collidePortal.
  destruct (getPortal r e); [|reflexivity].
  destruct (activeWhips e !! wi); [|reflexivity].
  destruct (negb _); [reflexivity|].
  destruct (isWhipCollidingWithPortal _ _ _); [|reflexivity].
  apply progress_handlePortalHit.
Qed.

(** A whip that is not yet at the end of its extension is in play after the
    tick, with its progress changed by twice the [deltaTime]. *)
Lemma update_whip_progress deltaTime now e whip :
  In whip (activeWhips e) ->
  (whip_extensionProgress whip + deltaTime * 2 < 1)%Q ->
  exists whip',
    In whip' (activeWhips (update deltaTime now e))
    /\ whip_extensionProgress whip' =
       (whip_extensionProgress whip + deltaTime * 2)%Q.
Proof.
  intros Hin Hp.
  destruct (updateWhip_extending deltaTime whip Hp) as (Hk & Hx & _).
  set (e2 := updateFroggerPortals deltaTime now
               (updateBeatSystem now
                  (set_beatTimer (beatTimer (set_gameTime (gameTime e + deltaTime)%Q e) + deltaTime * 1000)%Q
                     (set_gameTime (gameTime e + deltaTime)%Q e)))).
  assert (activeWhips e2 = activeWhips e) as H2.
  { unfold e2. rewrite activeWhips_updateFroggerPortals,
      activeWhips_updateBeatSystem. destruct e as []. reflexivity. }
  assert (In (whip_extensionProgress whip + deltaTime * 2)%Q
             (whip_extensionProgress <$> activeWhips (update deltaTime now e)))
    as H.
  { unfold update. cbv zeta. fold e2.
    rewrite activeWhips_updateGameState, activeWhips_updateLevelProgress,
      progress_checkCollisions, activeWhips_updateVisualEffects.
    rewrite <- Hx. apply in_map. apply updateWhips_survivors.
    exists whip. rewrite H2. split; [exact Hin|].
    rewrite <- Hk. apply surjective_pairing. }
  apply in_map_iff in H as (whip' & Hw & Hin'). eauto.
Qed.

(** *** Portals over the tick *)

Lemma fmap_lookup_alter {A B : Type} (f : A -> B) (g : A -> A) (l : list A)
    (i j : nat) :
  (forall x, f (g x) = f x) -> f <$> (alter g i l !! j) = f <$> (l !! j).
Proof.
  intros Hfg. rewrite <- !list_lookup_fmap. rewrite fmap_alter_same; auto.
Qed.

Lemma x_handlePortalHit now r wi e r0 :
  portal_x <$> (portalHeap (handlePortalHit now r wi e) !! r0) =
  portal_x <$> (portalHeap e !! r0).
Proof.
  destruct (getPortal r e) as [portal|] eqn:Hr.
  2:{ unfold handlePortalHit. rewrite Hr. reflexivity. }
  destruct (judgeHit (portal_beatMatch portal)
              (Z.abs (now - portal_targetTime portal))) as [q s] eqn:Hj.
  destruct (Quality_eq_dec q miss) as [Hq|Hq].
  - rewrite (handlePortalHit_miss _ _ _ _ _ _ _ Hr Hj Hq). reflexivity.
  - rewrite (handlePortalHit_portalHeap _ _ _ _ _ _ _ Hr Hj Hq).
    apply fmap_lookup_alter. reflexivity.
Qed.

Lemma x_checkCollisions now e r0 :
  portal_x <$> (portalHeap (checkCollisions now e) !! r0) =
  portal_x <$> (portalHeap e !! r0).
Proof.
  unfold checkCollisions.
  apply (fold_left_same (fun e => portal_x <$> (portalHeap e !! r0))).
  clear e. intros e wi.
  unfold collideWhip. destruct (activeWhips e !! wi); [|reflexivity].
  destruct (negb _); [reflexivity|].
  apply (fold_left_same (fun e => portal_x <$> (portalHeap e !! r0))).
  clear. intros e r. unfold collidePortal.
  destruct (getPortal r e); [|reflexivity].
  destruct (activeWhips e !! wi); [|reflexivity].
  destruct (negb _); [reflexivity|].
  destruct (isWhipCollidingWithPortal _ _ _); [|reflexivity].
  apply x_handlePortalHit.
Qed.

Lemma portalHeap_updateWhips deltaTime e :
  portalHeap (updateWhips deltaTime e) = portalHeap e.
Proof. same_field. Qed.

Lemma portalHeap_updateVisualEffects now e :
  portalHeap (updateVisualEffects now e) = portalHeap e.
Proof. same_field. Qed.

Lemma portalHeap_updateLevelProgress now e :
  portalHeap (updateLevelProgress now e) = portalHeap e.
Proof. same_field. Qed.

Lemma updateBeatSystem_entities now e :
  (portalHeap (updateBeatSystem now e) = portalHeap e
   /\ portals (updateBeatSystem now e) = portals e)
  \/ (exists portal,
         portalHeap (updateBeatSystem now e) = portalHeap e ++ [portal]
         /\ portals (updateBeatSystem now e) =
            portals e ++ [length (portalHeap e)]).
Proof.
  unfold updateBeatSystem. destruct (Qle_bool _ _); [|left; auto]. cbv zeta.
  unfold createBeatPulseEffect. rewrite portalHeap_pushEffect, portals_pushEffect.
  unfold spawnPortalOnBeat, Math_random. cbv zeta.
  match goal with |- context [if ?c then _ else _] => destruct c end.
  - right.
    match goal with |- context [spawnRandomPortal now ?x] =>
      destruct (spawnRandomPortal_entities now x) as (p & Hh & Hp & _)
    end.
    exists p. rewrite Hh, Hp. unfold playBeatSound, audio.
    destruct e as []. fields. branches; auto.
  - left. unfold playBeatSound, audio. destruct e as []. fields.
    branches; auto.
Qed.

(** A moving portal in play has its [x] changed by [horizontalSpeed] times
    the [deltaTime] of the tick. *)
Lemma update_portal_x deltaTime now e r portal :
  NoDup (portals e) ->
  (forall r', In r' (portals e) -> (r' < length (portalHeap e))%nat) ->
  In r (portals e) ->
  getPortal r e = Some portal ->
  portal_isMoving portal = true ->
  portal_x <$> getPortal r (update deltaTime now e) =
  Some (portal_x portal + portal_horizontalSpeed portal * deltaTime)%Q.
Proof.
  intros Hnd Hval Hin Hr Hm.
  set (e0 := set_beatTimer
               (beatTimer (set_gameTime (gameTime e + deltaTime)%Q e)
                + deltaTime * 1000)%Q
               (set_gameTime (gameTime e + deltaTime)%Q e)).
  assert (portalHeap e0 = portalHeap e /\ portals e0 = portals e) as [Hh0 Hp0]
    by (destruct e as []; auto).
  set (e1 := updateBeatSystem now e0).
  assert (NoDup (portals e1) /\ In r (portals e1)
          /\ getPortal r e1 = Some portal) as (Hnd1 & Hin1 & Hr1).
  { unfold e1, getPortal.
    destruct (updateBeatSystem_entities now e0)
      as [[-> ->]|(p & -> & ->)]; rewrite Hh0, Hp0.
    - auto.
    - split; [|split].
      + apply NoDup_app. repeat split.
        * exact Hnd.
        * intros x Hx Hx'. apply list_elem_of_In in Hx, Hx'.
          destruct Hx' as [Hx'|[]]. specialize (Hval _ Hx). lia.
        * apply NoDup_singleton.
      + apply in_or_app. auto.
      + rewrite lookup_app_l; [exact Hr|]. apply Hval. exact Hin. }
  destruct (movePortals_at deltaTime e1 r portal Hnd1 Hin1 Hr1) as [Hstep _].
  unfold update. cbv zeta. fold e0 e1. unfold getPortal.
  rewrite portalHeap_updateGameState, portalHeap_updateLevelProgress,
    x_checkCollisions, portalHeap_updateVisualEffects, portalHeap_updateWhips.
  unfold updateFroggerPortals. cbv zeta.
  set (e2 := fold_left (movePortal deltaTime) (portals e1) e1) in *.
  assert (portalHeap (spawnPortals deltaTime now e2) !! r =
          Some (stepPortal deltaTime portal)) as ->.
  { destruct (spawnPortals_entities deltaTime now e2)
      as [[-> _]|(p & -> & _)]; [exact Hstep|].
    rewrite lookup_app_l; [exact Hstep|].
    apply lookup_lt_Some with (x := stepPortal deltaTime portal). exact Hstep. }
  simpl. rewrite stepPortal_x by exact Hm. reflexivity.
Qed.

Lemma gameLoop_playing (now : Z) (e : Engine) :
  status (gameState e) = playing ->
  gameLoop now e =
  update (inject_Z (now - lastTime e) / 1000)%Q now (set_lastTime now e).
Proof.
  intros H. unfold gameLoop. cbv zeta.
  replace (status (gameState (set_lastTime now e))) with playing
    by (destruct e as []; symmetry; exact H).
  reflexivity.
Qed.

(** C8, as stated, fails: with the clock set back by 250 ms the frame runs
    the tick with a [deltaTime] of -0.25.  The game time falls by a quarter
    second, the portal in play moves to the left and the whip retracts;
    the result is not that of a tick with [deltaTime] 0. *)
Lemma negative_deltaTime_runs_backwards :
  status (gameState (session 1)) = playing
  /\ lastTime (session 1) = 5000
  /\ (gameTime (gameLoop 4750 (session 1)) == gameTime (session 1) - 0.25)%Q
  /\ ~ (gameTime (update (-0.25) 4750 (session 1))
        == gameTime (update 0 4750 (session 1)))%Q
  /\ (portal_x <$> getPortal 1 (session 1)) = Some (-0.1)%Q
  /\ (exists x', (portal_x <$> getPortal 1 (gameLoop 4750 (session 1))) = Some x'
                 /\ (x' < -0.1)%Q)
  /\ (exists whip whip',
         activeWhips (session 1) = [whip]
         /\ activeWhips (gameLoop 4750 (session 1)) = [whip']
         /\ (whip_extensionProgress whip == 0.5)%Q
         /\ (whip_extensionProgress whip' == 0)%Q).
Proof.
  conjuncts; try (vm_compute; reflexivity).
  - vm_compute. discriminate.
  - eexists. split; vm_compute; reflexivity.
  - eexists _, _. conjuncts; vm_compute; reflexivity.
Qed.

(** C8, amended.  The tick applies [deltaTime] as it is given, also when it
    is negative: the game time changes by exactly [deltaTime] and so falls,
    every moving portal in play has its [x] changed by [horizontalSpeed *
    deltaTime], and every whip in play stays in play with its progress
    changed by [deltaTime * 2], that is, lowered.  [gameLoop] hands the
    difference of the clock readings to the tick without looking at its
    sign. *)
Theorem update_applies_negative_deltaTime
    (deltaTime : Q) (now : Z) (e : Engine) :
  (deltaTime < 0)%Q ->
  gameTime (update deltaTime now e) = (gameTime e + deltaTime)%Q
  /\ (gameTime (update deltaTime now e) < gameTime e)%Q
  /\ (forall r portal,
         NoDup (portals e) ->
         (forall r', In r' (portals e) -> (r' < length (portalHeap e))%nat) ->
         In r (portals e) ->
         getPortal r e = Some portal ->
         portal_isMoving portal = true ->
         (portal_x <$> getPortal r (update deltaTime now e)) =
         Some (portal_x portal + portal_horizontalSpeed portal * deltaTime)%Q)
  /\ (forall whip,
         In whip (activeWhips e) ->
         (whip_extensionProgress whip < 1)%Q ->
         exists whip',
           In whip' (activeWhips (update deltaTime now e))
           /\ whip_extensionProgress whip' =
              (whip_extensionProgress whip + deltaTime * 2)%Q
           /\ (whip_extensionProgress whip' < whip_extensionProgress whip)%Q)
  /\ (status (gameState e) = playing ->
      gameLoop now e =
      update (inject_Z (now - lastTime e) / 1000)%Q now (set_lastTime now e)).
Proof.
  intros Hneg. rewrite gameTime_update.
  split; [reflexivity|]. split; [lra|]. split; [|split].
  - intros r portal Hnd Hval Hin Hr Hm. apply update_portal_x; assumption.
  - intros whip Hin Hp.
    destruct (update_whip_progress deltaTime now e whip Hin) as (w' & Hin' & Hx).
    + lra.
    + exists w'. rewrite Hx. split; [exact Hin'|]. split; [reflexivity | lra].
  - apply gameLoop_playing.
Qed.

Lemma update_applies_negative_deltaTime_witness :
  (gameTime (update (-0.25) 4750 (session 1)) < gameTime (session 1))%Q.
Proof.
  apply (update_applies_negative_deltaTime (-0.25) 4750 (session 1)).
  vm_compute. reflexivity.
Defined.

(** * Further properties of the engine *)

(** ** The timing windows of [handlePortalHit] *)

Ltac windows :=
  unfold judgeHit;
  repeat match goal with
         | |- context [?a <=? ?b] => destruct (Z.leb_spec a b)
         end;
  repeat match goal with
         | b : bool |- _ => destruct b
         end;
  simpl; try lia; try tauto; try discriminate; try reflexivity.

Lemma judgeHit_quality_miss (beatMatch : bool) (timeDiff : Z) :
  fst (judgeHit beatMatch timeDiff) = miss <-> 200 < timeDiff.
Proof. split; intros H; revert H; windows. Qed.

(** A hit is a miss exactly when it is more than 200 ms off the target
    time, with or without beat match, and exactly then it is worth
    nothing. *)
Theorem judgeHit_miss_iff (beatMatch : bool) (timeDiff : Z) :
  (fst (judgeHit beatMatch timeDiff) = miss <-> 200 < timeDiff)
  /\ (snd (judgeHit beatMatch timeDiff) = 0 <-> 200 < timeDiff).
Proof.
  split; split; intros H; revert H; windows.
Qed.

(** The quality tier does not depend on the beat match: it is [perfect]
    up to 30 ms, [great] up to 60, [good] up to 100, [hit] up to 200 and
    [miss] beyond.  Without beat match the tiers are worth 1000, 800, 600,
    400 and 0 points; with it the first three are worth 1500, 1200 and 900,
    half as much again, and the others the same. *)
Theorem judgeHit_beat_bonus (timeDiff : Z) :
  fst (judgeHit true timeDiff) = fst (judgeHit false timeDiff)
  /\ fst (judgeHit false timeDiff) =
     (if timeDiff <=? 30 then perfect
      else if timeDiff <=? 60 then great
      else if timeDiff <=? 100 then good
      else if timeDiff <=? 200 then hit else miss)
  /\ snd (judgeHit false timeDiff) =
     match fst (judgeHit false timeDiff) with
     | perfect => 1000 | great => 800 | good => 600 | hit => 400 | miss => 0
     end
  /\ snd (judgeHit true timeDiff) =
     match fst (judgeHit true timeDiff) with
     | perfect => 1500 | great => 1200 | good => 900 | hit => 400 | miss => 0
     end
  /\ snd (judgeHit false timeDiff) <= snd (judgeHit true timeDiff)
  /\ (2 * snd (judgeHit true timeDiff) =
      if timeDiff <=? 100 then 3 * snd (judgeHit false timeDiff)
      else 2 * snd (judgeHit false timeDiff)).
Proof.
  conjuncts; windows.
Qed.

(** A hit that is further from the target time never scores more. *)
Theorem judgeHit_score_antitone (beatMatch : bool) (t1 t2 : Z) :
  t1 <= t2 ->
  snd (judgeHit beatMatch t2) <= snd (judgeHit beatMatch t1).
Proof.
  intros H. destruct beatMatch; windows.
Qed.

Lemma judgeHit_score_antitone_witness :
  snd (judgeHit true 150) <= snd (judgeHit true 20).
Proof. apply (judgeHit_score_antitone true 20 150). lia. Defined.

(** ** Combo bookkeeping *)

(** After [updateCombo] the combo is not negative and not above the best
    combo, and the best combo has not gone down. *)
Theorem updateCombo_best (increment : Z) (e : Engine) :
  0 <= combo (gameState (updateCombo increment e))
  /\ combo (gameState (updateCombo increment e)) <=
     maxCombo (gameState (updateCombo increment e))
  /\ maxCombo (gameState e) <= maxCombo (gameState (updateCombo increment e)).
Proof.
  unfold updateCombo, updateGameState. destruct e as []. fields. lia.
Qed.

(** ** A scoring hit *)

Lemma portalsTotal_set_portalsTotal v g :
  portalsTotal (set_portalsTotal v g) = v.
Proof. reflexivity. Qed.

Lemma checkLevelCompletion_portalsTotal now e :
  portalsTotal (gameState (checkLevelCompletion now e)) =
  portalsTotal (gameState e).
Proof. frame. Qed.

Lemma handleScore_portalsTotal quality baseScore e :
  portalsTotal (gameState (handleScore quality baseScore e)) =
  portalsTotal (gameState e).
Proof. frame. Qed.

Lemma handlePortalHit_portalsTotal now r wi e portal quality baseScore :
  getPortal r e = Some portal ->
  judgeHit (portal_beatMatch portal)
    (Z.abs (now - portal_targetTime portal)) = (quality, baseScore) ->
  quality <> miss ->
  portalsTotal (gameState (handlePortalHit now r wi e)) =
  portalsTotal (gameState e) + 1.
Proof.
  intros Hr Hj Hq.
  rewrite (handlePortalHit_scores _ _ _ _ _ _ _ Hr Hj Hq). cbv zeta.
  rewrite gameState_set_activeWhips, gameState_removePortalsWithId,
    checkLevelCompletion_portalsTotal, gameState_updateGameState.
  cbn [fold_left applyUpdate]. rewrite portalsTotal_set_portalsTotal.
  rewrite gameState_audio, gameState_createHitEffect,
    triggerPortalTravel_gameState, handleScore_portalsTotal,
    gameState_modifyPortal.
  reflexivity.
Qed.

(** A hit within 200 ms of the target time counts once: both hit counters
    and the combo go up by one, the score goes up by the floor of the
    judged base score times the combo multiplier, a product of doubles
    ([handleScore]), the portal is marked with the judged
    quality, starts its travel and leaves play, no other portal enters
    play, and the whip's hit detection is switched off. *)
Theorem handlePortalHit_counts_once
    (now : Z) (r wi : nat) (e : Engine) (portal : Portal) :
  getPortal r e = Some portal ->
  Z.abs (now - portal_targetTime portal) <= 200 ->
  0 <= combo (gameState e) ->
  let judged :=
    judgeHit (portal_beatMatch portal)
      (Z.abs (now - portal_targetTime portal)) in
  let e' := handlePortalHit now r wi e in
  portalsHit (gameState e') = portalsHit (gameState e) + 1
  /\ portalsTotal (gameState e') = portalsTotal (gameState e) + 1
  /\ combo (gameState e') = combo (gameState e) + 1
  /\ score (gameState e') =
     score (gameState e)
     + Qfloor (Double.mul (inject_Z (snd judged))
                 (comboMultiplier (combo (gameState e))))
  /\ getPortal r e' = Some (markHit (fst judged) portal)
  /\ ~ In r (portals e')
  /\ (forall r', In r' (portals e') -> In r' (portals e))
  /\ activeWhips e' = alter (set_whip_hitDetection false) wi (activeWhips e).
Proof.
  intros Hr Hd Hc judged e'. subst judged e'.
  destruct (judgeHit _ _) as [q s] eqn:Hj.
  assert (q <> miss) as Hq.
  { intros ->. pose proof (judgeHit_quality_miss (portal_beatMatch portal)
                             (Z.abs (now - portal_targetTime portal))) as H.
    rewrite Hj in H. simpl in H. assert (miss = miss) as E by reflexivity.
    apply H in E. lia. }
  cbn [fst snd].
  split; [apply (handlePortalHit_portalsHit _ _ _ _ _ _ _ Hr Hj Hq)|].
  split; [apply (handlePortalHit_portalsTotal _ _ _ _ _ _ _ Hr Hj Hq)|].
  split; [rewrite (handlePortalHit_combo _ _ _ _ _ _ _ Hr Hj Hq); lia|].
  split; [apply (handlePortalHit_score _ _ _ _ _ _ _ Hr Hj Hq)|].
  split.
  { unfold getPortal in *.
    rewrite (handlePortalHit_portalHeap _ _ _ _ _ _ _ Hr Hj Hq).
    rewrite list_lookup_alter_eq, Hr. reflexivity. }
  split.
  { rewrite <- list_elem_of_In.
    apply (handlePortalHit_removed _ _ _ _ _ _ _ Hr Hj Hq). }
  split.
  { intros r'. rewrite (handlePortalHit_portals _ _ _ _ _ _ _ Hr Hj Hq).
    rewrite filter_In. tauto. }
  apply (handlePortalHit_activeWhips _ _ _ _ _ _ _ Hr Hj Hq).
Qed.

Lemma handlePortalHit_counts_once_witness :
  portalsHit (gameState (handlePortalHit 7000 1 0 (aim 7000 (session 1)))) =
  portalsHit (gameState (aim 7000 (session 1))) + 1.
Proof.
  edestruct (handlePortalHit_counts_once 7000 1 0 (aim 7000 (session 1)))
    as (H & _).
  - vm_compute. reflexivity.
  - vm_compute. discriminate.
  - vm_compute. discriminate.
  - exact H.
Defined.

(** ** Level transitions *)

Lemma triggerLevelTransition_playing (now : Z) (e : Engine) :
  status (gameState e) = playing ->
  triggerLevelTransition now e =
  setTimeout cb_proceedToNextLevel 3000 now
    (pushEffect
       {| fx_id := level_transition_ now; fx_type := level_transition;
          fx_position := (0.5, 0.5, 0)%Q; fx_startTime := now;
          fx_duration := 3000;
          fx_data := data_level (currentLevelIndex e) |}
       (audio (playSound "combo_bonus.mp3" 0.8)
          (updateGameState [status_ level_complete; transitionActive_ true]
             e))).
Proof.
  intros H. unfold triggerLevelTransition. rewrite H. destruct e as [].
  reflexivity.
Qed.

(** In play, [triggerLevelTransition] moves to [level_complete], raises
    the transition flag and schedules [proceedToNextLevel] three seconds
    ahead; a second call, from the other path that leads to it, changes
    nothing any more. *)
Theorem triggerLevelTransition_once (now now' : Z) (e : Engine) :
  status (gameState e) = playing ->
  let e' := triggerLevelTransition now e in
  status (gameState e') = level_complete
  /\ transitionActive (gameState e') = true
  /\ timers e' = timers e ++ [(now + 3000, cb_proceedToNextLevel)]
  /\ score (gameState e') = score (gameState e)
  /\ portals e' = portals e
  /\ triggerLevelTransition now' e' = e'.
Proof.
  intros H e'. subst e'. rewrite (triggerLevelTransition_playing _ _ H).
  destruct e as []. conjuncts; reflexivity.
Qed.

Lemma triggerLevelTransition_once_witness :
  status (gameState (triggerLevelTransition 7000 (session 1))) =
  level_complete.
Proof.
  apply (triggerLevelTransition_once 7000 7000 (session 1)).
  vm_compute. reflexivity.
Defined.

(** [checkLevelCompletion] records the hit progress of the level, and in
    play starts the transition exactly when the hits have reached the
    number the level requires. *)
Theorem checkLevelCompletion_threshold
    (now : Z) (e : Engine) (lvl : LevelData) :
  getCurrentLevel e = Some lvl ->
  status (gameState e) = playing ->
  let e' := checkLevelCompletion now e in
  levelProgress (gameState e') =
    (inject_Z (portalsHit (gameState e)) / inject_Z (requiredHits lvl) * 100)%Q
  /\ (requiredHits lvl <= portalsHit (gameState e) ->
      status (gameState e') = level_complete
      /\ timers e' = timers e ++ [(now + 3000, cb_proceedToNextLevel)])
  /\ (portalsHit (gameState e) < requiredHits lvl ->
      status (gameState e') = playing /\ timers e' = timers e).
Proof.
  intros Hl Hs e'. subst e'. unfold checkLevelCompletion. rewrite Hl.
  cbv zeta.
  set (e1 := updateGameState _ e).
  assert (portalsHit (gameState e1) = portalsHit (gameState e)
          /\ status (gameState e1) = playing
          /\ timers e1 = timers e
          /\ levelProgress (gameState e1) =
             (inject_Z (portalsHit (gameState e))
              / inject_Z (requiredHits lvl) * 100)%Q)
    as (Hh & Hs1 & Ht & Hp).
  { unfold e1, updateGameState. destruct e as []. fields. auto. }
  rewrite Hh.
  destruct (Z.leb_spec (requiredHits lvl) (portalsHit (gameState e))) as [Hge|Hlt].
  - rewrite (triggerLevelTransition_playing _ _ Hs1).
    destruct e1 as []. fields. rewrite <- Ht, <- Hp.
    split; [reflexivity|]. split; [auto | lia].
  - split; [exact Hp|]. split; [lia | auto].
Qed.

Lemma checkLevelCompletion_threshold_witness :
  status (gameState (checkLevelCompletion 7000 (session 1))) = playing
  /\ timers (checkLevelCompletion 7000 (session 1)) = timers (session 1).
Proof.
  eapply (checkLevelCompletion_threshold 7000 (session 1)).
  - vm_compute. reflexivity.
  - vm_compute. reflexivity.
  - vm_compute. reflexivity.
Defined.

(** [proceedToNextLevel] awards the bonus of the level that ends and
    counts the level up.  If another level follows, play resumes in it
    with the hit counters at zero, no portal in play, the level clock
    restarted and the difficulty and song of that level; the whips in
    flight stay.  After the last level the game is over and all audio is
    stopped. *)
Theorem proceedToNextLevel_next_or_gameover
    (now : Z) (e : Engine) (lvl : LevelData) :
  getCurrentLevel e = Some lvl ->
  let e' := proceedToNextLevel now e in
  currentLevelIndex e' = S (currentLevelIndex e)
  /\ score (gameState e') = score (gameState e) + bonusScore lvl
  /\ level (gameState e') = level (gameState e) + 1
  /\ activeWhips e' = activeWhips e
  /\ (forall next,
         levels !! S (currentLevelIndex e) = Some next ->
         status (gameState e') = playing
         /\ transitionActive (gameState e') = false
         /\ portalsHit (gameState e') = 0
         /\ portalsTotal (gameState e') = 0
         /\ portals e' = []
         /\ levelStartTime e' = now
         /\ currentDifficulty (gameState e') = level_difficulty next
         /\ currentSong (gameState e') = music next)
  /\ (levels !! S (currentLevelIndex e) = None ->
      status (gameState e') = gameover
      /\ audioLog e' = audioLog e ++ [stopAll]
      /\ portals e' = portals e).
Proof.
  intros Hl e'. subst e'. unfold proceedToNextLevel. rewrite Hl.
  unfold getCurrentLevel in Hl.
  destruct e as [? ? ? ? ? ? ? idx ? ? ? ? ? ? ? ? ? ? ? ? ? ?]. fields.
  destruct idx as [|[|[|n]]]; simpl in Hl; try discriminate;
    injection Hl as <-; conjuncts; try reflexivity;
    try (intros next Hn; simpl in Hn; try discriminate;
         injection Hn as <-; conjuncts; reflexivity);
    try (intros Hn; simpl in Hn; try discriminate; conjuncts; reflexivity).
Qed.

Lemma proceedToNextLevel_next_or_gameover_witness :
  currentLevelIndex (proceedToNextLevel 26000 (session 10)) = 1%nat
  /\ score (gameState (proceedToNextLevel 26000 (session 10))) =
     score (gameState (session 10)) + 1000.
Proof.
  edestruct (proceedToNextLevel_next_or_gameover 26000 (session 10))
    as (H1 & H2 & _).
  - vm_compute. reflexivity.
  - split; [exact H1 | exact H2].
Defined.

(** ** Frames outside of play *)

Lemma gameLoop_not_playing (now : Z) (e : Engine) :
  status (gameState e) <> playing ->
  gameLoop now e = set_lastTime now e.
Proof.
  intros H. unfold gameLoop. cbv zeta.
  replace (status (gameState (set_lastTime now e))) with (status (gameState e))
    by (destruct e as []; reflexivity).
  destruct (status (gameState e)); try reflexivity. congruence.
Qed.

(** When the status is not [playing] a frame only records the clock
    reading: nothing is simulated, whatever time has passed. *)
Theorem gameLoop_idle (now : Z) (e : Engine) :
  status (gameState e) <> playing ->
  gameLoop now e = set_lastTime now e
  /\ gameTime (gameLoop now e) = gameTime e
  /\ portals (gameLoop now e) = portals e
  /\ activeWhips (gameLoop now e) = activeWhips e
  /\ lastTime (gameLoop now e) = now.
Proof.
  intros H. rewrite (gameLoop_not_playing _ _ H). destruct e as [].
  conjuncts; reflexivity.
Qed.

Lemma gameLoop_idle_witness :
  gameLoop 24000 restarted = set_lastTime 24000 restarted.
Proof. apply (gameLoop_idle 24000 restarted). vm_compute. discriminate. Defined.

Lemma gameLoop_frames_idle (clock : list Z) (e : Engine) :
  status (gameState e) <> playing ->
  fold_left (fun e now => gameLoop now e) clock e =
  match clock with
  | [] => e
  | _ => set_lastTime (List.last clock 0) e
  end.
Proof.
  revert e. induction clock as [|now clock IH]; intros e H; [reflexivity|].
  cbn [fold_left]. rewrite (gameLoop_not_playing _ _ H).
  rewrite IH by (destruct e as []; exact H).
  destruct clock as [|now' clock]; [reflexivity|].
  destruct e as []. reflexivity.
Qed.

(** Pausing, any number of frames, and resuming, through [togglePause]:
    the simulation is where it was.  The game state, the portals, the
    whips, the effects, the pending timers, the game time, the beat and
    spawn timers and the unused random draws are unchanged; only the audio
    collaborator has been paused and resumed. *)
Theorem pause_frames_resume (clock : list Z) (e : Engine) :
  status (gameState e) = playing ->
  let e' :=
    togglePause
      (fold_left (fun e now => gameLoop now e) clock (togglePause e)) in
  gameState e' = gameState e
  /\ portalHeap e' = portalHeap e
  /\ portals e' = portals e
  /\ activeWhips e' = activeWhips e
  /\ visualEffects e' = visualEffects e
  /\ timers e' = timers e
  /\ gameTime e' = gameTime e
  /\ beatTimer e' = beatTimer e
  /\ currentBeat e' = currentBeat e
  /\ portalSpawnTimer e' = portalSpawnTimer e
  /\ randoms e' = randoms e
  /\ audioLog e' = audioLog e ++ [pauseAll; resumeAll].
Proof.
  intros H e'. subst e'.
  assert (togglePause e = pauseGame e) as -> by (unfold togglePause; rewrite H; reflexivity).
  rewrite gameLoop_frames_idle
    by (destruct e as []; unfold pauseGame, updateGameState, audio; fields;
        discriminate).
  destruct e as [? ? g]. destruct g as []. simpl in H. subst.
  unfold togglePause, pauseGame, resumeGame, updateGameState, audio. fields.
  destruct clock; fields; rewrite <- app_assoc; conjuncts; reflexivity.
Qed.

Lemma pause_frames_resume_witness :
  portals (togglePause
             (fold_left (fun e now => gameLoop now e) [5500; 6000]
                (togglePause (session 1)))) = portals (session 1).
Proof.
  apply (pause_frames_resume [5500; 6000] (session 1)).
  vm_compute. reflexivity.
Defined.

(** ** Starting and restarting *)

(** [startGame] puts the engine in play at the start of the current level:
    hit counters, level progress, game time and beat are reset and no
    portal, whip or effect is left.  It does not touch the score, the
    combo, the health, the level or the pending timers. *)
Theorem startGame_resets_the_level_only (now : Z) (e : Engine) :
  let e' := startGame now e in
  status (gameState e') = playing
  /\ (portalsHit (gameState e') = 0 /\ portalsTotal (gameState e') = 0
      /\ levelProgress (gameState e') = 0%Q
      /\ transitionActive (gameState e') = false)
  /\ (portals e' = [] /\ activeWhips e' = [] /\ visualEffects e' = [])
  /\ (gameTime e' = 0%Q /\ beatTimer e' = 0%Q /\ currentBeat e' = 0
      /\ gameStartTime e' = now /\ levelStartTime e' = now)
  /\ (score (gameState e') = score (gameState e)
      /\ combo (gameState e') = combo (gameState e)
      /\ maxCombo (gameState e') = maxCombo (gameState e)
      /\ health (gameState e') = health (gameState e)
      /\ level (gameState e') = level (gameState e)
      /\ currentLevelIndex e' = currentLevelIndex e
      /\ timers e' = timers e).
Proof.
  cbv zeta. unfold startGame. helpers.
  destruct e as [? ? ? ? ? ? ? idx ? ? ? ? ? ? ? ? ? ? ? ? ? ?]. fields.
  destruct (levels !! idx); conjuncts; reflexivity.
Qed.

(** A restart followed by a start is a new game, whatever the engine went
    through before: in play at the first level, score 0, combo 0, health
    100, no hits, no portal, whip or effect, clocks at zero.  What
    survives is outside the game state: the timers that were pending are
    still pending. *)
Theorem restartGame_then_startGame (now : Z) (e : Engine) :
  let e' := startGame now (restartGame e) in
  gameState e' =
    {| status := playing; score := 0; combo := 0; health := 100; level := 1;
       currentSong := "cosmic_theme_music.mp3"; currentSongProgress := 0;
       maxCombo := 0; accuracy := 100; gameMode := gameMode (gameState e);
       levelProgress := 0; portalsHit := 0; portalsTotal := 0;
       currentDifficulty := easy; transitionActive := false |}
  /\ currentLevelIndex e' = 0%nat
  /\ (portals e' = [] /\ activeWhips e' = [] /\ visualEffects e' = [])
  /\ (gameTime e' = 0%Q /\ beatTimer e' = 0%Q /\ currentBeat e' = 0
      /\ gameStartTime e' = now /\ levelStartTime e' = now)
  /\ timers e' = timers e
  /\ audioLog e' =
     audioLog e ++ [stopAll; playMusic "cosmic_theme_music.mp3" 0.7].
Proof.
  cbv zeta. destruct e as [? ? g]. destruct g as [].
  unfold startGame, restartGame, updateCurrentLevel. helpers. fields.
  cbn [levels lookup list_lookup]. fields. cbn [levels lookup list_lookup].
  fields. rewrite <- app_assoc. conjuncts; reflexivity.
Qed.

(** ** Visual effects *)

Lemma age_within_duration (age duration : Z) :
  0 < duration ->
  Qle_bool (inject_Z age / inject_Z duration) 1 = true <-> age <= duration.
Proof.
  intros Hd. rewrite Qle_bool_iff.
  assert (0 < inject_Z duration)%Q as Hq
    by (change 0%Q with (inject_Z 0); rewrite <- Zlt_Qlt; exact Hd).
  rewrite (Zle_Qle age duration). split; intros H.
  - assert (inject_Z age == inject_Z age / inject_Z duration * inject_Z duration)%Q
      as X by (field; lra).
    rewrite X. set (q := (inject_Z age / inject_Z duration)%Q) in *. nra.
  - apply Qle_shift_div_r; [exact Hq | lra].
Qed.

(** An effect with a positive duration is kept by a tick exactly as long
    as its age is not above its duration; a tick adds none by itself. *)
Theorem updateVisualEffects_lifespan (now : Z) (e : Engine) (fx : VisualEffect) :
  0 < fx_duration fx ->
  In fx (visualEffects (updateVisualEffects now e)) <->
  In fx (visualEffects e) /\ now - fx_startTime fx <= fx_duration fx.
Proof.
  intros Hd. unfold updateVisualEffects.
  replace (visualEffects (set_visualEffects _ e))
    with (List.filter
            (fun effect =>
               Qle_bool (inject_Z (now - fx_startTime effect)
                         / inject_Z (fx_duration effect)) 1)
            (visualEffects e))
    by (destruct e as []; reflexivity).
  rewrite filter_In, (age_within_duration _ _ Hd). reflexivity.
Qed.

Lemma updateVisualEffects_lifespan_witness :
  ~ In {| fx_id := beat_ 1000; fx_type := beat_pulse;
          fx_position := (0.5, 0.5, 0)%Q; fx_startTime := 1000;
          fx_duration := 300; fx_data := data_beat bass |}
      (visualEffects
         (updateVisualEffects 1301
            (pushEffect
               {| fx_id := beat_ 1000; fx_type := beat_pulse;
                  fx_position := (0.5, 0.5, 0)%Q; fx_startTime := 1000;
                  fx_duration := 300; fx_data := data_beat bass |}
               (newEngine 800 600 [])))).
Proof.
  intros H.
  apply (updateVisualEffects_lifespan 1301) in H; [|simpl; lia].
  simpl in H. lia.
Defined.

(** ** The whip's path *)

(** The whip starts at the start point of its trajectory and ends at the
    end point. *)
Theorem getWhipCurrentPosition_ends (whip : Whip) :
  ((whip_extensionProgress whip == 0)%Q ->
   (px (getWhipCurrentPosition whip) == px (start (whip_trajectory whip)))%Q
   /\ (py (getWhipCurrentPosition whip) == py (start (whip_trajectory whip)))%Q)
  /\ ((whip_extensionProgress whip == 1)%Q ->
      (px (getWhipCurrentPosition whip) == px (end_ (whip_trajectory whip)))%Q
      /\ (py (getWhipCurrentPosition whip) == py (end_ (whip_trajectory whip)))%Q).
Proof.
  unfold getWhipCurrentPosition, bezier, sq. cbn [px py].
  split; intros H; rewrite H; split; ring.
Qed.

Lemma getWhipCurrentPosition_ends_witness :
  (px (getWhipCurrentPosition restWhip) == 400)%Q
  /\ (py (getWhipCurrentPosition restWhip) == 300)%Q.
Proof.
  apply (proj1 (getWhipCurrentPosition_ends restWhip)). reflexivity.
Defined.

(** ** Collisions *)

Lemma fold_left_fixed {A : Type} (f : Engine -> A -> Engine) (l : list A)
    (e : Engine) :
  (forall x, In x l -> f e x = e) -> fold_left f l e = e.
Proof.
  induction l as [|x l IH]; intros H; simpl; [reflexivity|].
  rewrite (H x) by (left; reflexivity).
  apply IH. intros y Hy. apply H. right. exact Hy.
Qed.

(** The collision pass does nothing at all when no whip in play has its
    hit detection on, or when no portal in play is [active]: portals on
    approach cannot be hit. *)
Theorem checkCollisions_needs_detection_and_active (now : Z) (e : Engine) :
  (forall whip, In whip (activeWhips e) -> whip_hitDetection whip = false)
  \/ (forall r portal, In r (portals e) -> getPortal r e = Some portal ->
                       portal_position portal <> active) ->
  checkCollisions now e = e.
Proof.
  intros H. unfold checkCollisions. apply fold_left_fixed. intros wi _.
  unfold collideWhip. destruct (activeWhips e !! wi) as [whip|] eqn:Hw;
    [|reflexivity].
  destruct H as [H|H].
  - rewrite (H whip); [reflexivity|].
    apply list_elem_of_In, list_elem_of_lookup. eauto.
  - destruct (whip_hitDetection whip); [|reflexivity]. simpl.
    apply fold_left_fixed. intros r Hr. unfold collidePortal.
    destruct (getPortal r e) as [portal|] eqn:Hp; [|reflexivity].
    rewrite Hw. specialize (H r portal Hr Hp).
    destruct (portal_position portal); try reflexivity. congruence.
Qed.

Lemma checkCollisions_needs_detection_and_active_witness :
  checkCollisions 7000 (session 1) = session 1.
Proof.
  apply (checkCollisions_needs_detection_and_active 7000 (session 1)).
  left. intros whip H.
  assert (forallb (fun w => negb (whip_hitDetection w))
            (activeWhips (session 1)) = true) as X
    by (vm_compute; reflexivity).
  apply negb_true_iff. exact (proj1 (forallb_forall _ _) X whip H).
Defined.

(** ** Level progress *)

Lemma levelProgress_set_levelProgress v g :
  levelProgress (set_levelProgress v g) = v.
Proof. reflexivity. Qed.

(** In play the level progress is set to the larger of the share of hits
    and 70% of the share of time used, capped at 100: it is exactly
    [min (max hits (time * 0.7)) 100], so never above 100 and never above
    the larger share.  Outside of play it is left alone. *)
Theorem updateLevelProgress_capped (now : Z) (e : Engine) (lvl : LevelData) :
  getCurrentLevel e = Some lvl ->
  let hits :=
    (inject_Z (portalsHit (gameState e)) / inject_Z (requiredHits lvl) * 100)%Q in
  let time :=
    (inject_Z (now - levelStartTime e) / 1000 / inject_Z (timeLimit lvl) * 100)%Q in
  (status (gameState e) = playing ->
   levelProgress (gameState (updateLevelProgress now e)) =
     Qmin (Qmax hits (time * 0.7)) 100
   /\ (levelProgress (gameState (updateLevelProgress now e)) <= 100)%Q
   /\ (levelProgress (gameState (updateLevelProgress now e))
       <= Qmax hits (time * 0.7))%Q
   /\ (hits <= 100 ->
       hits <= levelProgress (gameState (updateLevelProgress now e)))%Q
   /\ (time * 0.7 <= 100 ->
       time * 0.7 <= levelProgress (gameState (updateLevelProgress now e)))%Q
   /\ (100 <= hits \/ 100 <= time * 0.7 ->
       levelProgress (gameState (updateLevelProgress now e)) == 100)%Q)
  /\ (status (gameState e) <> playing -> updateLevelProgress now e = e).
Proof.
  intros Hl hits time. subst hits time. unfold updateLevelProgress.
  rewrite Hl. split.
  - intros Hs. rewrite Hs. cbn [Status_beq negb].
    rewrite gameState_updateGameState. cbn [fold_left applyUpdate].
    rewrite levelProgress_set_levelProgress.
    set (h := (inject_Z (portalsHit (gameState e))
               / inject_Z (requiredHits lvl) * 100)%Q).
    set (t := (inject_Z (now - levelStartTime e) / 1000
               / inject_Z (timeLimit lvl) * 100)%Q).
    split; [reflexivity|]. split; [apply Q.le_min_r|].
    split; [apply Q.le_min_l|]. split; [|split].
    + intros H. apply Q.min_glb; [apply Q.le_max_l | exact H].
    + intros H. apply Q.min_glb; [apply Q.le_max_r | exact H].
    + intros H. apply Q.min_r.
      destruct H as [H|H];
        [eapply Qle_trans; [exact H | apply Q.le_max_l]
        |eapply Qle_trans; [exact H | apply Q.le_max_r]].
  - intros Hs. destruct (status (gameState e)); try reflexivity. congruence.
Qed.

Lemma updateLevelProgress_capped_witness :
  (levelProgress (gameState (updateLevelProgress 7000 (session 1))) <= 100)%Q.
Proof.
  edestruct (updateLevelProgress_capped 7000 (session 1)) as [H _];
    [vm_compute; reflexivity|].
  destruct H as (_ & H & _); [vm_compute; reflexivity|].
  exact H.
Defined.

(** ** Spawning *)

Lemma Qfloor_range (q : Q) (n : Z) :
  (0 <= q)%Q -> (q < inject_Z n)%Q -> 0 <= Qfloor q < n.
Proof.
  intros H0 Hn. split.
  - change 0 with (Qfloor 0). apply Qfloor_resp_le. exact H0.
  - rewrite Zlt_Qlt. eapply Qle_lt_trans; [apply Qfloor_le | exact Hn].
Qed.

Lemma levels_portalSpeed (i : nat) (lvl : LevelData) :
  levels !! i = Some lvl -> (0 < portalSpeed lvl)%Q.
Proof.
  destruct i as [|[|[|i]]]; simpl; intros H; try discriminate;
    injection H as <-; reflexivity.
Qed.

(** A spawn with draws in [0, 1) adds exactly one new portal to the store
    and to the portals in play, and uses up six draws.  The portal starts
    off screen on the left, on approach and moving.  The clock is read
    three times: the id carries the first reading, the spawn time is the
    second, and the target time is two seconds after the third, so two
    seconds after the spawn time only when these two readings agree.  The
    size is that of the frequency class; the portal runs in one of the
    three lanes, within 0.05 of the lane's height; its horizontal speed is
    between half the base speed and the base speed; its frequency lies in
    the band of its class.  With one reading for all three this is
    [spawnRandomPortal]. *)
Theorem spawnRandomPortal_new_portal
    (idTime spawnTime targetTime : Z) (e : Engine)
    (r1 r2 r3 r4 r5 r6 : Q) (rest : list Q) :
  randoms e = r1 :: r2 :: r3 :: r4 :: r5 :: r6 :: rest ->
  (forall r, In r [r1; r2; r3; r5; r6] -> (0 <= r)%Q /\ (r < 1)%Q) ->
  let e' := spawnRandomPortalAt idTime spawnTime targetTime e in
  (exists portal,
    portalHeap e' = portalHeap e ++ [portal]
    /\ portals e' = portals e ++ [length (portalHeap e)]
    /\ randoms e' = rest
    /\ portal_id portal = portal_spawn idTime r4
    /\ (portal_x portal = (-0.1)%Q /\ portal_position portal = approach
        /\ portal_isMoving portal = true /\ portal_beatMatch portal = false
        /\ portal_hitQuality portal = None)
    /\ (portal_spawnTime portal = spawnTime
        /\ portal_targetTime portal = targetTime + 2000)
    /\ portal_size portal = getPortalSize (portal_type portal)
    /\ 0 <= portal_travelLane portal <= 2
    /\ (0.25 <= portal_y portal)%Q /\ (portal_y portal <= 0.75)%Q
    /\ (0 < portal_speed portal)%Q
    /\ (portal_speed portal * 0.5 <= portal_horizontalSpeed portal)%Q
    /\ (portal_horizontalSpeed portal <= portal_speed portal)%Q
    /\ (band_min (FREQUENCY_MAPPING (portal_type portal))
        <= portal_frequency portal)%Q
    /\ (portal_frequency portal
        <= band_max (FREQUENCY_MAPPING (portal_type portal)))%Q)
  /\ (idTime = spawnTime -> spawnTime = targetTime ->
      e' = spawnRandomPortal spawnTime e).
Proof.
  intros Hr Hd e'. subst e'. split; [|intros -> ->; reflexivity].
  destruct (Hd r1) as [H10 H11]; [simpl; auto|].
  destruct (Hd r2) as [H20 H21]; [simpl; auto|].
  destruct (Hd r3) as [H30 H31]; [simpl; auto|].
  destruct (Hd r5) as [H50 H51]; [simpl; auto 10|].
  destruct (Hd r6) as [H60 H61]; [simpl; auto 10|].
  clear Hd.
  assert (0 <= Qfloor (r2 * FROGGER_LANES) < 3) as Hlane
    by (apply Qfloor_range; unfold FROGGER_LANES;
        [nra | change (inject_Z 3) with 3%Q; lra]).
  assert (exists speed,
             speed = match levels !! currentLevelIndex e with
                     | Some currentLevel => portalSpeed currentLevel
                     | None => 0.3%Q
                     end /\ (0 < speed)%Q) as (speed & Hspeed & Hpos).
  { eexists. split; [reflexivity|].
    destruct (levels !! currentLevelIndex e) eqn:El;
      [exact (levels_portalSpeed _ _ El) | reflexivity]. }
  destruct e as [? ? ? ? ? ? ? idx ? ? ? ? ? ? ? ? ? ? ? ? ? draws].
  cbn [randoms] in Hr. subst draws.
  unfold spawnRandomPortalAt, Math_random, getCurrentLevel. fields.
  cbn [hd tl]. rewrite <- Hspeed.
  eexists. conjuncts; try reflexivity; cbn [portal_travelLane portal_y
      portal_speed portal_horizontalSpeed portal_frequency portal_type];
    try lia; try exact Hpos; try nra.
  - set (lane := Qfloor (r2 * FROGGER_LANES)) in *.
    assert (lane = 0 \/ lane = 1 \/ lane = 2) as [-> | [-> | ->]] by lia;
      simpl; lra.
  - set (lane := Qfloor (r2 * FROGGER_LANES)) in *.
    assert (lane = 0 \/ lane = 1 \/ lane = 2) as [-> | [-> | ->]] by lia;
      simpl; lra.
  - destruct (default hihat _); simpl; lra.
  - destruct (default hihat _); simpl; lra.
Qed.

Lemma spawnRandomPortal_new_portal_witness :
  exists portal,
    portalHeap (spawnRandomPortalAt 9000 9000 9001
                  (set_randoms (spawnDraws 0.5 0.875) (session 1))) =
    portalHeap (set_randoms (spawnDraws 0.5 0.875) (session 1)) ++ [portal]
    /\ portal_spawnTime portal = 9000
    /\ portal_targetTime portal = 11001.
Proof.
  edestruct (spawnRandomPortal_new_portal 9000 9000 9001
               (set_randoms (spawnDraws 0.5 0.875) (session 1)))
    as [(portal & Hh & _ & _ & _ & _ & [Hs Ht] & _) _].
  - reflexivity.
  - intros r [<-|[<-|[<-|[<-|[<-|[]]]]]]; split; vm_compute;
      first [reflexivity | discriminate].
  - exists portal. split; [exact Hh|]. split; [exact Hs | exact Ht].
Defined.

(** ** What a tick leaves alone *)

Ltac same_tuple :=
  intros;
  unfold steady, clocks, handleScore, updateCombo, triggerPortalTravel,
    createHitEffect, checkLevelCompletion, triggerLevelTransition,
    updateLevelProgress, updateVisualEffects, updateWhips, spawnPortals,
    spawnRandomPortal, spawnPortalOnBeat, playBeatSound,
    createBeatPulseEffect;
  helpers;
  match goal with e : Engine |- _ => destruct e as [] end;
  fields; branches; reflexivity.

Lemma settled_handleScore q s e : settled (handleScore q s e) = settled e.
Proof. unfold settled. same_tuple. Qed.

Lemma settled_triggerPortalTravel now r e :
  settled (triggerPortalTravel now r e) = settled e.
Proof. unfold settled. same_tuple. Qed.

Lemma settled_checkLevelCompletion now e :
  settled (checkLevelCompletion now e) = settled e.
Proof. unfold settled. same_tuple. Qed.

Lemma settled_createHitEffect now p q e :
  settled (createHitEffect now p q e) = settled e.
Proof. unfold settled. same_tuple. Qed.

Lemma settled_modifyPortal r f e : settled (modifyPortal r f e) = settled e.
Proof. unfold settled. same_tuple. Qed.

Lemma settled_removePortalsWithId id e :
  settled (removePortalsWithId id e) = settled e.
Proof. unfold settled. same_tuple. Qed.

Lemma settled_audio c e : settled (audio c e) = settled e.
Proof. unfold settled. same_tuple. Qed.

Lemma settled_set_activeWhips v e : settled (set_activeWhips v e) = settled e.
Proof. unfold settled. same_tuple. Qed.

Lemma settled_hit_counters a b e :
  settled (updateGameState [portalsHit_ a; portalsTotal_ b] e) = settled e.
Proof. unfold settled. same_tuple. Qed.

Lemma settled_handlePortalHit now r wi e :
  settled (handlePortalHit now r wi e) = settled e.
Proof.
  destruct (getPortal r e) as [portal|] eqn:Hr.
  2:{ unfold handlePortalHit. rewrite Hr. reflexivity. }
  destruct (judgeHit (portal_beatMatch portal)
              (Z.abs (now - portal_targetTime portal))) as [q s] eqn:Hj.
  destruct (Quality_eq_dec q miss) as [Hq|Hq].
  - rewrite (handlePortalHit_miss _ _ _ _ _ _ _ Hr Hj Hq). reflexivity.
  - rewrite (handlePortalHit_scores _ _ _ _ _ _ _ Hr Hj Hq). cbv zeta.
    rewrite settled_set_activeWhips, settled_removePortalsWithId,
      settled_checkLevelCompletion, settled_hit_counters, settled_audio,
      settled_createHitEffect, settled_triggerPortalTravel,
      settled_handleScore, settled_modifyPortal.
    reflexivity.
Qed.

Lemma settled_checkCollisions now e :
  settled (checkCollisions now e) = settled e.
Proof.
  unfold checkCollisions. apply fold_left_same. clear e. intros e wi.
  unfold collideWhip. destruct (activeWhips e !! wi); [|reflexivity].
  destruct (negb _); [reflexivity|].
  apply fold_left_same. clear. intros e r. unfold collidePortal.
  destruct (getPortal r e); [|reflexivity].
  destruct (activeWhips e !! wi); [|reflexivity].
  destruct (negb _); [reflexivity|].
  destruct (isWhipCollidingWithPortal _ _ _); [|reflexivity].
  apply settled_handlePortalHit.
Qed.

Lemma settled_movePortal deltaTime e r :
  settled (movePortal deltaTime e r) = settled e.
Proof.
  unfold movePortal. destruct (getPortal r e) as [portal|]; [|reflexivity].
  destruct (portal_isMoving portal); [|reflexivity]. cbv zeta.
  destruct (Qltb 1.2 _).
  - rewrite settled_removePortalsWithId, settled_modifyPortal. reflexivity.
  - rewrite !settled_modifyPortal. reflexivity.
Qed.

Lemma settled_spawnPortals deltaTime now e :
  settled (spawnPortals deltaTime now e) = settled e.
Proof. unfold settled. same_tuple. Qed.

Lemma settled_updateFroggerPortals deltaTime now e :
  settled (updateFroggerPortals deltaTime now e) = settled e.
Proof.
  unfold updateFroggerPortals. cbv zeta. rewrite settled_spawnPortals.
  apply fold_left_same. intros. apply settled_movePortal.
Qed.

Lemma settled_updateWhips deltaTime e :
  settled (updateWhips deltaTime e) = settled e.
Proof. unfold settled. same_tuple. Qed.

Lemma settled_updateVisualEffects now e :
  settled (updateVisualEffects now e) = settled e.
Proof. unfold settled. same_tuple. Qed.

Lemma settled_updateLevelProgress now e :
  settled (updateLevelProgress now e) = settled e.
Proof. unfold settled. same_tuple. Qed.

Lemma settled_currentSongProgress v e :
  settled (updateGameState [currentSongProgress_ v] e) = settled e.
Proof. unfold settled. same_tuple. Qed.

Lemma steady_updateBeatSystem now e :
  steady (updateBeatSystem now e) = steady e.
Proof. unfold updateBeatSystem. same_tuple. Qed.

(** The tick after the beat scheduler has run. *)
Lemma settled_update deltaTime now e :
  settled (update deltaTime now e) =
  settled (updateBeatSystem now
             (set_beatTimer (beatTimer e + deltaTime * 1000)%Q
                (set_gameTime (gameTime e + deltaTime)%Q e))).
Proof.
  unfold update. cbv zeta.
  rewrite settled_currentSongProgress, settled_updateLevelProgress,
    settled_checkCollisions, settled_updateVisualEffects,
    settled_updateWhips, settled_updateFroggerPortals.
  destruct e as []. reflexivity.
Qed.

Lemma steady_fields (a b : Engine) :
  steady a = steady b ->
  health (gameState a) = health (gameState b)
  /\ level (gameState a) = level (gameState b)
  /\ currentLevelIndex a = currentLevelIndex b
  /\ levelStartTime a = levelStartTime b
  /\ lastTime a = lastTime b
  /\ audioEnabled a = audioEnabled b.
Proof.
  unfold steady. intros H. injection H. intros. conjuncts; assumption.
Qed.

Lemma clocks_fields (a b : Engine) :
  clocks a = clocks b ->
  currentBeat a = currentBeat b /\ beatTimer a = beatTimer b.
Proof. unfold clocks. intros H. injection H. intros. split; assumption. Qed.

(** No tick changes the health, the level or the level index: within the
    simulation the health stays what it was, whatever is hit or missed.
    Nor does a tick touch the level clock, the clock reading of the last
    frame or the audio switch. *)
Theorem update_leaves_health_and_level (deltaTime : Q) (now : Z) (e : Engine) :
  health (gameState (update deltaTime now e)) = health (gameState e)
  /\ level (gameState (update deltaTime now e)) = level (gameState e)
  /\ currentLevelIndex (update deltaTime now e) = currentLevelIndex e
  /\ levelStartTime (update deltaTime now e) = levelStartTime e
  /\ lastTime (update deltaTime now e) = lastTime e
  /\ audioEnabled (update deltaTime now e) = audioEnabled e.
Proof.
  assert (steady (update deltaTime now e) = steady e) as H.
  { pose proof (settled_update deltaTime now e) as H.
    apply (f_equal fst) in H. cbn [settled fst] in H. rewrite H.
    rewrite steady_updateBeatSystem. destruct e as []. reflexivity. }
  exact (steady_fields _ _ H).
Qed.

Lemma updateBeatSystem_beat (now : Z) (e : Engine) :
  (Qle_bool (beatInterval e) (beatTimer e) = true ->
   currentBeat (updateBeatSystem now e) = currentBeat e + 1
   /\ beatTimer (updateBeatSystem now e) = 0%Q)
  /\ (Qle_bool (beatInterval e) (beatTimer e) = false ->
      updateBeatSystem now e = e).
Proof.
  unfold updateBeatSystem. split; intros ->; [|reflexivity].
  unfold createBeatPulseEffect, spawnPortalOnBeat, playBeatSound,
    spawnRandomPortal. helpers. destruct e as []. fields.
  branches; auto.
Qed.

(** A tick runs at most one beat, however long it is: when the beat timer,
    advanced by the tick, has reached the beat interval, the beat counter
    goes up by one and the timer restarts at zero; the time beyond the
    interval is dropped.  Otherwise the counter stays and the timer keeps
    the advance. *)
Theorem update_single_beat (deltaTime : Q) (now : Z) (e : Engine) :
  (Qle_bool (beatInterval e) (beatTimer e + deltaTime * 1000) = true ->
   currentBeat (update deltaTime now e) = currentBeat e + 1
   /\ beatTimer (update deltaTime now e) = 0%Q)
  /\ (Qle_bool (beatInterval e) (beatTimer e + deltaTime * 1000) = false ->
      currentBeat (update deltaTime now e) = currentBeat e
      /\ beatTimer (update deltaTime now e) =
         (beatTimer e + deltaTime * 1000)%Q).
Proof.
  pose proof (settled_update deltaTime now e) as H.
  apply (f_equal snd) in H. cbn [settled snd] in H.
  apply clocks_fields in H as [Hb Ht]. rewrite Hb, Ht. clear Hb Ht.
  set (e0 := set_beatTimer (beatTimer e + deltaTime * 1000)%Q
               (set_gameTime (gameTime e + deltaTime)%Q e)).
  assert (beatInterval e0 = beatInterval e
          /\ beatTimer e0 = (beatTimer e + deltaTime * 1000)%Q
          /\ currentBeat e0 = currentBeat e) as (Hi & Ht & Hb)
    by (destruct e as []; auto).
  rewrite <- Hi, <- Ht, <- Hb.
  destruct (updateBeatSystem_beat now e0) as [H1 H2].
  split; intros H; [apply H1; exact H | rewrite (H2 H); auto].
Qed.

Lemma update_single_beat_witness :
  currentBeat (update 2 7000 (session 1)) = currentBeat (session 1) + 1
  /\ beatTimer (update 2 7000 (session 1)) = 0%Q.
Proof.
  apply (update_single_beat 2 7000 (session 1)). vm_compute. reflexivity.
Defined.

(** ** What a tick only adds to *)

Lemma fold_left_preorder {A : Type} (R : Engine -> Engine -> Prop)
    (f : Engine -> A -> Engine) (l : list A) :
  (forall e, R e e) ->
  (forall a b c, R a b -> R b c -> R a c) ->
  (forall e x, R e (f e x)) ->
  forall e, R e (fold_left f l e).
Proof.
  intros Hrefl Htrans Hf. induction l as [|x l IH]; intros e; simpl.
  - apply Hrefl.
  - eapply Htrans; [apply Hf | apply IH].
Qed.

Lemma advances_refl e : advances e e.
Proof. unfold advances. split; [reflexivity|]. split; [lia|]. lia. Qed.

Lemma advances_trans a b c : advances a b -> advances b c -> advances a c.
Proof.
  unfold advances. intros (H1 & H2 & H3) (H4 & H5 & H6).
  split; [lia|]. split; [lia|]. intros H.
  destruct (H3 H) as [Hc Hs]. destruct H6 as [Hc' Hs']; lia.
Qed.

Lemma advances_same e e' :
  score (gameState e') = score (gameState e) ->
  combo (gameState e') = combo (gameState e) ->
  portalsHit (gameState e') = portalsHit (gameState e) ->
  portalsTotal (gameState e') = portalsTotal (gameState e) ->
  advances e e'.
Proof. unfold advances. intros -> -> -> ->. lia. Qed.

Lemma advances_gameState e e' : gameState e' = gameState e -> advances e e'.
Proof. intros H. apply advances_same; rewrite H; reflexivity. Qed.

Lemma judgeHit_score_nonneg (beatMatch : bool) (timeDiff : Z) :
  0 <= snd (judgeHit beatMatch timeDiff).
Proof. windows. Qed.

Lemma comboMultiplier_nonneg (c : Z) : 0 <= c -> (0 <= comboMultiplier c)%Q.
Proof.
  intros H. pose proof (comboMultiplier_least c H). lra.
Qed.

Lemma advances_handlePortalHit now r wi e :
  advances e (handlePortalHit now r wi e).
Proof.
  destruct (getPortal r e) as [portal|] eqn:Hr.
  2:{ unfold handlePortalHit. rewrite Hr. apply advances_refl. }
  destruct (judgeHit (portal_beatMatch portal)
              (Z.abs (now - portal_targetTime portal))) as [q s] eqn:Hj.
  destruct (Quality_eq_dec q miss) as [Hq|Hq].
  - rewrite (handlePortalHit_miss _ _ _ _ _ _ _ Hr Hj Hq). apply advances_refl.
  - unfold advances.
    rewrite (handlePortalHit_portalsHit _ _ _ _ _ _ _ Hr Hj Hq),
      (handlePortalHit_portalsTotal _ _ _ _ _ _ _ Hr Hj Hq),
      (handlePortalHit_combo _ _ _ _ _ _ _ Hr Hj Hq),
      (handlePortalHit_score _ _ _ _ _ _ _ Hr Hj Hq).
    split; [lia|]. split; [lia|]. intros Hc. split; [lia|].
    assert (0 <= Qfloor (Double.mul (inject_Z s)
                           (comboMultiplier (combo (gameState e))))).
    { change 0 with (Qfloor 0). apply Qfloor_resp_le.
      apply mul_nonneg; [|apply comboMultiplier_nonneg; exact Hc].
      pose proof (judgeHit_score_nonneg (portal_beatMatch portal)
                    (Z.abs (now - portal_targetTime portal))) as Hs.
      rewrite Hj in Hs. simpl in Hs.
      change 0%Q with (inject_Z 0). rewrite <- Zle_Qle. exact Hs. }
    lia.
Qed.

Lemma advances_checkCollisions now e : advances e (checkCollisions now e).
Proof.
  unfold checkCollisions.
  apply fold_left_preorder;
    [apply advances_refl | apply advances_trans |]. clear e. intros e wi.
  unfold collideWhip. destruct (activeWhips e !! wi); [|apply advances_refl].
  destruct (negb _); [apply advances_refl|].
  apply fold_left_preorder;
    [apply advances_refl | apply advances_trans |]. clear. intros e r.
  unfold collidePortal.
  destruct (getPortal r e); [|apply advances_refl].
  destruct (activeWhips e !! wi); [|apply advances_refl].
  destruct (negb _); [apply advances_refl|].
  destruct (isWhipCollidingWithPortal _ _ _); [|apply advances_refl].
  apply advances_handlePortalHit.
Qed.

Lemma gameState_movePortal deltaTime e r :
  gameState (movePortal deltaTime e r) = gameState e.
Proof.
  unfold movePortal. destruct (getPortal r e) as [portal|]; [|reflexivity].
  destruct (portal_isMoving portal); [|reflexivity]. cbv zeta.
  destruct (Qltb 1.2 _).
  - rewrite gameState_removePortalsWithId, gameState_modifyPortal. reflexivity.
  - rewrite !gameState_modifyPortal. reflexivity.
Qed.

Lemma gameState_spawnPortals deltaTime now e :
  gameState (spawnPortals deltaTime now e) = gameState e.
Proof. same_field. Qed.

Lemma gameState_updateFroggerPortals deltaTime now e :
  gameState (updateFroggerPortals deltaTime now e) = gameState e.
Proof.
  unfold updateFroggerPortals. cbv zeta. rewrite gameState_spawnPortals.
  apply fold_left_same. intros. apply gameState_movePortal.
Qed.

Lemma gameState_updateBeatSystem now e :
  gameState (updateBeatSystem now e) = gameState e.
Proof. unfold updateBeatSystem. same_field. Qed.

Lemma gameState_updateWhips deltaTime e :
  gameState (updateWhips deltaTime e) = gameState e.
Proof. same_field. Qed.

Lemma gameState_updateVisualEffects now e :
  gameState (updateVisualEffects now e) = gameState e.
Proof. same_field. Qed.

Lemma advances_updateLevelProgress now e :
  advances e (updateLevelProgress now e).
Proof.
  unfold updateLevelProgress.
  destruct (getCurrentLevel e); [|apply advances_refl].
  destruct (negb _); [apply advances_refl|].
  apply advances_same; destruct e as []; reflexivity.
Qed.

Lemma advances_currentSongProgress v e :
  advances e (updateGameState [currentSongProgress_ v] e).
Proof. apply advances_same; destruct e as []; reflexivity. Qed.

(** Over a tick hits are only added, and each counted hit is added to both
    hit counters, so that their difference stays; with a combo that is not
    negative, neither the combo nor the score goes down: inside the
    simulation nothing resets a combo and nothing costs points. *)
Theorem update_only_adds (deltaTime : Q) (now : Z) (e : Engine) :
  portalsTotal (gameState (update deltaTime now e))
  - portalsHit (gameState (update deltaTime now e)) =
    portalsTotal (gameState e) - portalsHit (gameState e)
  /\ portalsHit (gameState e) <= portalsHit (gameState (update deltaTime now e))
  /\ (0 <= combo (gameState e) ->
      combo (gameState e) <= combo (gameState (update deltaTime now e))
      /\ score (gameState e) <= score (gameState (update deltaTime now e))).
Proof.
  change (advances e (update deltaTime now e)).
  unfold update. cbv zeta.
  eapply advances_trans; [|apply advances_currentSongProgress].
  eapply advances_trans; [|apply advances_updateLevelProgress].
  eapply advances_trans; [|apply advances_checkCollisions].
  apply advances_gameState.
  rewrite gameState_updateVisualEffects, gameState_updateWhips,
    gameState_updateFroggerPortals, gameState_updateBeatSystem.
  destruct e as []. reflexivity.
Qed.

Lemma update_only_adds_witness :
  combo (gameState (aim 7000 (session 1))) <=
    combo (gameState (update 0.25 7000 (aim 7000 (session 1))))
  /\ score (gameState (aim 7000 (session 1))) <=
     score (gameState (update 0.25 7000 (aim 7000 (session 1)))).
Proof.
  apply (update_only_adds 0.25 7000 (aim 7000 (session 1))).
  vm_compute. discriminate.
Defined.

(** ** How many portals a tick can add *)

Lemma thins_refl e : thins e e.
Proof. unfold thins. split; [reflexivity | lia]. Qed.

Lemma thins_trans a b c : thins a b -> thins b c -> thins a c.
Proof. unfold thins. intros [H1 H2] [H3 H4]. split; [congruence | lia]. Qed.

Lemma thins_same e e' :
  portalHeap e' = portalHeap e -> portals e' = portals e -> thins e e'.
Proof. unfold thins. intros -> ->. split; [reflexivity | lia]. Qed.

Lemma thins_movePortal deltaTime e r : thins e (movePortal deltaTime e r).
Proof.
  unfold thins. rewrite movePortal_portalHeap, length_alter.
  split; [reflexivity|].
  unfold movePortal. destruct (getPortal r e) as [portal|]; [|lia].
  destruct (portal_isMoving portal); [|lia]. cbv zeta.
  destruct (Qltb 1.2 _).
  - unfold removePortalsWithId.
    rewrite portals_set_portals, portals_modifyPortal.
    apply filter_length_le.
  - rewrite !portals_modifyPortal. lia.
Qed.

Lemma thins_handlePortalHit now r wi e : thins e (handlePortalHit now r wi e).
Proof.
  destruct (getPortal r e) as [portal|] eqn:Hr.
  2:{ unfold handlePortalHit. rewrite Hr. apply thins_refl. }
  destruct (judgeHit (portal_beatMatch portal)
              (Z.abs (now - portal_targetTime portal))) as [q s] eqn:Hj.
  destruct (Quality_eq_dec q miss) as [Hq|Hq].
  - rewrite (handlePortalHit_miss _ _ _ _ _ _ _ Hr Hj Hq). apply thins_refl.
  - unfold thins.
    rewrite (handlePortalHit_portalHeap _ _ _ _ _ _ _ Hr Hj Hq),
      (handlePortalHit_portals _ _ _ _ _ _ _ Hr Hj Hq), length_alter.
    split; [reflexivity | apply filter_length_le].
Qed.

Lemma thins_checkCollisions now e : thins e (checkCollisions now e).
Proof.
  unfold checkCollisions.
  apply fold_left_preorder; [apply thins_refl | apply thins_trans |].
  clear e. intros e wi.
  unfold collideWhip. destruct (activeWhips e !! wi); [|apply thins_refl].
  destruct (negb _); [apply thins_refl|].
  apply fold_left_preorder; [apply thins_refl | apply thins_trans |].
  clear. intros e r. unfold collidePortal.
  destruct (getPortal r e); [|apply thins_refl].
  destruct (activeWhips e !! wi); [|apply thins_refl].
  destruct (negb _); [apply thins_refl|].
  destruct (isWhipCollidingWithPortal _ _ _); [|apply thins_refl].
  apply thins_handlePortalHit.
Qed.

Lemma portals_updateWhips deltaTime e :
  portals (updateWhips deltaTime e) = portals e.
Proof. same_field. Qed.

Lemma portals_updateVisualEffects now e :
  portals (updateVisualEffects now e) = portals e.
Proof. same_field. Qed.

Lemma portals_updateLevelProgress now e :
  portals (updateLevelProgress now e) = portals e.
Proof. same_field. Qed.

(** A tick adds at most two portals, one from the beat and one from the
    spawn timer, however long the tick is: no more than two objects are
    created, and the portals in play grow by no more than two. *)
Theorem update_spawns_at_most_two (deltaTime : Q) (now : Z) (e : Engine) :
  (length (portalHeap e) <= length (portalHeap (update deltaTime now e))
   <= length (portalHeap e) + 2)%nat
  /\ (length (portals (update deltaTime now e)) <= length (portals e) + 2)%nat.
Proof.
  pose proof (grows_update deltaTime now e) as [Hlow _].
  set (e0 := set_beatTimer
               (beatTimer (set_gameTime (gameTime e + deltaTime)%Q e)
                + deltaTime * 1000)%Q
               (set_gameTime (gameTime e + deltaTime)%Q e)).
  assert (portalHeap e0 = portalHeap e /\ portals e0 = portals e) as [Hh0 Hp0]
    by (destruct e as []; auto).
  set (e1 := updateBeatSystem now e0).
  assert (length (portalHeap e1) <= length (portalHeap e) + 1
          /\ length (portals e1) <= length (portals e) + 1)%nat as [Hh1 Hp1].
  { unfold e1. destruct (updateBeatSystem_entities now e0)
      as [[-> ->]|(p & -> & ->)]; rewrite ?length_app, Hh0, Hp0; simpl; lia. }
  set (e2 := fold_left (movePortal deltaTime) (portals e1) e1).
  assert (thins e1 e2) as [Hh2 Hp2]
    by (apply fold_left_preorder;
        [apply thins_refl | apply thins_trans | intros; apply thins_movePortal]).
  set (e3 := spawnPortals deltaTime now e2).
  assert (length (portalHeap e3) <= length (portalHeap e2) + 1
          /\ length (portals e3) <= length (portals e2) + 1)%nat as [Hh3 Hp3].
  { unfold e3. destruct (spawnPortals_entities deltaTime now e2)
      as [[-> ->]|(p & -> & -> & _)]; rewrite ?length_app; simpl; lia. }
  set (e5 := updateVisualEffects now (updateWhips deltaTime e3)).
  assert (portalHeap e5 = portalHeap e3 /\ portals e5 = portals e3)
    as [Hh5 Hp5].
  { unfold e5.
    rewrite portalHeap_updateVisualEffects, portalHeap_updateWhips,
      portals_updateVisualEffects, portals_updateWhips. auto. }
  pose proof (thins_checkCollisions now e5) as [Hh6 Hp6].
  rewrite Hh5 in Hh6. rewrite Hp5 in Hp6.
  assert (portalHeap (update deltaTime now e) =
            portalHeap (checkCollisions now e5)
          /\ portals (update deltaTime now e) =
             portals (checkCollisions now e5)) as [Hh Hp].
  { unfold update. cbv zeta. fold e0 e1. unfold updateFroggerPortals.
    cbv zeta. fold e2 e3 e5.
    rewrite portalHeap_updateGameState, portals_updateGameState,
      portalHeap_updateLevelProgress, portals_updateLevelProgress. auto. }
  rewrite Hh in *. rewrite Hp. lia.
Qed.

(** ** The timing utility of the physics engine *)

Ltac accuracy_cases :=
  unfold PhysicsEngine.calculateTimingAccuracy, judgeHit; cbv zeta;
  repeat match goal with
         | |- context [?a <=? ?b] => destruct (Z.leb_spec a b)
         end;
  repeat match goal with
         | b : bool |- _ => destruct b
         end;
  simpl; try lia; try tauto; try discriminate; try reflexivity.

(** [calculateTimingAccuracy] only looks at the distance between the two
    times.  It reports a miss exactly beyond 100 ms, otherwise a distance
    within the reported tolerance; and the live judgement of
    [handlePortalHit] is never harsher than it: the quality it gives is at
    least the quality the utility gives. *)
Theorem calculateTimingAccuracy_stricter
    (expectedTime actualTime : Z) (beatMatch : bool) :
  let a := PhysicsEngine.calculateTimingAccuracy expectedTime actualTime in
  a = PhysicsEngine.calculateTimingAccuracy actualTime expectedTime
  /\ (PhysicsEngine.quality a = miss <-> 100 < Z.abs (actualTime - expectedTime))
  /\ (PhysicsEngine.accuracy a = 0 <-> PhysicsEngine.quality a = miss)
  /\ (PhysicsEngine.quality a <> miss ->
      Z.abs (actualTime - expectedTime) <= PhysicsEngine.tolerance a <= 100)
  /\ qualityRank (PhysicsEngine.quality a) <=
     qualityRank (fst (judgeHit beatMatch (Z.abs (actualTime - expectedTime)))).
Proof.
  cbv zeta. split; [|split; [|split; [|split]]].
  - unfold PhysicsEngine.calculateTimingAccuracy. cbv zeta.
    replace (Z.abs (expectedTime - actualTime))
      with (Z.abs (actualTime - expectedTime)) by lia.
    reflexivity.
  - set (d := Z.abs (actualTime - expectedTime)).
    split; intros H; revert H; accuracy_cases.
  - set (d := Z.abs (actualTime - expectedTime)).
    split; intros H; revert H; accuracy_cases.
  - set (d := Z.abs (actualTime - expectedTime)).
    intros H; revert H; accuracy_cases.
  - set (d := Z.abs (actualTime - expectedTime)). accuracy_cases.
Qed.

Lemma calculateTimingAccuracy_stricter_witness :
  Z.abs (5040 - 5000)
  <= PhysicsEngine.tolerance (PhysicsEngine.calculateTimingAccuracy 5000 5040)
  <= 100.
Proof.
  destruct (calculateTimingAccuracy_stricter 5000 5040 false)
    as (_ & _ & _ & H & _).
  apply H. vm_compute. discriminate.
Defined.

(** ** Movement-based physics *)

(** The speed factor is the velocity capped at 2: reach, energy and curve
    grow with the velocity up to 1, 2 and 1.2 and stay there, while the
    reported speed is the velocity itself. *)
Theorem getMovementBasedPhysics_capped (velocity : Q) :
  (0 <= velocity)%Q ->
  let m := PhysicsEngine.getMovementBasedPhysics velocity in
  PhysicsEngine.move_speed m = velocity
  /\ (0 <= PhysicsEngine.move_reach m)%Q /\ (PhysicsEngine.move_reach m <= 1)%Q
  /\ (0 <= PhysicsEngine.move_energy m)%Q /\ (PhysicsEngine.move_energy m <= 2)%Q
  /\ (0 <= PhysicsEngine.move_curve m)%Q /\ (PhysicsEngine.move_curve m <= 1.2)%Q
  /\ (velocity <= 2 -> PhysicsEngine.move_energy m == velocity)%Q
  /\ (2 <= velocity -> PhysicsEngine.move_energy m == 2)%Q.
Proof.
  intros Hv. cbv zeta. unfold PhysicsEngine.getMovementBasedPhysics.
  cbn [PhysicsEngine.move_speed PhysicsEngine.move_reach
       PhysicsEngine.move_energy PhysicsEngine.move_curve].
  unfold PhysicsEngine.baseReach, PhysicsEngine.baseEnergy,
    PhysicsEngine.baseCurve.
  assert (velocity / 1.0 == velocity)%Q as Hdiv by (field).
  destruct (Q.min_spec (velocity / 1.0) 2) as [[Hlt Hm]|[Hge Hm]];
    rewrite Hm; rewrite Hdiv in *; conjuncts; try reflexivity; try lra;
    intros; lra.
Qed.

Lemma getMovementBasedPhysics_capped_witness :
  (PhysicsEngine.move_reach (PhysicsEngine.getMovementBasedPhysics 5) <= 1)%Q.
Proof.
  apply (getMovementBasedPhysics_capped 5). vm_compute. discriminate.
Defined.

(** ** The simulated trajectory *)

(** [simulateWormholeTrajectory] returns one point per step, at the
    parameters [i / steps] for [i] below [steps]: the first point is the
    start of the trajectory and the end point is never among them.  For a
    whip that does not move backwards the energy falls from point to
    point. *)
Theorem simulateWormholeTrajectory_points (whip : Whip) (steps i : nat) :
  (i < steps)%nat ->
  length (PhysicsEngine.simulateWormholeTrajectory whip steps) = steps
  /\ PhysicsEngine.simulateWormholeTrajectory whip steps !! i =
     Some (PhysicsEngine.trajectoryPoint whip steps i)
  /\ (0 <= PhysicsEngine.point_t (PhysicsEngine.trajectoryPoint whip steps i))%Q
  /\ (PhysicsEngine.point_t (PhysicsEngine.trajectoryPoint whip steps i) < 1)%Q
  /\ (PhysicsEngine.point_x (PhysicsEngine.trajectoryPoint whip steps 0)
      == px (start (whip_trajectory whip)))%Q
  /\ (PhysicsEngine.point_y (PhysicsEngine.trajectoryPoint whip steps 0)
      == py (start (whip_trajectory whip)))%Q
  /\ ((0 <= whip_velocity whip)%Q ->
      forall j, (i <= j)%nat ->
        (PhysicsEngine.point_energy (PhysicsEngine.trajectoryPoint whip steps j)
         <= PhysicsEngine.point_energy
              (PhysicsEngine.trajectoryPoint whip steps i))%Q).
Proof.
  intros Hi.
  assert (0 < inject_Z (Z.of_nat steps))%Q as Hs
    by (change 0%Q with (inject_Z 0); rewrite <- Zlt_Qlt; lia).
  assert (forall k : nat,
             (0 <= inject_Z (Z.of_nat k) / inject_Z (Z.of_nat steps))%Q) as Hk.
  { intros k. apply Qle_shift_div_l; [exact Hs|]. rewrite Qmult_0_l.
    change 0%Q with (inject_Z 0). rewrite <- Zle_Qle. lia. }
  unfold PhysicsEngine.simulateWormholeTrajectory.
  split; [rewrite length_map, length_seq; reflexivity|].
  split.
  { rewrite list_lookup_fmap, lookup_seq_lt by exact Hi. reflexivity. }
  unfold PhysicsEngine.trajectoryPoint.
  cbn [PhysicsEngine.point_t PhysicsEngine.point_x PhysicsEngine.point_y
       PhysicsEngine.point_energy].
  split; [apply Hk|]. split.
  { apply Qlt_shift_div_r; [exact Hs|]. rewrite Qmult_1_l.
    rewrite <- Zlt_Qlt. lia. }
  split.
  { unfold bezier, sq. change (inject_Z (Z.of_nat 0)) with 0%Q.
    field. lra. }
  split.
  { unfold bezier, sq. change (inject_Z (Z.of_nat 0)) with 0%Q.
    field. lra. }
  intros Hv j Hj.
  assert (inject_Z (Z.of_nat i) / inject_Z (Z.of_nat steps)
          <= inject_Z (Z.of_nat j) / inject_Z (Z.of_nat steps))%Q as Hij.
  { apply Qmult_le_compat_r;
      [rewrite <- Zle_Qle; lia | apply Qlt_le_weak, Qinv_lt_0_compat, Hs]. }
  assert (0 <= PhysicsEngine.baseEnergy * Qmin (whip_velocity whip / 1.0) 2)%Q
    as He.
  { unfold PhysicsEngine.baseEnergy.
    assert (whip_velocity whip / 1.0 == whip_velocity whip)%Q as Hdiv by field.
    assert (0 <= Qmin (whip_velocity whip / 1.0) 2)%Q
      by (apply Q.min_glb; [rewrite Hdiv; exact Hv | lra]).
    lra. }
  set (en := (PhysicsEngine.baseEnergy * Qmin (whip_velocity whip / 1.0) 2)%Q)
    in *.
  set (ti := (inject_Z (Z.of_nat i) / inject_Z (Z.of_nat steps))%Q) in *.
  set (tj := (inject_Z (Z.of_nat j) / inject_Z (Z.of_nat steps))%Q) in *.
  nra.
Qed.

Lemma simulateWormholeTrajectory_points_witness :
  length (PhysicsEngine.simulateWormholeTrajectory restWhip 50) = 50%nat.
Proof.
  apply (simulateWormholeTrajectory_points restWhip 50 3). lia.
Defined.

(** ** The beat cue *)

(** On a beat the sound and the pulse effect carry the same category: bass
    on every fourth beat, snare on the other even beats, hi-hat on the odd
    ones.  With the audio switched off the beat is silent, but the pulse
    is still shown. *)
Theorem updateBeatSystem_cue (now : Z) (e : Engine) :
  Qle_bool (beatInterval e) (beatTimer e) = true ->
  let beat := currentBeat e + 1 in
  let kind :=
    if Z.rem beat 4 =? 0 then bass
    else if Z.rem beat 2 =? 0 then snare else hihat in
  (audioEnabled e = true ->
   audioLog (updateBeatSystem now e) =
   audioLog e
   ++ [match kind with
       | bass => playSound "bass_drum_thud.mp3" 0.8
       | snare => playSound "snare_drum_crack.mp3" 0.7
       | hihat => playSound "hi_hat_tinkle.mp3" 0.5
       end])
  /\ (audioEnabled e = false ->
      audioLog (updateBeatSystem now e) = audioLog e)
  /\ visualEffects (updateBeatSystem now e) =
     visualEffects e
     ++ [{| fx_id := beat_ now; fx_type := beat_pulse;
            fx_position := (0.5, 0.5, 0)%Q; fx_startTime := now;
            fx_duration := 300; fx_data := data_beat kind |}].
Proof.
  intros Hb. cbv zeta. unfold updateBeatSystem. rewrite Hb.
  unfold createBeatPulseEffect, spawnPortalOnBeat, playBeatSound,
    spawnRandomPortal. helpers.
  destruct e as [? ? ? ? ? ? ? ? ? ? ? ? beat ? enabled]. fields.
  destruct (Z.rem (beat + 1) 4 =? 0) eqn:E4;
    destruct (Z.rem (beat + 1) 2 =? 0) eqn:E2;
    destruct enabled; cbn [negb]; fields; rewrite ?E4, ?E2; fields;
    match goal with |- context [Qltb ?a ?b] => destruct (Qltb a b) end;
    fields; rewrite ?E4, ?E2; fields;
    (split; [|split]); try reflexivity; intros H; try reflexivity;
    discriminate H.
Qed.

Lemma updateBeatSystem_cue_witness :
  audioLog (updateBeatSystem 7000
              (set_audioEnabled false (set_beatTimer 500%Q (session 1)))) =
  audioLog (set_audioEnabled false (set_beatTimer 500%Q (session 1))).
Proof.
  edestruct (updateBeatSystem_cue 7000
               (set_audioEnabled false (set_beatTimer 500%Q (session 1))))
    as (_ & H & _); [vm_compute; reflexivity|].
  apply H. reflexivity.
Defined.

(** ** Firing in play *)

(** In play a click puts exactly one new whip behind the whips in flight:
    not extended yet, with hit detection on, from the canvas centre to the
    target.  With a pointer speed that is not negative its velocity lies
    between 0.5 and 1.5.  One whip sound is played, whether the audio is
    switched on or off, three draws are used, and portals and game state
    are as before. *)
Theorem fireWhip_adds_one_whip
    (input : InputReading) (now : Z) (targetPosition : Point) (e : Engine) :
  status (gameState e) = playing ->
  let pointerSpeed :=
    if hasActiveTouch input then currentTouchSpeed input
    else averageCursorSpeed input in
  let e' := fireWhip input now targetPosition e in
  exists whip,
    activeWhips e' = activeWhips e ++ [whip]
    /\ whip_extensionProgress whip = 0%Q
    /\ whip_hitDetection whip = true
    /\ whip_isActive whip = true
    /\ start (whip_trajectory whip) =
       {| px := canvasWidth e / 2; py := canvasHeight e / 2 |}
    /\ end_ (whip_trajectory whip) = targetPosition
    /\ whip_createdTime whip = now
    /\ ((0 <= pointerSpeed)%Q ->
        (0.5 <= whip_velocity whip)%Q /\ (whip_velocity whip <= 1.5)%Q)
    /\ (exists sound, audioLog e' = audioLog e ++ [playSound sound 0.7])
    /\ randoms e' = tl (tl (tl (randoms e)))
    /\ length (visualEffects e') =
       (length (visualEffects e) + if hasActiveTouch input then 2 else 1)%nat
    /\ portals e' = portals e
    /\ portalHeap e' = portalHeap e
    /\ gameState e' = gameState e.
Proof.
  intros Hs. cbv zeta. unfold fireWhip. rewrite Hs. cbn [Status_beq negb].
  unfold createWavePattern, createTouchVisualFeedback. helpers.
  destruct e as []. destruct input as [touch ts tv cs cv].
  cbn [hasActiveTouch currentTouchSpeed touchVelocity averageCursorSpeed
       cursorVelocity].
  destruct touch; fields; eexists; conjuncts; try reflexivity;
    try (eexists; reflexivity);
    try (rewrite !length_app; simpl; lia);
    intros Hp; cbn [whip_velocity];
    match goal with
    | |- context [Qmin ?a 2] =>
        assert (0 <= Qmin a 2)%Q
          by (apply Q.min_glb; [apply Qle_shift_div_l; lra | lra]);
        pose proof (Q.le_min_r a 2)
    end; lra.
Qed.

Lemma fireWhip_adds_one_whip_witness :
  exists whip,
    activeWhips (fireWhip mouse 6750 centre (session 1)) =
    activeWhips (session 1) ++ [whip]
    /\ whip_extensionProgress whip = 0%Q.
Proof.
  edestruct (fireWhip_adds_one_whip mouse 6750 centre (session 1))
    as (whip & H1 & H2 & _); [vm_compute; reflexivity|].
  exists whip. split; [exact H1 | exact H2].
Defined.

(** ** Portals that stand still *)

Lemma fold_left_invariant {A : Type} (P : Engine -> Prop)
    (f : Engine -> A -> Engine) (l : list A) :
  (forall e x, P e -> P (f e x)) -> forall e, P e -> P (fold_left f l e).
Proof.
  intros Hf. induction l as [|x l IH]; intros e He; simpl; [exact He|].
  apply IH, Hf, He.
Qed.

Lemma handlePortalHit_other now r wi e r0 :
  r0 <> r ->
  portalHeap (handlePortalHit now r wi e) !! r0 = portalHeap e !! r0.
Proof.
  intros Hne.
  destruct (getPortal r e) as [portal|] eqn:Hr.
  2:{ unfold handlePortalHit. rewrite Hr. reflexivity. }
  destruct (judgeHit (portal_beatMatch portal)
              (Z.abs (now - portal_targetTime portal))) as [q s] eqn:Hj.
  destruct (Quality_eq_dec q miss) as [Hq|Hq].
  - rewrite (handlePortalHit_miss _ _ _ _ _ _ _ Hr Hj Hq). reflexivity.
  - rewrite (handlePortalHit_portalHeap _ _ _ _ _ _ _ Hr Hj Hq).
    apply list_lookup_alter_ne. congruence.
Qed.

(** A portal that does not move and is not [active] is inert: a tick
    leaves the object exactly as it is.  It is never moved, never becomes
    active, and so can never be hit. *)
Theorem update_leaves_static_portals
    (deltaTime : Q) (now : Z) (e : Engine) (r : nat) (portal : Portal) :
  getPortal r e = Some portal ->
  portal_isMoving portal = false ->
  portal_position portal <> active ->
  getPortal r (update deltaTime now e) = Some portal.
Proof.
  intros Hr Hm Hp. unfold getPortal in *.
  assert (forall e1, portalHeap e1 !! r = Some portal ->
                     portalHeap (updateBeatSystem now e1) !! r = Some portal)
    as Hbeat.
  { intros e1 H1. destruct (updateBeatSystem_entities now e1)
      as [[-> _]|(p & -> & _)]; [exact H1|].
    apply lookup_app_l_Some. exact H1. }
  assert (forall e1, portalHeap e1 !! r = Some portal ->
                     portalHeap (updateFroggerPortals deltaTime now e1) !! r
                     = Some portal) as Hmove.
  { intros e1 H1. unfold updateFroggerPortals. cbv zeta.
    set (e2 := fold_left (movePortal deltaTime) (portals e1) e1).
    assert (portalHeap e2 !! r = Some portal) as H2.
    { apply (fold_left_invariant (fun e => portalHeap e !! r = Some portal));
        [|exact H1].
      intros e3 r' H3. rewrite movePortal_portalHeap.
      destruct (decide (r' = r)) as [->|Hne].
      - rewrite list_lookup_alter_eq, H3. simpl. f_equal.
        unfold stepPortal. rewrite Hm. reflexivity.
      - rewrite list_lookup_alter_ne by exact Hne. exact H3. }
    destruct (spawnPortals_entities deltaTime now e2)
      as [[-> _]|(p & -> & _)]; [exact H2|].
    apply lookup_app_l_Some. exact H2. }
  assert (forall e1, portalHeap e1 !! r = Some portal ->
                     portalHeap (checkCollisions now e1) !! r = Some portal)
    as Hhit.
  { intros e1 H1. unfold checkCollisions.
    apply (fold_left_invariant (fun e => portalHeap e !! r = Some portal));
      [|exact H1].
    clear e1 H1. intros e1 wi H1. unfold collideWhip.
    destruct (activeWhips e1 !! wi); [|exact H1].
    destruct (negb _); [exact H1|].
    apply (fold_left_invariant (fun e => portalHeap e !! r = Some portal));
      [|exact H1].
    clear e1 H1. intros e1 r' H1. unfold collidePortal, getPortal.
    destruct (portalHeap e1 !! r') as [portal'|] eqn:Hr'; [|exact H1].
    destruct (activeWhips e1 !! wi); [|exact H1].
    destruct (decide (r' = r)) as [->|Hne].
    - rewrite H1 in Hr'. injection Hr' as <-.
      destruct (portal_position portal); try exact H1. congruence.
    - destruct (negb _); [exact H1|].
      destruct (isWhipCollidingWithPortal _ _ _); [|exact H1].
      rewrite handlePortalHit_other by congruence. exact H1. }
  unfold update. cbv zeta.
  rewrite portalHeap_updateGameState, portalHeap_updateLevelProgress.
  apply Hhit. rewrite portalHeap_updateVisualEffects, portalHeap_updateWhips.
  apply Hmove, Hbeat. destruct e as []. exact Hr.
Qed.

Lemma update_leaves_static_portals_witness :
  getPortal 0 (update 0.25 1250 chartEngine) = Some chartPortal.
Proof.
  apply (update_leaves_static_portals 0.25 1250 chartEngine 0 chartPortal).
  - reflexivity.
  - reflexivity.
  - discriminate.
Defined.

(** ** Collision geometry *)

Lemma sq_le_sq (a b : Q) : (0 <= a)%Q -> (a <= b)%Q -> (sq a <= sq b)%Q.
Proof. unfold sq. intros. nra. Qed.

Lemma sq_nonneg (a : Q) : (0 <= sq a)%Q.
Proof. unfold sq. nra. Qed.

(** The engine's hit test on a canvas of positive width: a portal whose
    size is not positive is never hit; a whip whose tip is on the centre
    of a portal of positive size hits it; and a portal at the same place
    that is at least as large is hit whenever the smaller one is. *)
Theorem isWhipCollidingWithPortal_size
    (e : Engine) (whip : Whip) (portal : Portal) :
  (0 < canvasWidth e)%Q ->
  ((portal_size portal <= 0)%Q ->
   isWhipCollidingWithPortal e whip portal = false)
  /\ ((0 < portal_size portal)%Q ->
      (px (getWhipCurrentPosition whip) == portal_x portal * canvasWidth e)%Q ->
      (py (getWhipCurrentPosition whip) == portal_y portal * canvasHeight e)%Q ->
      isWhipCollidingWithPortal e whip portal = true)
  /\ (forall larger,
         (portal_x larger == portal_x portal)%Q ->
         (portal_y larger == portal_y portal)%Q ->
         (portal_size portal <= portal_size larger)%Q ->
         isWhipCollidingWithPortal e whip portal = true ->
         isWhipCollidingWithPortal e whip larger = true).
Proof.
  intros Hw. unfold isWhipCollidingWithPortal. cbv zeta. cbn [px py].
  set (pos := getWhipCurrentPosition whip).
  split; [|split].
  - intros Hs. apply andb_false_iff. left. apply Qltb_ge. nra.
  - intros Hs Hx Hy. apply andb_true_iff. split; apply Qltb_lt.
    + nra.
    + set (r := (portal_size portal * canvasWidth e * 0.8)%Q).
      assert (0 < r)%Q by (subst r; nra).
      unfold sq.
      set (dx := (px pos - portal_x portal * canvasWidth e)%Q).
      set (dy := (py pos - portal_y portal * canvasHeight e)%Q).
      assert (dx == 0)%Q as Hdx by (subst dx; lra).
      assert (dy == 0)%Q as Hdy by (subst dy; lra).
      rewrite Hdx, Hdy. nra.
  - intros larger Hx Hy Hs H.
    apply andb_true_iff in H. destruct H as [H0 H1].
    apply Qltb_lt in H0. apply Qltb_lt in H1.
    apply andb_true_iff. split; apply Qltb_lt.
    + nra.
    + apply Qle_lt_trans
        with (sq (px pos - portal_x portal * canvasWidth e)
              + sq (py pos - portal_y portal * canvasHeight e))%Q.
      * assert (px pos - portal_x larger * canvasWidth e
                == px pos - portal_x portal * canvasWidth e)%Q as Hdx
          by (apply Qplus_comp, Qopp_comp, Qmult_comp; [| exact Hx |];
              reflexivity).
        assert (py pos - portal_y larger * canvasHeight e
                == py pos - portal_y portal * canvasHeight e)%Q as Hdy
          by (apply Qplus_comp, Qopp_comp, Qmult_comp; [| exact Hy |];
              reflexivity).
        unfold sq.
        pose proof (Qmult_comp _ _ Hdx _ _ Hdx).
        pose proof (Qmult_comp _ _ Hdy _ _ Hdy).
        lra.
      * eapply Qlt_le_trans; [exact H1|]. apply sq_le_sq; [lra | nra].
Qed.

Lemma isWhipCollidingWithPortal_size_witness :
  isWhipCollidingWithPortal chartEngine restWhip chartPortal = true.
Proof.
  refine (proj1 (proj2 (isWhipCollidingWithPortal_size
                          chartEngine restWhip chartPortal _)) _ _ _);
    vm_compute; reflexivity.
Defined.

(** The collision test of the physics engine: without a collision the
    energy is 0 and the trajectory the origin; with one the trajectory is
    the whip's tip, and for a whip that does not move backwards, between
    the ends of its path, the energy is the velocity capped at 2 plus half
    the progress, so between 0 and 2.5.  A whip whose tip is on the portal
    collides with it as soon as portal size and whip length are not
    negative. *)
Theorem calculateWormholeCollision_energy (portal : Portal) (whip : Whip) :
  let c := PhysicsEngine.calculateWormholeCollision portal whip in
  (PhysicsEngine.collision c = false ->
   PhysicsEngine.energy c = 0%Q
   /\ PhysicsEngine.trajectory c = {| px := 0; py := 0 |})
  /\ (PhysicsEngine.collision c = true ->
      PhysicsEngine.trajectory c = PhysicsEngine.getWhipCurrentPosition whip
      /\ ((0 <= whip_velocity whip)%Q ->
          (0 <= whip_extensionProgress whip)%Q ->
          (whip_extensionProgress whip <= 1)%Q ->
          (0 <= PhysicsEngine.energy c)%Q
          /\ (PhysicsEngine.energy c <= 2.5)%Q
          /\ (PhysicsEngine.energy c ==
              Qmin (whip_velocity whip) 2 + whip_extensionProgress whip / 2)%Q))
  /\ ((0 <= portal_size portal)%Q -> (0 <= whip_whipLength whip)%Q ->
      (px (PhysicsEngine.getWhipCurrentPosition whip) == portal_x portal)%Q ->
      (py (PhysicsEngine.getWhipCurrentPosition whip) == portal_y portal)%Q ->
      PhysicsEngine.collision c = true).
Proof.
  cbv zeta. unfold PhysicsEngine.calculateWormholeCollision. cbv zeta.
  cbn [px py].
  set (pos := PhysicsEngine.getWhipCurrentPosition whip).
  set (r := (portal_size portal * 50 + whip_whipLength whip * 50)%Q).
  split; [|split].
  - destruct (Qle_bool 0 r && Qle_bool _ _);
      cbn [PhysicsEngine.collision PhysicsEngine.energy
           PhysicsEngine.trajectory]; [discriminate|auto].
  - destruct (Qle_bool 0 r && Qle_bool _ _);
      cbn [PhysicsEngine.collision PhysicsEngine.energy
           PhysicsEngine.trajectory]; [|discriminate].
    intros _. split; [reflexivity|]. intros Hv H0 H1.
    unfold PhysicsEngine.baseEnergy.
    assert (whip_velocity whip / 1.0 == whip_velocity whip)%Q as Hdiv by field.
    rewrite Hdiv.
    destruct (Q.min_spec (whip_velocity whip) 2) as [[Hlt Hm]|[Hge Hm]];
      rewrite Hm; conjuncts; try lra; field.
  - intros Hs Hl Hx Hy.
    assert (0 <= r)%Q as Hr by (subst r; lra).
    assert (Qle_bool 0 r = true) as -> by (apply Qle_bool_iff; exact Hr).
    assert (Qle_bool (sq (portal_x portal - px pos) + sq (portal_y portal - py pos))
                     (sq r) = true) as ->.
    { apply Qle_bool_iff. pose proof (sq_nonneg r) as Hr2. unfold sq in *.
      set (dx := (portal_x portal - px pos)%Q).
      set (dy := (portal_y portal - py pos)%Q).
      assert (dx == 0)%Q as Hdx by (subst dx; lra).
      assert (dy == 0)%Q as Hdy by (subst dy; lra).
      rewrite Hdx, Hdy. lra. }
    reflexivity.
Qed.

Lemma calculateWormholeCollision_energy_witness :
  PhysicsEngine.energy
    (PhysicsEngine.calculateWormholeCollision chartPortal restWhip) = 0%Q.
Proof.
  destruct (calculateWormholeCollision_energy chartPortal restWhip) as [H _].
  apply H. vm_compute. reflexivity.
Defined.
